(** * arxiv_downloader: the download / dedup / retry pipeline

    A shallow embedding of [download.py] and [retry.py].

    Conventions.
    - A Python [str] is a [string] holding its UTF-8 bytes.  The character
      classes [[a-zA-Z0-9_.-]], ['/'], ['.'] and ['_'] are ASCII, so working
      on bytes or on code points gives the same result.  The class [\d] is
      not: on a [str] it is every decimal digit of Unicode, so the pattern
      that uses it is matched on characters ([utf8_chars]).
    - A record (one element of ["papers"]) is a dict with string values,
      [gmap string string]; [d.get(k)] is [d !! k] and a JSON [null] is an
      absent key.  A value is falsy when it is absent or the empty string.
    - The module-level dict [GLOBAL_EXISTING_PDFS], the files on disk and
      the network are an explicit [World] threaded through the fetch worker.
    - What the operating system, the network and the thread pool decide is
      an oracle of an environment record. *)

From stdpp Require Import gmap strings list fin_maps pretty.
From Stdlib Require Import Ascii QArith.

Close Scope Q_scope.
Open Scope string_scope.
Open Scope list_scope.

(* ===================================================================== *)
(** * Strings and paths *)
(* ===================================================================== *)

(** Python truthiness of the result of [d.get(k)]. *)
Definition truthy (v : option string) : bool :=
  match v with
  | Some s => negb (bool_decide (s = ""))
  | None => false
  end.

Definition chars (s : string) : list ascii := String.list_ascii_of_string s.
Definition str (l : list ascii) : string := String.string_of_list_ascii l.

(** [s[:n]] and [s[n:]] for [0 <= n]. *)
Definition str_take (n : nat) (s : string) : string := str (take n (chars s)).
Definition str_drop (n : nat) (s : string) : string := str (drop n (chars s)).

Definition code (c : ascii) : N := Ascii.N_of_ascii c.

Definition in_range (lo hi : N) (c : ascii) : bool :=
  (lo <=? code c)%N && (code c <=? hi)%N.

Definition is_digit (c : ascii) : bool := in_range 48 57 c.

(** The complement of the class [[^a-zA-Z0-9_.-]]. *)
Definition dirname_char (c : ascii) : bool :=
  in_range 97 122 c || in_range 65 90 c || is_digit c
  || bool_decide (c = "_"%char) || bool_decide (c = "."%char)
  || bool_decide (c = "-"%char).

(** [name.replace('/', '_')] *)
Fixpoint replace_slash (s : string) : string :=
  match s with
  | EmptyString => EmptyString
  | String c s' =>
      String (if bool_decide (c = "/"%char) then "_"%char else c) (replace_slash s')
  end.

Definition sanitize_filename (name : string) : string := replace_slash name.

(** [re.sub(r'[^a-zA-Z0-9_.-]+', '_', text)]: every maximal run of
    characters outside the class becomes one underscore.  [in_run] tells
    that the previous character already belonged to the run. *)
Fixpoint sub_disallowed (in_run : bool) (s : string) : string :=
  match s with
  | EmptyString => EmptyString
  | String c s' =>
      if dirname_char c then String c (sub_disallowed false s')
      else if in_run then sub_disallowed true s'
      else String "_"%char (sub_disallowed true s')
  end.

(** [re.sub(r'_+', '_', sanitized)] *)
Fixpoint collapse_underscores (in_run : bool) (s : string) : string :=
  match s with
  | EmptyString => EmptyString
  | String c s' =>
      if bool_decide (c = "_"%char)
      then (if in_run then collapse_underscores true s'
            else String c (collapse_underscores true s'))
      else String c (collapse_underscores false s')
  end.

Definition strip_leading_underscore (s : string) : string :=
  match s with
  | String c s' => if bool_decide (c = "_"%char) then s' else s
  | EmptyString => s
  end.

Definition strip_trailing_underscore (s : string) : string :=
  match reverse (chars s) with
  | c :: r => if bool_decide (c = "_"%char) then str (reverse r) else s
  | [] => s
  end.

Definition sanitize_for_dirname (text : string) (max_len : nat) : string :=
  let sanitized := sub_disallowed false text in
  let sanitized := collapse_underscores false sanitized in
  let sanitized := strip_leading_underscore sanitized in
  let sanitized := strip_trailing_underscore sanitized in
  if (0 <? max_len)%nat && (max_len <? String.length sanitized)%nat
  then str_take max_len sanitized
  else sanitized.

(** [p.rfind(c)]: the index of the last occurrence. *)
Fixpoint rfind_from (i : nat) (c : ascii) (l : list ascii) : option nat :=
  match l with
  | [] => None
  | x :: l' =>
      match rfind_from (S i) c l' with
      | Some j => Some j
      | None => if bool_decide (x = c) then Some i else None
      end
  end.

Definition rfind (c : ascii) (s : string) : option nat := rfind_from 0 c (chars s).

(** [os.path.basename(p)]: what follows the last ['/']. *)
Definition basename (p : string) : string :=
  match rfind "/"%char p with
  | Some i => str_drop (S i) p
  | None => p
  end.

(** [os.path.splitext(p)[0]] (posixpath): the extension starts at the last
    dot of the last path component, unless only dots precede it there. *)
Definition splitext_root (p : string) : string :=
  let filename_index := match rfind "/"%char p with Some i => S i | None => 0%nat end in
  match rfind "."%char p with
  | Some dot_index =>
      if (filename_index <=? dot_index)%nat
         && existsb (fun c => negb (bool_decide (c = "."%char)))
                    (take (dot_index - filename_index) (drop filename_index (chars p)))
      then str_take dot_index p
      else p
  | None => p
  end.

(** [os.path.join(a, b)] for a second component that is not absolute. *)
Definition path_join (a b : string) : string :=
  match reverse (chars a) with
  | [] => b
  | c :: _ => if bool_decide (c = "/"%char) then a +:+ b else a +:+ "/" +:+ b
  end.

(** ** Characters of a [str]

    [utf8_chars] cuts the bytes of a [str] into its characters.  A
    well-formed UTF-8 sequence (Unicode, table 3-7) is one character; any
    other byte is a character by itself: Python keeps a byte of a file
    name that does not decode as one lone surrogate. *)

(** The bytes that follow a lead byte lie in the given ranges. *)
Fixpoint tail_in (ranges : list (N * N)) (t : list ascii) : bool :=
  match ranges with
  | [] => true
  | (lo, hi) :: ranges' =>
      match t with
      | b :: t' => in_range lo hi b && tail_in ranges' t'
      | [] => false
      end
  end.

(** The number of bytes of the character at the head of a list. *)
Definition utf8_len (l : list ascii) : nat :=
  match l with
  | [] => 0
  | b :: t =>
      if in_range 194 223 b && tail_in [(128, 191)%N] t then 2
      else if in_range 224 224 b && tail_in [(160, 191)%N; (128, 191)%N] t then 3
      else if (in_range 225 236 b || in_range 238 239 b)
              && tail_in [(128, 191)%N; (128, 191)%N] t then 3
      else if in_range 237 237 b && tail_in [(128, 159)%N; (128, 191)%N] t then 3
      else if in_range 240 240 b
              && tail_in [(144, 191)%N; (128, 191)%N; (128, 191)%N] t then 4
      else if in_range 241 243 b
              && tail_in [(128, 191)%N; (128, 191)%N; (128, 191)%N] t then 4
      else if in_range 244 244 b
              && tail_in [(128, 143)%N; (128, 191)%N; (128, 191)%N] t then 4
      else 1
  end.

Fixpoint utf8_chars_fuel (fuel : nat) (l : list ascii) : list (list ascii) :=
  match fuel with
  | 0 => []
  | S fuel' =>
      match l with
      | [] => []
      | _ :: _ => take (utf8_len l) l :: utf8_chars_fuel fuel' (drop (utf8_len l) l)
      end
  end.

Definition utf8_chars_list (l : list ascii) : list (list ascii) :=
  utf8_chars_fuel (length l) l.

(** The characters of a [str], each as its bytes; [len(s)] is the length
    of this list. *)
Definition utf8_chars (s : string) : list (list ascii) := utf8_chars_list (chars s).

(** [s[:n]] for [0 <= n], on characters. *)
Definition str_take_chars (n : nat) (s : string) : string :=
  str (concat (take n (utf8_chars s))).

(** The UTF-8 bytes of a code point. *)
Definition utf8 (cp : N) : list ascii :=
  if (cp <? 128)%N then [Ascii.ascii_of_N cp]
  else if (cp <? 2048)%N then
    [Ascii.ascii_of_N (192 + cp / 64); Ascii.ascii_of_N (128 + cp mod 64)]
  else if (cp <? 65536)%N then
    [Ascii.ascii_of_N (224 + cp / 4096); Ascii.ascii_of_N (128 + (cp / 64) mod 64);
     Ascii.ascii_of_N (128 + cp mod 64)]
  else
    [Ascii.ascii_of_N (240 + cp / 262144); Ascii.ascii_of_N (128 + (cp / 4096) mod 64);
     Ascii.ascii_of_N (128 + (cp / 64) mod 64); Ascii.ascii_of_N (128 + cp mod 64)].

(** The code points of the digit zero of every decimal system of Unicode
    14.0 (general category Nd, as CPython 3.11 has it); the other nine
    digits of a system follow its zero. *)
Definition decimal_zeros : list N :=
  [48; 1632; 1776; 1984; 2406; 2534; 2662; 2790;
   2918; 3046; 3174; 3302; 3430; 3558; 3664; 3792;
   3872; 4160; 4240; 6112; 6160; 6470; 6608; 6784;
   6800; 6992; 7088; 7232; 7248; 42528; 43216; 43264;
   43472; 43504; 43600; 44016; 65296; 66720; 68912; 69734;
   69872; 69942; 70096; 70384; 70736; 70864; 71248; 71360;
   71472; 71904; 72016; 72784; 73040; 73120; 92768; 92864;
   93008; 120782; 120792; 120802; 120812; 120822; 123200; 123632;
   125264; 130032]%N.

Definition decimal_code_points : list N :=
  z ← decimal_zeros; (fun d => (z + d)%N) <$> [0; 1; 2; 3; 4; 5; 6; 7; 8; 9]%N.

(** The characters the class [\d] matches on a [str]. *)
Definition decimal_chars : list (list ascii) := utf8 <$> decimal_code_points.

Definition is_decimal_char (ch : list ascii) : bool := bool_decide (ch ∈ decimal_chars).

Arguments is_decimal_char : simpl never.

(** The sixteen characters [_\d{8}_\d{6}]. *)
Definition is_timestamp (l : list (list ascii)) : bool :=
  match l with
  | u1 :: l1 =>
      bool_decide (u1 = ["_"%char]) && bool_decide (length l1 = 15%nat)
      && forallb is_decimal_char (take 8 l1)
      && match drop 8 l1 with
         | u2 :: l2 => bool_decide (u2 = ["_"%char]) && forallb is_decimal_char l2
         | [] => false
         end
  | [] => false
  end.

Definition newline : ascii := Ascii.ascii_of_nat 10.

(** [re.search(r'(_\d{8}_\d{6})$', stem)]: the start of the match, if any,
    as an index into the characters.  [$] matches at the end of the string
    and also just before a newline that ends it. *)
Definition timestamp_match_start (stem : string) : option nat :=
  let l := utf8_chars stem in
  let n := length l in
  if (17 <=? n)%nat && is_timestamp (take 16 (drop (n - 17) l))
     && bool_decide (drop (n - 1) l = [[newline]])
  then Some (n - 17)%nat
  else if (16 <=? n)%nat && is_timestamp (drop (n - 16) l)
  then Some (n - 16)%nat
  else None.

(** The name derived from the batch file when the facets give none
    (lines 220-226 and 230-236 of download.py, the same text twice). *)
Definition filename_fallback_name (json_file_path : string) : string :=
  let json_filename_stem_for_fallback := splitext_root (basename json_file_path) in
  let json_filename_stem_for_fallback :=
    match timestamp_match_start json_filename_stem_for_fallback with
    | Some start => str_take_chars start json_filename_stem_for_fallback
    | None => json_filename_stem_for_fallback
    end in
  let pdf_output_subdir_name := sanitize_for_dirname json_filename_stem_for_fallback 60 in
  if bool_decide (pdf_output_subdir_name = "") then "unknown_query_parameters"
  else pdf_output_subdir_name.

(** ["_".join(filter(None, parts))] *)
Fixpoint join_underscore (parts : list string) : string :=
  match parts with
  | [] => ""
  | [p] => p
  | p :: rest => p +:+ "_" +:+ join_underscore rest
  end.

Definition filter_nonempty (parts : list string) : list string :=
  filter (fun p => p ≠ "") parts.

(** The list [subdir_name_parts] built from the two facets. *)
Definition subdir_name_parts (keyword category : option string) : list string :=
  (if truthy keyword then ["kw_" +:+ sanitize_for_dirname (default "" keyword) 35] else [])
  ++ (if truthy category then ["cat_" +:+ sanitize_for_dirname (default "" category) 25] else []).

(** The subdirectory name of a batch: lines 211-239 of
    [download_pdfs_from_json]. *)
Definition pdf_output_subdir_name
    (keyword_from_json category_from_json : option string) (json_file_path : string) : string :=
  let parts := subdir_name_parts keyword_from_json category_from_json in
  let name :=
    match parts with
    | _ :: _ =>
        let joined := join_underscore (filter_nonempty parts) in
        if bool_decide (joined = "") then filename_fallback_name json_file_path
        else joined
    | [] => filename_fallback_name json_file_path
    end in
  if bool_decide (name = "") then "general_arxiv_downloads" else name.

(* ===================================================================== *)
(** * Source speed prober *)
(* ===================================================================== *)

(** What [measure_speed] returns: the elapsed seconds, or [float('inf')]
    after any error.  Only [<] and [!=] are ever applied to these values,
    and every finite float is a rational. *)
Inductive speed :=
  | Elapsed (t : Q)
  | Infinite.

(** [a < b] on such floats. *)
Definition speed_lt (a b : speed) : bool :=
  match a, b with
  | Elapsed x, Elapsed y => negb (Qle_bool y x)
  | Elapsed _, Infinite => true
  | Infinite, _ => false
  end.

Definition is_infinite (a : speed) : bool :=
  match a with Infinite => true | Elapsed _ => false end.

Definition export_mirror_url (entry_id : string) : string :=
  "https://export.arxiv.org/pdf/" +:+ entry_id.

Arguments export_mirror_url : simpl never.

(** The insertion-ordered dict [urls_to_test]: source name, URL. *)
Definition urls_to_test (entry_id : string) (primary_pdf_url : option string)
    : list (string * string) :=
  (if truthy primary_pdf_url then [("primary", default "" primary_pdf_url)] else [])
  ++ (if truthy (Some (export_mirror_url entry_id))
         && negb (bool_decide (Some (export_mirror_url entry_id) = primary_pdf_url))
      then [("export_mirror", export_mirror_url entry_id)] else []).

(** The loop of lines 89-94: the strictly smallest speed seen so far. *)
Definition best_source_step (acc : option string * speed) (entry : string * speed)
    : option string * speed :=
  if speed_lt entry.2 acc.2 then (Some entry.1, entry.2) else acc.

Definition best_source (speeds : list (string * speed)) : option string * speed :=
  foldl best_source_step (None, Infinite) speeds.

(** [urls_to_test[name]] *)
Fixpoint url_of_source (name : string) (urls : list (string * string)) : option string :=
  match urls with
  | [] => None
  | (n, u) :: rest => if bool_decide (n = name) then Some u else url_of_source name rest
  end.

(** [choose_best_download_url]: the chosen URL (or [None]) and the URLs
    probed over the network, in order. *)
Definition choose_best_download_url
    (measure_speed : string -> speed) (entry_id : string) (primary_pdf_url : option string)
    : option string * list string :=
  let export_mirror := export_mirror_url entry_id in
  let urls := urls_to_test entry_id primary_pdf_url in
  match urls with
  | [] => (None, [])
  | [(_, chosen_url)] => (Some chosen_url, [])
  | _ =>
      let speeds := map (fun nu : string * string => (nu.1, measure_speed nu.2)) urls in
      let (best_source_name, min_speed) := best_source speeds in
      let fallback :=
        if truthy primary_pdf_url then primary_pdf_url else Some export_mirror in
      (match best_source_name with
       | Some name =>
           if negb (bool_decide (name = "")) && negb (is_infinite min_speed)
           then url_of_source name urls
           else fallback
       | None => fallback
       end, map snd urls)
  end.

(* ===================================================================== *)
(** * Fetch worker *)
(* ===================================================================== *)

Inductive Outcome := DOWNLOADED | EXISTED_SUBDIR | EXISTED_GLOBAL | FAILED.

#[global] Instance Outcome_eq_dec : EqDecision Outcome.
Proof. solve_decision. Defined.

(** A call that goes over the network. *)
Inductive net_event :=
  | Probe (url : string)
  | Wget (url path : string).

(** The state the worker reads and writes: the module-level dict, the
    files on disk (path to size) and the network calls made so far, most
    recent first. *)
Record World := mkWorld {
  GLOBAL_EXISTING_PDFS : gmap string string;
  files : gmap string N;
  network : list net_event
}.

(** How [subprocess.run(['wget', ...], check=True, timeout=...)] ends.
    [stderr_output] is the value of the local variable of that name
    ([e.stderr.strip()], or ["N/A"]). *)
Inductive wget_exit :=
  | Completed
  | TimeoutExpired
  | CalledProcessError (returncode : Z) (stderr_output : string)
  | FileNotFoundError
  | OtherException (e : string).

(** The environment of one worker call.  [wget url path timeout old]
    gives how the transfer ends and what is at [path] afterwards, [old]
    being what was there before. *)
Record Env := mkEnv {
  resolve : string -> string;
  measure_speed : string -> speed;
  wget : string -> string -> Z -> option N -> wget_exit * option N;
  remove_fails : string -> bool
}.

Abbreviation paper := (gmap string string).

(** [if os.path.exists(p): try: os.remove(p) except OSError: pass] *)
Definition remove_partial (env : Env) (path : string) (fs : gmap string N) : gmap string N :=
  match fs !! path with
  | Some _ => if remove_fails env path then fs else delete path fs
  | None => fs
  end.

Definition set_file (path : string) (content : option N) (fs : gmap string N) : gmap string N :=
  match content with
  | Some n => <[path := n]> fs
  | None => delete path fs
  end.

(** Lines 133-145: the URL by source preference, with the probes made. *)
Definition resolve_download_url
    (env : Env) (download_source_preference entry_id : string) (primary_pdf_url : option string)
    : option string * list string :=
  if bool_decide (download_source_preference = "primary") then
    (if truthy primary_pdf_url then primary_pdf_url else Some (export_mirror_url entry_id), [])
  else if bool_decide (download_source_preference = "export") then
    (Some (export_mirror_url entry_id), [])
  else if bool_decide (download_source_preference = "fastest") then
    choose_best_download_url (measure_speed env) entry_id primary_pdf_url
  else
    (if truthy primary_pdf_url then primary_pdf_url else Some (export_mirror_url entry_id), []).

Definition msg_missing_entry_id (title : string) : string :=
  "缺少 entry_id，无法处理。标题: " +:+ title.

Definition msg_no_url (entry_id title : string) : string :=
  "无法确定 " +:+ entry_id +:+ " (" +:+ title +:+ ") 的下载链接。".

Definition msg_timeout (entry_id url : string) (single_file_timeout : Z) : string :=
  "下载 " +:+ entry_id +:+ " (" +:+ url +:+ ") 超时 (" +:+ pretty single_file_timeout +:+ "s).".

Definition msg_wget_failed (entry_id url : string) (returncode : Z) (stderr_output : string) : string :=
  "wget failed for " +:+ entry_id +:+ " (" +:+ url +:+ "). Code: " +:+ pretty returncode
  +:+ ". Stderr: " +:+ stderr_output.

Definition msg_wget_not_found : string :=
  "wget command not found. Please ensure wget is installed and in your PATH.".

Definition msg_unknown (entry_id url e : string) : string :=
  "下载 " +:+ entry_id +:+ " (" +:+ url +:+ ") 发生未知错误: " +:+ e.

(** [output_path_current_subdir] for an entry id: the target path. *)
Definition target_path (sub_dir_path entry_id : string) : string :=
  path_join sub_dir_path (sanitize_filename entry_id +:+ ".pdf").

(** What a worker returns: [(entry_id, status, detail)]. *)
Abbreviation worker_result := (option string * Outcome * string)%type.

Definition download_single_pdf
    (env : Env) (paper_details : paper) (sub_dir_path : string)
    (download_source_preference : string) (single_file_timeout : Z) (w : World)
    : worker_result * World :=
  let primary_pdf_url := paper_details !! "pdf_url" in
  let title := default "UnknownTitle" (paper_details !! "title") in
  if negb (truthy (paper_details !! "entry_id")) then
    ((None, FAILED, msg_missing_entry_id title), w)
  else
    let entry_id := default "" (paper_details !! "entry_id") in
    let safe_entry_id := sanitize_filename entry_id in
    let output_filename := safe_entry_id +:+ ".pdf" in
    let output_path_current_subdir := path_join sub_dir_path output_filename in
    match GLOBAL_EXISTING_PDFS w !! safe_entry_id with
    | Some global_path =>
        if bool_decide (resolve env global_path = resolve env output_path_current_subdir)
        then ((Some entry_id, EXISTED_SUBDIR, output_path_current_subdir), w)
        else ((Some entry_id, EXISTED_GLOBAL, global_path), w)
    | None =>
        if match files w !! output_path_current_subdir with
           | Some size => (0 <? size)%N
           | None => false
           end
        then
          ((Some entry_id, EXISTED_SUBDIR, output_path_current_subdir),
           mkWorld (<[safe_entry_id := output_path_current_subdir]> (GLOBAL_EXISTING_PDFS w))
                   (files w) (network w))
        else
          let (download_url_to_use, probed) :=
            resolve_download_url env download_source_preference entry_id primary_pdf_url in
          let net := rev (map Probe probed) ++ network w in
          if negb (truthy download_url_to_use) then
            ((Some entry_id, FAILED, msg_no_url entry_id title),
             mkWorld (GLOBAL_EXISTING_PDFS w) (files w) net)
          else
            let url := default "" download_url_to_use in
            let (exit, left_at_path) :=
              wget env url output_path_current_subdir single_file_timeout
                   (files w !! output_path_current_subdir) in
            let net := Wget url output_path_current_subdir :: net in
            let fs := set_file output_path_current_subdir left_at_path (files w) in
            match exit with
            | Completed =>
                ((Some entry_id, DOWNLOADED, output_path_current_subdir),
                 mkWorld (<[safe_entry_id := output_path_current_subdir]> (GLOBAL_EXISTING_PDFS w))
                         fs net)
            | TimeoutExpired =>
                ((Some entry_id, FAILED, msg_timeout entry_id url single_file_timeout),
                 mkWorld (GLOBAL_EXISTING_PDFS w)
                         (remove_partial env output_path_current_subdir fs) net)
            | CalledProcessError returncode stderr_output =>
                ((Some entry_id, FAILED, msg_wget_failed entry_id url returncode stderr_output),
                 mkWorld (GLOBAL_EXISTING_PDFS w)
                         (remove_partial env output_path_current_subdir fs) net)
            | FileNotFoundError =>
                ((Some entry_id, FAILED, msg_wget_not_found),
                 mkWorld (GLOBAL_EXISTING_PDFS w) (files w) net)
            | OtherException e =>
                ((Some entry_id, FAILED, msg_unknown entry_id url e),
                 mkWorld (GLOBAL_EXISTING_PDFS w)
                         (remove_partial env output_path_current_subdir fs) net)
            end
    end.

(* ===================================================================== *)
(** * Concurrent batch orchestrator *)
(* ===================================================================== *)

(** What [future.result()] gives: the worker's return value, or the
    exception that escaped the worker. *)
Inductive future_result :=
  | Returned (r : worker_result)
  | Raised (exc : string).

(** The batch file after [json.load]: [query_details.get('keyword', '')],
    [query_details.get('category', '')] and [data.get('papers', [])]. *)
Record batch_doc := mkBatchDoc {
  query_keyword : option string;
  query_category : option string;
  papers : list paper
}.

Inductive json_load :=
  | FileNotFound
  | JSONDecodeError
  | Loaded (data : batch_doc).

(** A future of the pool: the entry id it is filed under in
    [future_to_entry_id], and its result. *)
Abbreviation future := (string * future_result)%type.

(** The environment of a batch.  The workers run concurrently on shared
    state, so the result of the [i]-th submitted call is an oracle, and so
    is the order in which [as_completed] yields the futures. *)
Record BatchEnv := mkBatchEnv {
  load_json : string -> json_load;
  makedirs_fails : string -> bool;
  run_worker : nat -> paper -> string -> future_result;
  as_completed : list future -> list future;
  write_fails : string -> bool
}.

Record subdir_metadata := mkMetadata {
  source_json_file : string;
  output_subdirectory_name : string;
  query_keyword_used_for_subdir_name : option string;
  query_category_used_for_subdir_name : option string;
  total_planned : nat;
  downloaded_here_count : nat;
  existed_in_subdir_count : nat;
  skipped_global_duplicate_count : nat;
  failed_download_count : nat;
  details_downloaded_here : list (string * string);
  details_existed_subdir : list (string * string);
  details_skipped_global_duplicates : list (string * string);
  details_failed_downloads : list (string * string)
}.

Definition initial_metadata (json_file_path pdf_output_subdir : string)
    (keyword_from_json category_from_json : option string) (papers_to_download : list paper)
    : subdir_metadata :=
  mkMetadata (basename json_file_path) (basename pdf_output_subdir)
             keyword_from_json category_from_json (length papers_to_download)
             0 0 0 0 [] [] [] [].

(** [detail] appended to a detail list only [if processed_entry_id]. *)
Definition detail_entry (processed_entry_id : option string) (detail : string)
    : list (string * string) :=
  if truthy processed_entry_id then [(default "" processed_entry_id, detail)] else [].

Definition count_downloaded (processed_entry_id : option string) (detail : string)
    (m : subdir_metadata) : subdir_metadata :=
  mkMetadata (source_json_file m) (output_subdirectory_name m)
    (query_keyword_used_for_subdir_name m) (query_category_used_for_subdir_name m)
    (total_planned m)
    (downloaded_here_count m + 1) (existed_in_subdir_count m)
    (skipped_global_duplicate_count m) (failed_download_count m)
    (details_downloaded_here m ++ detail_entry processed_entry_id detail)
    (details_existed_subdir m) (details_skipped_global_duplicates m)
    (details_failed_downloads m).

Definition count_existed_subdir (processed_entry_id : option string) (detail : string)
    (m : subdir_metadata) : subdir_metadata :=
  mkMetadata (source_json_file m) (output_subdirectory_name m)
    (query_keyword_used_for_subdir_name m) (query_category_used_for_subdir_name m)
    (total_planned m)
    (downloaded_here_count m) (existed_in_subdir_count m + 1)
    (skipped_global_duplicate_count m) (failed_download_count m)
    (details_downloaded_here m)
    (details_existed_subdir m ++ detail_entry processed_entry_id detail)
    (details_skipped_global_duplicates m) (details_failed_downloads m).

Definition count_skipped_global (processed_entry_id : option string) (detail : string)
    (m : subdir_metadata) : subdir_metadata :=
  mkMetadata (source_json_file m) (output_subdirectory_name m)
    (query_keyword_used_for_subdir_name m) (query_category_used_for_subdir_name m)
    (total_planned m)
    (downloaded_here_count m) (existed_in_subdir_count m)
    (skipped_global_duplicate_count m + 1) (failed_download_count m)
    (details_downloaded_here m) (details_existed_subdir m)
    (details_skipped_global_duplicates m ++ detail_entry processed_entry_id detail)
    (details_failed_downloads m).

(** [failed_download_count += 1], and the failure details when the
    original record was found. *)
Definition count_failed (failure_detail : list (string * string))
    (m : subdir_metadata) : subdir_metadata :=
  mkMetadata (source_json_file m) (output_subdirectory_name m)
    (query_keyword_used_for_subdir_name m) (query_category_used_for_subdir_name m)
    (total_planned m)
    (downloaded_here_count m) (existed_in_subdir_count m)
    (skipped_global_duplicate_count m) (failed_download_count m + 1)
    (details_downloaded_here m) (details_existed_subdir m)
    (details_skipped_global_duplicates m)
    (details_failed_downloads m ++ failure_detail).

(** The four outcome counts of a metadata object, added up. *)
Definition outcome_count_sum (m : subdir_metadata) : nat :=
  downloaded_here_count m + existed_in_subdir_count m
  + skipped_global_duplicate_count m + failed_download_count m.

(** [{paper.get('entry_id'): paper for paper in papers if paper.get('entry_id')}] *)
Definition entry_id_of (p : paper) : option string := p !! "entry_id".

Definition has_entry_id (p : paper) : bool := truthy (entry_id_of p).

Definition build_paper_map (ps : list paper) : gmap string paper :=
  foldl (fun m p => if has_entry_id p then <[default "" (entry_id_of p) := p]> m else m) ∅ ps.

(** Truthiness of [paper_map.get(entry_id)]: found, and not the empty dict. *)
Definition found_record (o : option paper) : option paper :=
  match o with
  | Some p => if bool_decide (p = ∅) then None else Some p
  | None => None
  end.

(** [failure_record = original.copy()] with the two added fields. *)
Definition failure_record (original : paper) (reason json_file_path : string) : paper :=
  <["_original_input_json" := json_file_path]> (<["_failure_reason" := reason]> original).

Definition execution_exception (exc : string) : string := "Execution exception: " +:+ exc.

(** [a or b or "Unknown ID"] *)
Definition first_truthy (a : option string) (b : string) (c : string) : string :=
  if truthy a then default "" a else if bool_decide (b = "") then c else b.

(** The body of the loop over [as_completed] (lines 276-329). *)
Definition collect (json_file_path : string) (paper_map : gmap string paper)
    (acc : subdir_metadata * list paper) (f : future) : subdir_metadata * list paper :=
  let (metadata, batch_failed_paper_details) := acc in
  let entry_id_from_future := f.1 in
  let original_paper_details := found_record (paper_map !! entry_id_from_future) in
  match f.2 with
  | Returned (processed_entry_id, DOWNLOADED, detail) =>
      (count_downloaded processed_entry_id detail metadata, batch_failed_paper_details)
  | Returned (processed_entry_id, EXISTED_SUBDIR, detail) =>
      (count_existed_subdir processed_entry_id detail metadata, batch_failed_paper_details)
  | Returned (processed_entry_id, EXISTED_GLOBAL, detail) =>
      (count_skipped_global processed_entry_id detail metadata, batch_failed_paper_details)
  | Returned (processed_entry_id, FAILED, detail) =>
      match original_paper_details with
      | Some original =>
          let detail_msg :=
            if bool_decide (detail = "") then "Unknown error during download_single_pdf"
            else detail in
          (count_failed
             [(first_truthy processed_entry_id entry_id_from_future "Unknown ID", detail_msg)]
             metadata,
           batch_failed_paper_details ++ [failure_record original detail_msg json_file_path])
      | None => (count_failed [] metadata, batch_failed_paper_details)
      end
  | Raised exc =>
      match original_paper_details with
      | Some original =>
          (count_failed [(entry_id_from_future, execution_exception exc)] metadata,
           batch_failed_paper_details
             ++ [failure_record original (execution_exception exc) json_file_path])
      | None => (count_failed [] metadata, batch_failed_paper_details)
      end
  end.

(** The futures of a batch, in submission order: one per record that
    carries an entry id. *)
Definition submit_all (env : BatchEnv) (pdf_output_subdir : string) (ps : list paper)
    : list future :=
  imap (fun i p => (default "" (entry_id_of p), run_worker env i p pdf_output_subdir))
       (filter (fun p => has_entry_id p = true) ps).

(** What one call of the orchestrator leaves behind: the list it returns
    and the [_metadata.json] it wrote, if it wrote one. *)
Record batch_result := mkBatchResult {
  returned : list paper;
  metadata_file : option (string * subdir_metadata)
}.

(** [download_pdfs_from_json] on the runs that return: a batch file that
    loads is an object whose ["query_details"] is an object or is absent
    and whose ["papers"] is a list of objects, and [max_workers] is
    positive.  (With ["query_details": null], or with a worker count of
    zero, the code raises once the records are read, before it writes any
    metadata; the exceptions it does not catch are not part of the model.) *)
Definition download_pdfs_from_json
    (env : BatchEnv) (json_file_path base_output_dir : string) : batch_result :=
  match load_json env json_file_path with
  | FileNotFound => mkBatchResult [] None
  | JSONDecodeError => mkBatchResult [] None
  | Loaded data =>
      let papers_to_download := papers data in
      match papers_to_download with
      | [] => mkBatchResult [] None
      | _ :: _ =>
          let keyword_from_json := query_keyword data in
          let category_from_json := query_category data in
          let pdf_output_subdir :=
            path_join base_output_dir
              (pdf_output_subdir_name keyword_from_json category_from_json json_file_path) in
          if makedirs_fails env pdf_output_subdir then
            mkBatchResult papers_to_download None
          else
            let metadata0 :=
              initial_metadata json_file_path pdf_output_subdir
                               keyword_from_json category_from_json papers_to_download in
            let paper_map := build_paper_map papers_to_download in
            let futures := submit_all env pdf_output_subdir papers_to_download in
            let (metadata, batch_failed_paper_details) :=
              foldl (collect json_file_path paper_map) (metadata0, []) (as_completed env futures) in
            let metadata_filepath := path_join pdf_output_subdir "_metadata.json" in
            mkBatchResult batch_failed_paper_details
              (if write_fails env metadata_filepath then None
               else Some (metadata_filepath, metadata))
      end
  end.

(* ===================================================================== *)
(** * Failure ledger: merge *)
(* ===================================================================== *)

(** The ledger document [{query_details: {type, <stamp>: timestamp},
    results_count, papers}]; [results_count] is [len(papers)]. *)
Inductive stamp_kind := last_updated_timestamp | last_retry_run_timestamp.

Record ledger_doc := mkLedgerDoc {
  stamp : stamp_kind;
  timestamp : string;
  ledger_papers : list paper
}.

(** The file at [failed_log_path]: absent, of size zero, not parseable as
    JSON, or a document ([papers] is [log_data.get('papers', [])]). *)
Inductive ledger_file :=
  | Missing
  | EmptyFile
  | Unparseable
  | Document (d : ledger_doc).

Definition file_exists (f : ledger_file) : bool :=
  match f with Missing => false | _ => true end.

(** The records a file holds, as both scripts read them. *)
Definition papers_of (f : ledger_file) : list paper :=
  match f with
  | Document d => ledger_papers d
  | _ => []
  end.

(** An insertion-ordered dict keyed by entry id, as a list of pairs with
    distinct keys: assigning to a present key keeps its position. *)
Abbreviation odict := (list (string * paper)).

Fixpoint odict_set (k : string) (v : paper) (d : odict) : odict :=
  match d with
  | [] => [(k, v)]
  | (k', v') :: d' =>
      if bool_decide (k' = k) then (k, v) :: d' else (k', v') :: odict_set k v d'
  end.

Definition odict_mem (k : string) (d : odict) : bool := bool_decide (k ∈ d.*1).

(** [d.get(k)] *)
Fixpoint odict_get (k : string) (d : odict) : option paper :=
  match d with
  | [] => None
  | (k', v) :: d' => if bool_decide (k' = k) then Some v else odict_get k d'
  end.

Definition odict_values (d : odict) : list paper := d.*2.

(** The shape of the dicts the merge builds: distinct keys, each the
    (non-empty) entry id of its record. *)
Definition odict_ok (d : odict) : Prop :=
  NoDup d.*1 /\ Forall (fun kv => entry_id_of kv.2 = Some kv.1 /\ kv.1 ≠ "") d.

(** [{paper.get('entry_id'): paper for paper in ps if paper.get('entry_id')}] *)
Definition odict_add (d : odict) (p : paper) : odict :=
  if has_entry_id p then odict_set (default "" (entry_id_of p)) p d else d.

Definition odict_of_papers (ps : list paper) : odict := foldl odict_add [] ps.

(** The loop of lines 404-422 over [new_failures]; the state is
    [combined_failures_map], [newly_added_count] and
    [existing_failures_papers]. *)
Definition merge_failure (acc : odict * nat * list paper) (p : paper)
    : odict * nat * list paper :=
  let '(combined_failures_map, newly_added_count, existing_failures_papers) := acc in
  if has_entry_id p then
    if odict_mem (default "" (entry_id_of p)) combined_failures_map then acc
    else (odict_set (default "" (entry_id_of p)) p combined_failures_map,
          S newly_added_count, existing_failures_papers)
  else (combined_failures_map, newly_added_count, existing_failures_papers ++ [p]).

(** [p_updated.get('title') == paper.get('title') and not p_updated.get('entry_id')] *)
Definition same_title_no_id (p p_updated : paper) : bool :=
  bool_decide (p_updated !! "title" = p !! "title") && negb (has_entry_id p_updated).

(** The loop of lines 427-437 that adds the records without an entry id. *)
Definition readd_without_id (updated_papers_list : list paper) (p : paper) : list paper :=
  if has_entry_id p then updated_papers_list
  else if existsb (same_title_no_id p) updated_papers_list then updated_papers_list
  else updated_papers_list ++ [p].

(** [updated_papers_list] and [newly_added_count] once both loops ran. *)
Definition merged (f : ledger_file) (new_failures : list paper) : list paper * nat :=
  let existing_failures_papers := papers_of f in
  let '(combined_failures_map, newly_added_count, existing_failures_papers) :=
    foldl merge_failure (odict_of_papers existing_failures_papers, 0, existing_failures_papers)
          new_failures in
  (foldl readd_without_id (odict_values combined_failures_map) existing_failures_papers,
   newly_added_count).

Definition updated_papers_list (f : ledger_file) (new_failures : list paper) : list paper :=
  (merged f new_failures).1.

Definition newly_added_count (f : ledger_file) (new_failures : list paper) : nat :=
  (merged f new_failures).2.

(** [append_to_failed_log]: the file afterwards.  [now] is what
    [time.strftime] gives and [io_fails] tells that opening the file for
    writing raises [IOError]. *)
Definition append_to_failed_log (now : string) (io_fails : bool)
    (f : ledger_file) (new_failures : list paper) : ledger_file :=
  match new_failures with
  | [] => f
  | _ :: _ =>
      if (0 <? newly_added_count f new_failures)%nat || negb (file_exists f) then
        if io_fails then f
        else Document (mkLedgerDoc last_updated_timestamp now (updated_papers_list f new_failures))
      else f
  end.

(** The records a list holds for an identity. *)
Definition records_of (entry_id : string) (ps : list paper) : list paper :=
  filter (fun p => entry_id_of p = Some entry_id) ps.

(* ===================================================================== *)
(** * Failure ledger: retry pass *)
(* ===================================================================== *)

(** The environment of a retry pass: the batch oracles, the clock read at
    the [k]-th completed future and at the final write, and whether
    [os.remove] of the ledger raises. *)
Record RetryEnv := mkRetryEnv {
  pool : BatchEnv;
  strftime : nat -> string;
  now_retry : string;
  remove_ledger_fails : bool
}.

(** [a or b] on the results of [.get]. *)
Definition or_else (a b : option string) : option string := if truthy a then a else b.

Definition determine_target_subdir (env : BatchEnv) (paper_details : paper)
    (base_output_dir : string) (default_subdir_name : string) : string :=
  let original_input_json_path := paper_details !! "_original_input_json" in
  let '(keyword, category) :=
    if truthy original_input_json_path then
      match load_json env (default "" original_input_json_path) with
      | Loaded original_data => (query_keyword original_data, query_category original_data)
      | _ => (None, None)
      end
    else (None, None) in
  let keyword := or_else keyword (paper_details !! "keyword_from_query") in
  let category :=
    or_else category
            (or_else (paper_details !! "category_from_query")
                     (paper_details !! "primary_category")) in
  let parts := subdir_name_parts keyword category in
  let subdir_name :=
    match parts with
    | _ :: _ =>
        let joined := join_underscore (filter_nonempty parts) in
        if bool_decide (joined = "") then default_subdir_name else joined
    | [] => default_subdir_name
    end in
  path_join base_output_dir subdir_name.

(** The records of [papers_to_retry] are dicts shared between that list,
    [paper_map_for_retry] and [still_failed_after_retry], and they are
    updated in place: the store is the list itself, a reference is an
    index into it. *)
Definition ref_map_add (m : gmap string nat) (ip : nat * paper) : gmap string nat :=
  if has_entry_id ip.2 then <[default "" (entry_id_of ip.2) := ip.1]> m else m.

Definition build_ref_map (ps : list paper) : gmap string nat :=
  foldl ref_map_add ∅ (imap (fun i p => (i, p)) ps).

(** The submission loop (lines 235-252): the references kept at once and
    the futures submitted. *)
Definition submit_retry (env : BatchEnv) (base_output_dir : string)
    (acc : list nat * list future) (ip : nat * paper) : list nat * list future :=
  let (still_failed_after_retry, futures) := acc in
  let (i, p) := ip in
  if negb (has_entry_id p) then (still_failed_after_retry ++ [i], futures)
  else
    let target_subdir_for_retry := determine_target_subdir env p base_output_dir "retry_downloads" in
    if makedirs_fails env target_subdir_for_retry then (still_failed_after_retry ++ [i], futures)
    else (still_failed_after_retry,
          futures ++ [(default "" (entry_id_of p), run_worker env i p target_subdir_for_retry)]).

Definition mark_retry_failed (reason ts : string) (p : paper) : paper :=
  <["_last_retry_timestamp" := ts]> (<["_retry_attempt_failed_reason" := reason]> p).

(** The reason recorded for a future, if its retry failed. *)
Definition retry_failure_reason (r : future_result) : option string :=
  match r with
  | Returned (_, FAILED, detail) => Some detail
  | Returned (_, _, _) => None
  | Raised exc => Some (execution_exception exc)
  end.

(** The body of the loop over [as_completed] (lines 254-274), on the
    store and the list of references; [k] counts the futures handled. *)
Definition collect_retry (env : RetryEnv) (ref_map : gmap string nat)
    (acc : list paper * list nat) (kf : nat * future) : list paper * list nat :=
  let (store, still_failed_after_retry) := acc in
  let (k, f) := kf in
  match retry_failure_reason f.2 with
  | None => acc
  | Some reason =>
      match ref_map !! f.1 with
      | Some ref =>
          match found_record (store !! ref) with
          | Some original =>
              (<[ref := mark_retry_failed reason (strftime env k) original]> store,
               still_failed_after_retry ++ [ref])
          | None => acc
          end
      | None => acc
      end
  end.

(** The list [still_failed_after_retry] as it is dumped: every reference
    read in the final store. *)
Definition deref (store : list paper) (refs : list nat) : list paper :=
  omap (fun i => store !! i) refs.

Definition still_failed_after_retry (env : RetryEnv) (base_output_dir : string)
    (papers_to_retry : list paper) : list paper :=
  let ref_map := build_ref_map papers_to_retry in
  let (kept, futures) :=
    foldl (submit_retry (pool env) base_output_dir) ([], [])
          (imap (fun i p => (i, p)) papers_to_retry) in
  let (store, refs) :=
    foldl (collect_retry env ref_map) (papers_to_retry, kept)
          (imap (fun k f => (k, f)) (as_completed (pool env) futures)) in
  deref store refs.

(** [retry_failed_downloads]: the ledger file afterwards.  (The scan or
    reset of [GLOBAL_EXISTING_PDFS] at its start acts on the workers only,
    whose results are oracles here.) *)
Definition retry_failed_downloads (env : RetryEnv) (failed_log_path base_output_dir : string)
    (f : ledger_file) : ledger_file :=
  match f with
  | Missing => f
  | EmptyFile => f
  | Unparseable => f
  | Document data =>
      match ledger_papers data with
      | [] => f
      | _ :: _ =>
          let still_failed := still_failed_after_retry env base_output_dir (ledger_papers data) in
          match still_failed with
          | _ :: _ =>
              if write_fails (pool env) failed_log_path then f
              else Document (mkLedgerDoc last_retry_run_timestamp (now_retry env) still_failed)
          | [] =>
              if remove_ledger_fails env then f else Missing
          end
      end
  end.

(** ** The retry pass in closed form *)

(** The identities a ledger holds, one per record that carries one. *)
Definition identities (ps : list paper) : list string :=
  (fun p => default "" (entry_id_of p)) <$> filter (fun p => has_entry_id p = true) ps.

Definition retry_target (env : BatchEnv) (base_output_dir : string) (p : paper) : string :=
  determine_target_subdir env p base_output_dir "retry_downloads".

(** A record the submission loop keeps without an attempt: no entry id,
    or its subdirectory could not be created. *)
Definition retry_skipped (env : BatchEnv) (base_output_dir : string) (p : paper) : bool :=
  negb (has_entry_id p) || makedirs_fails env (retry_target env base_output_dir p).

(** The result of the attempt for the record at index [i]. *)
Definition retry_attempt (env : BatchEnv) (base_output_dir : string) (i : nat) (p : paper)
    : future_result :=
  run_worker env i p (retry_target env base_output_dir p).

Definition kept_of (env : BatchEnv) (base_output_dir : string) (ip : nat * paper)
    : option nat :=
  if retry_skipped env base_output_dir ip.2 then Some ip.1 else None.

Definition future_of (env : BatchEnv) (base_output_dir : string) (ip : nat * paper)
    : option future :=
  if retry_skipped env base_output_dir ip.2 then None
  else Some (default "" (entry_id_of ip.2), retry_attempt env base_output_dir ip.1 ip.2).

(** The record a failed future leaves in the ledger. *)
Definition failed_record (env : RetryEnv) (ref_map : gmap string nat) (ps : list paper)
    (kf : nat * future) : option paper :=
  reason ← retry_failure_reason kf.2.2;
  i ← ref_map !! kf.2.1;
  p ← ps !! i;
  Some (mark_retry_failed reason (strftime env kf.1) p).

(* ===================================================================== *)
(** * Global scan and directory mode *)
(* ===================================================================== *)

(** [PurePath(p).stem]: the final component without its last suffix; a
    dot that starts or ends the name opens no suffix (pathlib, Python up
    to 3.12). *)
Definition path_stem (p : string) : string :=
  let name := basename p in
  match rfind "."%char name with
  | Some i =>
      if (0 <? i)%nat && (i <? String.length name - 1)%nat then str_take i name else name
  | None => name
  end.

(** [s.endswith(suffix)] *)
Definition ends_with (suffix s : string) : bool :=
  (String.length suffix <=? String.length s)%nat
  && bool_decide (str_drop (String.length s - String.length suffix) s = suffix).

(** What the file system answers: [os.path.isdir], [os.listdir],
    [os.path.isfile], and the paths [Path(d).rglob('*.pdf')] yields, in
    its order, as [str(pdf_path)]. *)
Record DirEnv := mkDirEnv {
  isdir : string -> bool;
  listdir : string -> list string;
  isfile : string -> bool;
  rglob_pdf : string -> list string
}.

Definition scan_step (index : gmap string string) (pdf_path : string) : gmap string string :=
  <[path_stem pdf_path := pdf_path]> index.

(** [scan_global_output_directory]: the dict is reset, then filled from
    the walk when the directory exists. *)
Definition scan_global_output_directory (fs : DirEnv) (base_output_dir : string) (w : World)
    : World :=
  mkWorld (if isdir fs base_output_dir
           then foldl scan_step ∅ (rglob_pdf fs base_output_dir)
           else ∅)
          (files w) (network w).

(** The list [json_files_list] of [process_directory]. *)
Definition json_files_list (fs : DirEnv) (input_json_dir : string) : list string :=
  filter (fun f => ends_with ".json" f && isfile fs (path_join input_json_dir f) = true)
         (listdir fs input_json_dir).

(** One turn of the loop of [process_directory]; [pool_of] gives the
    oracles of the batch run on a file. *)
Definition process_file (pool_of : string -> BatchEnv)
    (input_json_dir base_pdf_output_dir : string)
    (overall_failed_downloads : list paper) (json_file_name : string) : list paper :=
  let full_json_path := path_join input_json_dir json_file_name in
  let failed_list :=
    returned (download_pdfs_from_json (pool_of full_json_path) full_json_path
                base_pdf_output_dir) in
  match failed_list with
  | [] => overall_failed_downloads
  | _ :: _ => overall_failed_downloads ++ failed_list
  end.

Definition process_directory (fs : DirEnv) (pool_of : string -> BatchEnv)
    (input_json_dir base_pdf_output_dir : string) : list paper :=
  if negb (isdir fs input_json_dir) then []
  else
    match json_files_list fs input_json_dir with
    | [] => []
    | names => foldl (process_file pool_of input_json_dir base_pdf_output_dir) [] names
    end.

(** ** Auxiliary notions for the statements *)

(** The failure record a completed future gives, if it failed. *)
Definition batch_failure (json_file_path : string) (paper_map : gmap string paper)
    (f : future) : option paper :=
  match f.2 with
  | Returned (_, FAILED, detail) =>
      original ← found_record (paper_map !! f.1);
      Some (failure_record original
              (if bool_decide (detail = "") then "Unknown error during download_single_pdf"
               else detail) json_file_path)
  | Returned (_, _, _) => None
  | Raised exc =>
      original ← found_record (paper_map !! f.1);
      Some (failure_record original (execution_exception exc) json_file_path)
  end.

(** Whether a future counts as failed in the metadata. *)
Definition future_failed (f : future) : bool :=
  match f.2 with
  | Returned (_, FAILED, _) => true
  | Returned (_, _, _) => false
  | Raised _ => true
  end.

(** The string [sanitized] of [sanitize_for_dirname] before the cut to
    [max_len]. *)
Definition cleaned (text : string) : string :=
  strip_trailing_underscore
    (strip_leading_underscore (collapse_underscores false (sub_disallowed false text))).

(** No two underscores in a row. *)
Fixpoint no_double_underscore (l : list ascii) : bool :=
  match l with
  | c1 :: ((c2 :: _) as rest) =>
      negb (bool_decide (c1 = "_"%char) && bool_decide (c2 = "_"%char))
      && no_double_underscore rest
  | _ => true
  end.

(** A record of the ledger whose re-attempt was made and did not fail. *)
Definition retry_succeeded (env : BatchEnv) (base_output_dir : string) (ip : nat * paper)
    : bool :=
  negb (retry_skipped env base_output_dir ip.2)
  && bool_decide (retry_failure_reason (retry_attempt env base_output_dir ip.1 ip.2) = None).

(** Two records that agree on every field but the two the retry pass
    sets. *)
Definition same_but_retry_fields (q p : paper) : Prop :=
  forall key : string,
    key ≠ "_retry_attempt_failed_reason" -> key ≠ "_last_retry_timestamp" ->
    q !! key = p !! key.

(** A character whose bytes, at the head of any list, are cut off as one. *)
Definition whole_char (ch : list ascii) : Prop :=
  ch ≠ [] /\ forall rest, utf8_len (ch ++ rest) = length ch.

(** ** The naming rule in the words of its description *)

(** [n] decimal digits, as [\d{n}] reads them. *)
Definition decimal_digits (n : nat) (s : string) : Prop :=
  exists cps : list N,
    length cps = n /\ Forall (fun cp => cp ∈ decimal_code_points) cps
    /\ chars s = concat (utf8 <$> cps).

(** A trailing timestamp: what [_\d{8}_\d{6}$] matches, up to the end of
    the string or to a newline that ends it. *)
Definition timestamp_suffix (ts : string) : Prop :=
  exists d8 d6 : string,
    decimal_digits 8 d8 /\ decimal_digits 6 d6
    /\ (ts = "_" +:+ d8 +:+ "_" +:+ d6
        \/ ts = "_" +:+ d8 +:+ "_" +:+ d6 +:+ String newline "").

Definition all_dots (s : string) : Prop := Forall (fun c => c = "."%char) (chars s).

(** The stem of the file a path names: the path is a directory part
    (empty, or ending with a separator), the stem and an extension; the
    extension starts at the last dot of the name, and a name whose dots all
    come first has none. *)
Definition file_stem_of (path stem : string) : Prop :=
  exists dir ext : string,
    path = dir +:+ stem +:+ ext
    /\ (dir = "" \/ exists d, dir = d +:+ "/")
    /\ ("/"%char ∉ chars stem)
    /\ ((ext = ""
         /\ exists dots body, stem = dots +:+ body /\ all_dots dots
                              /\ ("."%char ∉ chars body))
        \/ (exists e, ext = "." +:+ e /\ ("."%char ∉ chars e) /\ ("/"%char ∉ chars e)
                      /\ ~ all_dots stem)).

(* ===================================================================== *)
(** * Sample inputs *)
(* ===================================================================== *)

Definition paper_A : paper :=
  {[ "entry_id" := "2401.00001v1"; "pdf_url" := "http://arxiv.org/pdf/2401.00001v1";
     "title" := "A" ]}.

Definition paper_B : paper := {[ "entry_id" := "hep-th/9901001"; "title" := "B" ]}.

(** A record without an entry id. *)
Definition paper_C : paper := {[ "title" := "C" ]}.


(** A later failure for the identity of [paper_B], and a fourth record. *)
Definition paper_B_again : paper :=
  {[ "entry_id" := "hep-th/9901001"; "title" := "B"; "_failure_reason" := "timeout" ]}.

Definition paper_D : paper := {[ "entry_id" := "2402.00002v3"; "title" := "D" ]}.

Definition sample_batch : batch_doc :=
  mkBatchDoc (Some "language models") (Some "cs.AI") [paper_A; paper_B; paper_C].

(** A pool in which every worker fails and futures complete in reverse
    order of submission; [makedirs] fails when [mkdir_fails] is set. *)
Definition sample_pool (mkdir_fails : bool) : BatchEnv :=
  mkBatchEnv (fun _ => Loaded sample_batch) (fun _ => mkdir_fails)
             (fun i p _ => Returned (entry_id_of p, FAILED, "wget failed"))
             (fun fs => reverse fs) (fun _ => false).

(** A retry pass over that pool, with a fixed clock. *)
Definition sample_retry_env : RetryEnv :=
  mkRetryEnv (sample_pool false) (fun _ => "20240101_120000") "2024-01-01 12:00:00 UTC" false.

Definition sample_ledger : ledger_doc :=
  mkLedgerDoc last_updated_timestamp "2024-01-01 00:00:00 UTC" [paper_A; paper_C].

(** A file system with one subdirectory holding two fetched files. *)
Definition sample_dir : DirEnv :=
  mkDirEnv (fun _ => true) (fun _ => ["a.json"; "notes.txt"; "b.json"]) (fun _ => true)
           (fun _ => ["out/kw_x/2401.00001v1.pdf"; "out/kw_y/hep-th_9901001.pdf"]).

Definition sample_env : Env :=
  mkEnv id (fun _ => Infinite) (fun _ _ _ _ => (Completed, Some 10%N)) (fun _ => false).

Definition sample_world : World := mkWorld ∅ ∅ [].

(* ===================================================================== *)
(** * Properties: naming *)
(* ===================================================================== *)

Example sanitize_example :
  sanitize_for_dirname "  large language/models!! " 35 = "large_language_models".
Proof. vm_compute. reflexivity. Qed.

Example fallback_example :
  filename_fallback_name "/data/json/cs.AI results_20240131_235959.json" = "cs.AI_results".
Proof. vm_compute. reflexivity. Qed.

Example fallback_constant_example :
  filename_fallback_name "/data/json/_20240131_235959.json" = "unknown_query_parameters".
Proof. vm_compute. reflexivity. Qed.

Example subdir_example :
  pdf_output_subdir_name (Some "graph neural nets") (Some "cs.LG") "x.json"
  = "kw_graph_neural_nets_cat_cs.LG".
Proof. vm_compute. reflexivity. Qed.

Lemma chars_str (l : list ascii) : chars (str l) = l.
Proof. apply String.list_ascii_of_string_of_list_ascii. Qed.

Lemma str_chars (s : string) : str (chars s) = s.
Proof. apply String.string_of_list_ascii_of_string. Qed.

Lemma chars_app (a b : string) : chars (a +:+ b) = chars a ++ chars b.
Proof. induction a as [|c a IH]; simpl; [done | by rewrite IH]. Qed.

Lemma join_underscore_cons_nonempty (p : string) (rest : list string) :
  p ≠ "" -> join_underscore (p :: rest) ≠ "".
Proof.
  intros Hp. destruct rest as [|q rest]; simpl; [done |].
  destruct p; [done | discriminate].
Qed.

(** With a facet present the name is the joined parts, whatever the file. *)
Lemma subdir_name_of_facets (keyword category : option string) (json_file_path : string) :
  truthy keyword || truthy category = true ->
  pdf_output_subdir_name keyword category json_file_path
  = join_underscore (subdir_name_parts keyword category).
Proof.
  intros Hfacet. unfold pdf_output_subdir_name, subdir_name_parts.
  destruct (truthy keyword) eqn:Hk, (truthy category) eqn:Hc; simpl in Hfacet; try done; simpl.
  all: unfold filter_nonempty; simpl; done.
Qed.

Lemma subdir_name_without_facets (keyword category : option string) (json_file_path : string) :
  truthy keyword = false -> truthy category = false ->
  pdf_output_subdir_name keyword category json_file_path
  = filename_fallback_name json_file_path.
Proof.
  intros Hk Hc. unfold pdf_output_subdir_name, subdir_name_parts.
  rewrite Hk, Hc. cbn [app].
  case_bool_decide as Hname; [| done].
  exfalso. revert Hname. unfold filename_fallback_name.
  case_bool_decide; [discriminate | done].
Qed.

Lemma str_take_app_length (base ts : string) :
  str_take (String.length base) (base +:+ ts) = base.
Proof.
  unfold str_take. rewrite chars_app.
  assert (Hb : length (chars base) = String.length base).
  { clear. induction base; simpl; [done | by f_equal]. }
  rewrite <- Hb, take_app_length. apply str_chars.
Qed.

Lemma length_chars (s : string) : length (chars s) = String.length s.
Proof. induction s as [|c s IH]; simpl; [done | by f_equal]. Qed.

Lemma chars_inj (s1 s2 : string) : chars s1 = chars s2 -> s1 = s2.
Proof. intros H. by rewrite <- (str_chars s1), <- (str_chars s2), H. Qed.

(** ** The last occurrence of a character *)

Lemma rfind_from_None (i : nat) (c : ascii) (l : list ascii) :
  c ∉ l -> rfind_from i c l = None.
Proof.
  revert i. induction l as [|x l IH]; intros i Hc; [done |].
  apply not_elem_of_cons in Hc as [Hx Hl]. cbn [rfind_from].
  rewrite IH by done. by rewrite bool_decide_eq_false_2.
Qed.

Lemma rfind_from_last (i : nat) (c : ascii) (a b : list ascii) :
  c ∉ b -> rfind_from i c (a ++ c :: b) = Some (i + length a).
Proof.
  intros Hb. revert i. induction a as [|x a IH]; intros i; cbn [app rfind_from length].
  - rewrite rfind_from_None by done. rewrite bool_decide_eq_true_2 by done.
    f_equal. lia.
  - rewrite IH. f_equal. lia.
Qed.

Lemma rfind_None (c : ascii) (s : string) : c ∉ chars s -> rfind c s = None.
Proof. apply rfind_from_None. Qed.

Lemma rfind_last (c : ascii) (s : string) (a b : list ascii) :
  chars s = a ++ c :: b -> c ∉ b -> rfind c s = Some (length a).
Proof. intros Hs Hb. unfold rfind. rewrite Hs. by apply rfind_from_last. Qed.

Lemma str_drop_app (s : string) (a b : list ascii) :
  chars s = a ++ b -> str_drop (length a) s = str b.
Proof. intros Hs. unfold str_drop. by rewrite Hs, drop_app_length. Qed.

Lemma rfind_from_None_inv (i : nat) (c : ascii) (l : list ascii) :
  rfind_from i c l = None -> c ∉ l.
Proof.
  revert i. induction l as [|x l IH]; intros i; [intros _; apply not_elem_of_nil |].
  cbn [rfind_from]. destruct (rfind_from (S i) c l) eqn:Hl; [done |].
  case_bool_decide; [done |]. intros _. apply not_elem_of_cons. split; [congruence |].
  by eapply IH.
Qed.

Lemma rfind_from_Some (i : nat) (c : ascii) (l : list ascii) (j : nat) :
  rfind_from i c l = Some j ->
  exists a b, l = a ++ c :: b /\ (c ∉ b) /\ j = i + length a.
Proof.
  revert i. induction l as [|x l IH]; intros i; [done |].
  cbn [rfind_from]. destruct (rfind_from (S i) c l) as [j'|] eqn:Hl.
  - intros [= <-]. destruct (IH _ Hl) as (a & b & -> & Hb & ->).
    exists (x :: a), b. split; [done |]. split; [done |]. cbn. lia.
  - case_bool_decide as Hx; [| done]. intros [= <-]. subst x.
    exists [], l. split; [done |]. split; [by eapply rfind_from_None_inv |]. cbn. lia.
Qed.

(** ** The characters of a string *)

Lemma tail_in_length (ranges : list (N * N)) (t : list ascii) :
  tail_in ranges t = true -> length ranges <= length t.
Proof.
  revert t. induction ranges as [|[lo hi] ranges IH]; intros t; cbn [tail_in length]; [lia |].
  destruct t as [|b t]; [done |]. intros [_ H]%andb_prop. apply IH in H. cbn [length]. lia.
Qed.

Ltac utf8_len_cases :=
  repeat match goal with
         | |- context [if ?c && tail_in ?rs ?t then _ else _] =>
             destruct (c && tail_in rs t) eqn:?
         end.

Lemma utf8_len_pos (l : list ascii) : l ≠ [] -> 1 <= utf8_len l.
Proof. destruct l as [|b t]; [done |]. intros _. unfold utf8_len. utf8_len_cases; lia. Qed.

Lemma utf8_len_le (l : list ascii) : utf8_len l <= length l.
Proof.
  destruct l as [|b t]; [done |]. unfold utf8_len. cbn [length].
  utf8_len_cases;
    try match goal with
        | H : _ && tail_in _ t = true |- _ =>
            apply andb_prop in H as [_ H]; apply tail_in_length in H; cbn [length] in H
        end;
    lia.
Qed.

Lemma utf8_chars_fuel_enough (fuel1 fuel2 : nat) (l : list ascii) :
  length l <= fuel1 -> length l <= fuel2 ->
  utf8_chars_fuel fuel1 l = utf8_chars_fuel fuel2 l.
Proof.
  revert fuel2 l. induction fuel1 as [|fuel1 IH]; intros fuel2 l H1 H2.
  - destruct l; [| cbn in H1; lia]. by destruct fuel2.
  - destruct l as [|b t]; [by destruct fuel2 |].
    destruct fuel2 as [|fuel2]; [cbn in H2; lia |].
    cbn [utf8_chars_fuel]. f_equal.
    assert (Hpos := utf8_len_pos (b :: t) ltac:(done)).
    apply IH; rewrite length_drop; cbn [length] in *; lia.
Qed.

Lemma utf8_chars_list_cons (l : list ascii) :
  l ≠ [] ->
  utf8_chars_list l = take (utf8_len l) l :: utf8_chars_list (drop (utf8_len l) l).
Proof.
  intros Hl. unfold utf8_chars_list. destruct l as [|b t]; [done |].
  cbn [length utf8_chars_fuel]. f_equal.
  assert (Hpos := utf8_len_pos (b :: t) ltac:(done)).
  apply utf8_chars_fuel_enough; rewrite ?length_drop; cbn [length]; lia.
Qed.

Lemma concat_utf8_chars_list (l : list ascii) : concat (utf8_chars_list l) = l.
Proof.
  remember (length l) as n eqn:Hn. revert l Hn.
  induction n as [n IH] using lt_wf_ind. intros l Hn.
  destruct l as [|b t]; [done |].
  rewrite utf8_chars_list_cons by done. cbn [concat].
  assert (Hpos := utf8_len_pos (b :: t) ltac:(done)).
  rewrite (IH (length (drop (utf8_len (b :: t)) (b :: t)))); [apply take_drop | | done].
  rewrite length_drop. subst n. cbn [length]. lia.
Qed.

Lemma utf8_chars_list_char (ch rest : list ascii) :
  whole_char ch -> utf8_chars_list (ch ++ rest) = ch :: utf8_chars_list rest.
Proof.
  intros [Hne Hlen]. rewrite utf8_chars_list_cons by (by destruct ch).
  by rewrite Hlen, take_app_length, drop_app_length.
Qed.

Lemma utf8_chars_list_chars (chs : list (list ascii)) (rest : list ascii) :
  Forall whole_char chs ->
  utf8_chars_list (concat chs ++ rest) = chs ++ utf8_chars_list rest.
Proof.
  induction 1 as [|ch chs Hch _ IH]; [done |].
  cbn [concat]. rewrite <- app_assoc, utf8_chars_list_char by done. by rewrite IH.
Qed.

Lemma whole_char_underscore : whole_char ["_"%char].
Proof. split; [done | by intros rest]. Qed.

Lemma whole_char_newline : whole_char [newline].
Proof. split; [done | by intros rest]. Qed.

(** Every decimal digit is cut off as one character. *)
Lemma whole_char_decimal : Forall (fun cp => whole_char (utf8 cp)) decimal_code_points.
Proof.
  assert (Hzero : Forall (fun z => Forall (fun d => whole_char (utf8 (z + d)))
                                          [0; 1; 2; 3; 4; 5; 6; 7; 8; 9]%N)
                         decimal_zeros).
  { unfold decimal_zeros.
    repeat (apply Forall_cons_2;
            [repeat (apply Forall_cons_2;
                     [split; [vm_compute; discriminate | intros rest; reflexivity] |]);
             apply Forall_nil_2 |]).
    apply Forall_nil_2. }
  rewrite Forall_forall in Hzero.
  apply Forall_forall. intros cp. unfold decimal_code_points.
  intros (z & (d & -> & Hd)%list_elem_of_fmap & Hz)%list_elem_of_bind.
  specialize (Hzero z Hz). rewrite Forall_forall in Hzero. by apply Hzero.
Qed.

Lemma whole_char_digits (cps : list N) :
  Forall (fun cp => cp ∈ decimal_code_points) cps -> Forall whole_char (utf8 <$> cps).
Proof.
  intros Hcps. apply Forall_fmap. eapply Forall_impl; [exact Hcps |].
  intros cp Hcp. pose proof whole_char_decimal as Hall. rewrite Forall_forall in Hall.
  by apply Hall.
Qed.

Lemma forallb_decimal_digits (cps : list N) :
  Forall (fun cp => cp ∈ decimal_code_points) cps ->
  forallb is_decimal_char (utf8 <$> cps) = true.
Proof.
  induction 1 as [|cp cps Hcp _ IH]; [done |].
  cbn [fmap list_fmap forallb]. apply andb_true_intro. split; [| exact IH].
  unfold is_decimal_char. apply bool_decide_eq_true_2.
  unfold decimal_chars. by apply list_elem_of_fmap_2.
Qed.

Lemma decimal_chars_digits (chs : list (list ascii)) :
  forallb is_decimal_char chs = true ->
  exists cps, chs = utf8 <$> cps /\ Forall (fun cp => cp ∈ decimal_code_points) cps.
Proof.
  induction chs as [|ch chs IH]; [by exists [] |].
  cbn [forallb]. intros [Hch Hchs]%andb_prop.
  destruct (IH Hchs) as (cps & -> & Hcps).
  unfold is_decimal_char in Hch. apply bool_decide_eq_true_1 in Hch.
  apply list_elem_of_fmap in Hch as (cp & -> & Hcp).
  exists (cp :: cps). split; [done | by constructor].
Qed.

Lemma newline_not_decimal : is_decimal_char [newline] = false.
Proof. vm_compute. reflexivity. Qed.

(** ** The timestamp pattern *)

(** The characters of a match: [_], eight digits, [_], six digits. *)
Lemma is_timestamp_digits (cps8 cps6 : list N) :
  length cps8 = 8 -> length cps6 = 6 ->
  Forall (fun cp => cp ∈ decimal_code_points) cps8 ->
  Forall (fun cp => cp ∈ decimal_code_points) cps6 ->
  is_timestamp (["_"%char] :: (utf8 <$> cps8) ++ ["_"%char] :: (utf8 <$> cps6)) = true.
Proof.
  intros H8 H6 Hd8 Hd6. unfold is_timestamp.
  rewrite bool_decide_eq_true_2 by done.
  rewrite bool_decide_eq_true_2
    by (rewrite length_app, length_fmap; cbn [length]; rewrite length_fmap; lia).
  assert (Hlen : length (utf8 <$> cps8) = 8) by (by rewrite length_fmap).
  rewrite <- Hlen at 1. rewrite take_app_length.
  rewrite <- Hlen. rewrite drop_app_length.
  rewrite bool_decide_eq_true_2 by done.
  by rewrite !forallb_decimal_digits.
Qed.

Lemma is_timestamp_inv (l : list (list ascii)) :
  is_timestamp l = true ->
  exists cps8 cps6,
    l = ["_"%char] :: (utf8 <$> cps8) ++ ["_"%char] :: (utf8 <$> cps6)
    /\ length cps8 = 8 /\ length cps6 = 6
    /\ Forall (fun cp => cp ∈ decimal_code_points) cps8
    /\ Forall (fun cp => cp ∈ decimal_code_points) cps6.
Proof.
  destruct l as [|u1 l1]; [done |]. unfold is_timestamp.
  intros [[[Hu1 Hlen]%andb_prop Hd8]%andb_prop Hrest]%andb_prop.
  apply bool_decide_eq_true_1 in Hu1, Hlen. subst u1.
  destruct (drop 8 l1) as [|u2 l2] eqn:Hdrop; [done |].
  apply andb_prop in Hrest as [Hu2 Hd6]. apply bool_decide_eq_true_1 in Hu2. subst u2.
  destruct (decimal_chars_digits _ Hd8) as (cps8 & Htake & Hcps8).
  destruct (decimal_chars_digits _ Hd6) as (cps6 & -> & Hcps6).
  exists cps8, cps6.
  assert (Hl1 : l1 = (utf8 <$> cps8) ++ ["_"%char] :: (utf8 <$> cps6))
    by (by rewrite <- (take_drop 8 l1), Htake, Hdrop).
  split; [by rewrite Hl1 |].
  assert (H8 : length cps8 = 8).
  { rewrite <- (length_fmap utf8 cps8), <- Htake, length_take. lia. }
  split; [done |]. split; [| done].
  rewrite Hl1, length_app, !length_fmap in Hlen. cbn [length] in Hlen.
  rewrite length_fmap in Hlen. lia.
Qed.

Lemma utf8_chars_app_underscore_fact (rs : list (N * N)) (x y : list ascii) :
  Forall (fun r : N * N => in_range r.1 r.2 "_"%char = false) rs ->
  tail_in rs (x ++ "_"%char :: y) = tail_in rs x.
Proof.
  intros Hrs. revert x. induction Hrs as [|[lo hi] rs Hr _ IH]; intros x; [done |].
  cbn [tail_in]. destruct x as [|b x]; cbn [app].
  - cbn [fst snd] in Hr. by rewrite Hr.
  - by rewrite IH.
Qed.

Lemma utf8_len_app_underscore (x y : list ascii) :
  x ≠ [] -> utf8_len (x ++ "_"%char :: y) = utf8_len x.
Proof.
  destruct x as [|b x]; [done |]. intros _. cbn [app]. unfold utf8_len.
  by rewrite !(utf8_chars_app_underscore_fact _ x y) by (repeat constructor).
Qed.

(** An underscore starts a character wherever it stands. *)
Lemma utf8_chars_list_app_underscore (x y : list ascii) :
  utf8_chars_list (x ++ "_"%char :: y)
  = utf8_chars_list x ++ utf8_chars_list ("_"%char :: y).
Proof.
  remember (length x) as n eqn:Hn. revert x Hn.
  induction n as [n IH] using lt_wf_ind. intros x Hn.
  destruct x as [|b x]; [done |].
  rewrite (utf8_chars_list_cons ((b :: x) ++ "_"%char :: y)) by done.
  rewrite (utf8_chars_list_cons (b :: x)) by done.
  rewrite utf8_len_app_underscore by done.
  assert (Hle := utf8_len_le (b :: x)).
  assert (Hpos := utf8_len_pos (b :: x) ltac:(done)).
  rewrite take_app_le, drop_app_le by done.
  cbn [app]. f_equal.
  apply (IH (length (drop (utf8_len (b :: x)) (b :: x)))); [| done].
  rewrite length_drop. subst n. cbn [length] in *. lia.
Qed.

Lemma utf8_chars_list_underscore (rest : list ascii) :
  utf8_chars_list ("_"%char :: rest) = ["_"%char] :: utf8_chars_list rest.
Proof. apply (utf8_chars_list_char ["_"%char] rest whole_char_underscore). Qed.

Lemma chars_timestamp_string (a b : string) :
  chars ("_" +:+ a +:+ "_" +:+ b) = "_"%char :: chars a ++ "_"%char :: chars b.
Proof. by rewrite !chars_app. Qed.

Lemma chars_timestamp_string_newline (a b : string) :
  chars ("_" +:+ a +:+ "_" +:+ b +:+ String newline "")
  = "_"%char :: chars a ++ "_"%char :: chars b ++ [newline].
Proof. by rewrite !chars_app. Qed.

Lemma chars_cons_app (c : ascii) (s : string) : chars (String c s) = c :: chars s.
Proof. done. Qed.

(** The characters of a stem that ends with a timestamp. *)
Lemma utf8_chars_timestamp (base : string) (cps8 cps6 : list N) (tail : list ascii) :
  Forall (fun cp => cp ∈ decimal_code_points) cps8 ->
  Forall (fun cp => cp ∈ decimal_code_points) cps6 ->
  utf8_chars_list
    (chars base ++ "_"%char :: concat (utf8 <$> cps8)
       ++ "_"%char :: concat (utf8 <$> cps6) ++ tail)
  = utf8_chars_list (chars base)
    ++ (["_"%char] :: (utf8 <$> cps8) ++ ["_"%char] :: (utf8 <$> cps6))
    ++ utf8_chars_list tail.
Proof.
  intros Hd8 Hd6. rewrite utf8_chars_list_app_underscore. f_equal.
  rewrite utf8_chars_list_underscore.
  rewrite utf8_chars_list_chars by (by apply whole_char_digits).
  rewrite utf8_chars_list_underscore.
  rewrite utf8_chars_list_chars by (by apply whole_char_digits).
  cbn [app]. by rewrite <- app_assoc.
Qed.

Lemma timestamp_match_start_chars (stem : string) (pre ts16 : list (list ascii)) :
  is_timestamp ts16 = true ->
  (utf8_chars stem = pre ++ ts16 \/ utf8_chars stem = pre ++ ts16 ++ [[newline]]) ->
  timestamp_match_start stem = Some (length pre)
  /\ str_take_chars (length pre) stem = str (concat pre).
Proof.
  intros Hts Hchars.
  destruct (is_timestamp_inv _ Hts) as (cps8 & cps6 & Hshape & H8 & H6 & _ & Hd6).
  assert (Hlen : length ts16 = 16).
  { rewrite Hshape. cbn [length]. rewrite length_app, length_fmap. cbn [length].
    rewrite length_fmap. lia. }
  split.
  2:{ unfold str_take_chars. destruct Hchars as [-> | ->]; by rewrite take_app_length. }
  unfold timestamp_match_start. destruct Hchars as [-> | ->].
  - assert (Hlast : drop (length (pre ++ ts16) - 1) (pre ++ ts16) ≠ [[newline]]).
    { rewrite length_app, Hlen, drop_app_ge by lia.
      replace (length pre + 16 - 1 - length pre) with 15 by lia.
      rewrite Hshape. cbn [drop].
      assert (Hl8 : length (utf8 <$> cps8) = 8) by (by rewrite length_fmap).
      rewrite drop_app_ge by lia. rewrite Hl8. cbn [drop Nat.sub].
      destruct cps6 as [|c1 [|c2 [|c3 [|c4 [|c5 [|c6 [|]]]]]]]; try discriminate H6.
      cbn. intros [= Hnl].
      apply Forall_cons in Hd6 as [_ Hd6]. apply Forall_cons in Hd6 as [_ Hd6].
      apply Forall_cons in Hd6 as [_ Hd6]. apply Forall_cons in Hd6 as [_ Hd6].
      apply Forall_cons in Hd6 as [_ Hd6]. apply Forall_cons in Hd6 as [Hc6 _].
      assert (Hdec : is_decimal_char (utf8 c6) = true).
      { unfold is_decimal_char. apply bool_decide_eq_true_2. unfold decimal_chars.
        by apply list_elem_of_fmap_2. }
      rewrite Hnl, newline_not_decimal in Hdec. done. }
    rewrite (bool_decide_eq_false_2 _ Hlast), andb_false_r.
    rewrite length_app, Hlen.
    replace (16 <=? length pre + 16)%nat with true by (symmetry; apply Nat.leb_le; lia).
    replace (length pre + 16 - 16) with (length pre) by lia.
    by rewrite drop_app_length, Hts.
  - rewrite !length_app, Hlen. cbn [length].
    replace (17 <=? length pre + (16 + 1))%nat with true by (symmetry; apply Nat.leb_le; lia).
    replace (length pre + (16 + 1) - 17) with (length pre) by lia.
    rewrite drop_app_length. rewrite <- Hlen at 1. rewrite take_app_length, Hts.
    replace (length pre + (16 + 1) - 1) with (length (pre ++ ts16))
      by (rewrite length_app; lia).
    rewrite app_assoc, drop_app_length. by rewrite bool_decide_eq_true_2.
Qed.

Lemma chars_timestamp_suffix (ts : string) :
  timestamp_suffix ts ->
  exists cps8 cps6 tail,
    length cps8 = 8 /\ length cps6 = 6
    /\ Forall (fun cp => cp ∈ decimal_code_points) cps8
    /\ Forall (fun cp => cp ∈ decimal_code_points) cps6
    /\ (tail = [] \/ tail = [newline])
    /\ chars ts = "_"%char :: concat (utf8 <$> cps8)
                    ++ "_"%char :: concat (utf8 <$> cps6) ++ tail.
Proof.
  intros (d8 & d6 & (cps8 & H8 & Hd8 & Hc8) & (cps6 & H6 & Hd6 & Hc6) & Hts).
  exists cps8, cps6.
  destruct Hts as [-> | ->]; [exists [] | exists [newline]];
    (split; [done |]); (split; [done |]); (split; [done |]); (split; [done |]).
  - split; [by left |]. by rewrite chars_timestamp_string, Hc8, Hc6, app_nil_r.
  - split; [by right |]. by rewrite chars_timestamp_string_newline, Hc8, Hc6.
Qed.

(** A stem that ends with a timestamp loses exactly the timestamp. *)
Lemma timestamp_match_start_suffix (base ts : string) :
  timestamp_suffix ts ->
  exists start,
    timestamp_match_start (base +:+ ts) = Some start
    /\ str_take_chars start (base +:+ ts) = base.
Proof.
  intros (cps8 & cps6 & tail & H8 & H6 & Hd8 & Hd6 & Htail & Hchars)%chars_timestamp_suffix.
  exists (length (utf8_chars base)).
  assert (Hts := is_timestamp_digits cps8 cps6 H8 H6 Hd8 Hd6).
  assert (Hstem : utf8_chars (base +:+ ts)
                  = utf8_chars base
                    ++ (["_"%char] :: (utf8 <$> cps8) ++ ["_"%char] :: (utf8 <$> cps6))
                    ++ utf8_chars_list tail).
  { unfold utf8_chars. rewrite chars_app, Hchars. by apply utf8_chars_timestamp. }
  destruct (timestamp_match_start_chars (base +:+ ts) (utf8_chars base) _ Hts) as [Hm Htake].
  { destruct Htail as [-> | ->]; rewrite Hstem.
    - left. by rewrite app_nil_r.
    - right. done. }
  split; [exact Hm |]. rewrite Htake. unfold utf8_chars.
  by rewrite concat_utf8_chars_list, str_chars.
Qed.

(** A match is a timestamp at the end of the stem. *)
Lemma timestamp_match_start_Some (stem : string) (start : nat) :
  timestamp_match_start stem = Some start ->
  exists base ts, timestamp_suffix ts /\ stem = base +:+ ts.
Proof.
  unfold timestamp_match_start.
  set (l := utf8_chars stem). set (n := length l).
  assert (Hstem : forall k, stem = str (concat (take k l)) +:+ str (concat (drop k l))).
  { intros k. apply chars_inj. rewrite chars_app, !chars_str, <- concat_app, take_drop.
    subst l. unfold utf8_chars. by rewrite concat_utf8_chars_list. }
  assert (Hsuffix : forall ts16 tail,
             is_timestamp ts16 = true -> tail = [] \/ tail = [newline] ->
             timestamp_suffix (str (concat ts16 ++ tail))).
  { intros ts16 tail (cps8 & cps6 & -> & H8 & H6 & Hd8 & Hd6)%is_timestamp_inv Htail.
    exists (str (concat (utf8 <$> cps8))), (str (concat (utf8 <$> cps6))).
    split; [exists cps8; by rewrite chars_str |].
    split; [exists cps6; by rewrite chars_str |].
    destruct Htail as [-> | ->]; [left | right]; apply chars_inj.
    - rewrite chars_timestamp_string, !chars_str. cbn [concat app].
      rewrite concat_app. cbn [concat app]. rewrite ?app_nil_r, <- ?app_assoc. done.
    - rewrite chars_timestamp_string_newline, !chars_str. cbn [concat app].
      rewrite concat_app. cbn [concat app]. rewrite <- ?app_assoc. done. }
  destruct ((17 <=? n)%nat && is_timestamp (take 16 (drop (n - 17) l))
            && bool_decide (drop (n - 1) l = [[newline]])) eqn:H17.
  - intros _. apply andb_prop in H17 as [[Hn Hts]%andb_prop Hnl].
    apply Nat.leb_le in Hn. apply bool_decide_eq_true_1 in Hnl.
    exists (str (concat (take (n - 17) l))), (str (concat (drop (n - 17) l))).
    split; [| apply Hstem].
    assert (Hdrop : drop (n - 17) l = take 16 (drop (n - 17) l) ++ [[newline]]).
    { rewrite <- (take_drop 16 (drop (n - 17) l)) at 1. f_equal.
      rewrite drop_drop. replace (n - 17 + 16) with (n - 1) by lia. done. }
    rewrite Hdrop, concat_app. cbn [concat app].
    apply Hsuffix; [done | by right].
  - destruct ((16 <=? n)%nat && is_timestamp (drop (n - 16) l)) eqn:H16; [| done].
    intros _. apply andb_prop in H16 as [Hn Hts].
    exists (str (concat (take (n - 16) l))), (str (concat (drop (n - 16) l))).
    split; [| apply Hstem].
    rewrite <- (app_nil_r (concat (drop (n - 16) l))).
    apply Hsuffix; [done | by left].
Qed.

(** ** The stem of a file name *)

Lemma existsb_not_dot (l : list ascii) :
  ~ Forall (fun c => c = "."%char) l ->
  existsb (fun c => negb (bool_decide (c = "."%char))) l = true.
Proof.
  induction l as [|c l IH]; intros Hl; [exfalso; apply Hl; constructor |].
  cbn [existsb]. case_bool_decide as Hc; cbn [negb orb]; [| done].
  apply IH. intros Hall. apply Hl. by constructor.
Qed.

Lemma existsb_all_dots (l : list ascii) :
  Forall (fun c => c = "."%char) l ->
  existsb (fun c => negb (bool_decide (c = "."%char))) l = false.
Proof.
  induction 1 as [|c l Hc _ IH]; [done |].
  cbn [existsb]. by rewrite bool_decide_eq_true_2, IH.
Qed.

Lemma string_app_empty (s : string) : s +:+ "" = s.
Proof. apply chars_inj. by rewrite chars_app, app_nil_r. Qed.

Lemma basename_dir_name (dir name : string) :
  dir = "" \/ (exists d, dir = d +:+ "/") -> ("/"%char ∉ chars name) ->
  basename (dir +:+ name) = name.
Proof.
  intros [-> | [d ->]] Hname; unfold basename.
  - cbn [String.app]. by rewrite rfind_None.
  - assert (Hp : chars ((d +:+ "/") +:+ name) = chars d ++ "/"%char :: chars name).
    { rewrite !chars_app, <- app_assoc. done. }
    rewrite (rfind_last _ _ _ _ Hp Hname).
    replace (S (length (chars d))) with (length (chars d ++ ["/"%char]))
      by (rewrite length_app; cbn; lia).
    rewrite (str_drop_app _ (chars d ++ ["/"%char]) (chars name)).
    + apply str_chars.
    + by rewrite Hp, <- app_assoc.
Qed.

Lemma splitext_root_ext (stem e : string) :
  ("/"%char ∉ chars stem) -> ("."%char ∉ chars e) -> ("/"%char ∉ chars e) ->
  ~ all_dots stem ->
  splitext_root (stem +:+ "." +:+ e) = stem.
Proof.
  intros Hs He Hes Hdots. unfold splitext_root.
  assert (Hp : chars (stem +:+ "." +:+ e) = chars stem ++ "."%char :: chars e)
    by (by rewrite !chars_app).
  rewrite (rfind_None "/"%char).
  2:{ rewrite Hp. intros [H | H]%elem_of_app; [done |].
      apply elem_of_cons in H as [H | H]; [discriminate H | done]. }
  rewrite (rfind_last _ _ _ _ Hp He).
  cbn [Nat.leb andb]. rewrite drop_0, Nat.sub_0_r, Hp, take_app_length.
  rewrite existsb_not_dot by done.
  rewrite length_chars. apply str_take_app_length.
Qed.

Lemma splitext_root_no_ext (dots body : string) :
  ("/"%char ∉ chars (dots +:+ body)) -> all_dots dots -> ("."%char ∉ chars body) ->
  splitext_root (dots +:+ body) = dots +:+ body.
Proof.
  intros Hslash Hdots Hbody. unfold splitext_root.
  rewrite (rfind_None "/"%char) by done.
  destruct (rfind "."%char (dots +:+ body)) as [j|] eqn:Hr; [| done].
  unfold rfind in Hr. apply rfind_from_Some in Hr as (a & b & Hab & _ & ->).
  cbn [Nat.leb andb Nat.add]. rewrite drop_0, Nat.sub_0_r.
  rewrite chars_app in Hab |- *.
  assert (Hlt : length a < length (chars dots)).
  { destruct (decide (length a < length (chars dots))) as [| Hge]; [done |].
    exfalso. apply Hbody.
    assert (Hlook : (chars dots ++ chars body) !! length a = Some "."%char)
      by (rewrite Hab; apply list_lookup_middle; done).
    rewrite lookup_app_r in Hlook by lia. by eapply list_elem_of_lookup_2. }
  rewrite take_app_le by lia.
  rewrite existsb_all_dots; [done |]. by apply Forall_take.
Qed.

(** The stem the code computes is the stem of the file the path names. *)
Lemma file_stem_of_sound (path stem : string) :
  file_stem_of path stem -> splitext_root (basename path) = stem.
Proof.
  intros (dir & ext & -> & Hdir & Hstem & Hcase).
  destruct Hcase as [[-> (dots & body & -> & Hdots & Hbody)] | (e & -> & He & Hes & Hnd)].
  - rewrite string_app_empty, basename_dir_name by done.
    by apply splitext_root_no_ext.
  - rewrite basename_dir_name; [by apply splitext_root_ext | done |].
    rewrite !chars_app. intros [H | H]%elem_of_app; [done |].
    apply elem_of_app in H as [H | H]; [| done]. cbn in H.
    apply elem_of_cons in H as [H | H]; [discriminate H | by apply not_elem_of_nil in H].
Qed.

(** Every path names a file with a stem. *)
Lemma file_stem_of_total (path : string) : exists stem, file_stem_of path stem.
Proof.
  assert (Hsplit : exists dir name,
             path = dir +:+ name /\ (dir = "" \/ exists d, dir = d +:+ "/")
             /\ ("/"%char ∉ chars name)).
  { destruct (rfind "/"%char path) as [i|] eqn:Hr.
    - unfold rfind in Hr. apply rfind_from_Some in Hr as (a & b & Hab & Hb & _).
      exists (str a +:+ "/"), (str b). split; [| split].
      + apply chars_inj. rewrite !chars_app, !chars_str, Hab, <- app_assoc. done.
      + right. by exists (str a).
      + by rewrite chars_str.
    - exists "", path. split; [done |]. split; [by left |].
      by eapply rfind_from_None_inv. }
  destruct Hsplit as (dir & name & -> & Hdir & Hname).
  destruct (rfind "."%char name) as [j|] eqn:Hr.
  - unfold rfind in Hr. apply rfind_from_Some in Hr as (a & b & Hab & Hb & _).
    assert (Ha : "/"%char ∉ a) by (intros H; apply Hname; rewrite Hab, elem_of_app; by left).
    assert (Hb' : "/"%char ∉ b).
    { intros H; apply Hname. rewrite Hab, elem_of_app. right. by right. }
    destruct (decide (Forall (fun c => c = "."%char) a)) as [Hdots | Hnd].
    + exists name, dir, "". split; [by rewrite string_app_empty |].
      split; [done |]. split; [done |]. left. split; [done |].
      exists (str (a ++ ["."%char])), (str b). split; [| split].
      * apply chars_inj. by rewrite chars_app, !chars_str, Hab, <- app_assoc.
      * unfold all_dots. rewrite chars_str. apply Forall_app. split; [done |].
        by apply Forall_singleton.
      * by rewrite chars_str.
    + exists (str a), dir, ("." +:+ str b). split; [| split; [done | split]].
      * f_equal. apply chars_inj. by rewrite !chars_app, !chars_str, Hab.
      * by rewrite chars_str.
      * right. exists (str b). split; [done |]. rewrite !chars_str.
        split; [done |]. split; [done |]. unfold all_dots. by rewrite chars_str.
  - exists name, dir, "". split; [by rewrite string_app_empty |].
    split; [done |]. split; [done |]. left. split; [done |].
    exists "", name. split; [done |]. split; [constructor |].
    by eapply rfind_from_None_inv.
Qed.

(** ** The name of the subdirectory *)

Lemma subdir_name_closed_form (keyword category : option string) (json_file_path : string) :
  pdf_output_subdir_name keyword category json_file_path
  = if truthy keyword
    then if truthy category
         then "kw_" +:+ sanitize_for_dirname (default "" keyword) 35
              +:+ "_cat_" +:+ sanitize_for_dirname (default "" category) 25
         else "kw_" +:+ sanitize_for_dirname (default "" keyword) 35
    else if truthy category
         then "cat_" +:+ sanitize_for_dirname (default "" category) 25
         else pdf_output_subdir_name None None json_file_path.
Proof.
  destruct (truthy keyword) eqn:Hk, (truthy category) eqn:Hc.
  - rewrite subdir_name_of_facets by (by rewrite Hk). unfold subdir_name_parts.
    rewrite Hk, Hc. cbn [app join_underscore].
    apply chars_inj. by rewrite !chars_app, <- !app_assoc.
  - rewrite subdir_name_of_facets by (by rewrite Hk). unfold subdir_name_parts.
    by rewrite Hk, Hc.
  - rewrite subdir_name_of_facets by (by rewrite Hk, Hc). unfold subdir_name_parts.
    by rewrite Hk, Hc.
  - by rewrite !subdir_name_without_facets.
Qed.

Lemma fallback_name_of_stem (json_file_path stem : string) :
  file_stem_of json_file_path stem ->
  pdf_output_subdir_name None None json_file_path
  = let stripped :=
      match timestamp_match_start stem with
      | Some start => str_take_chars start stem
      | None => stem
      end in
    if bool_decide (sanitize_for_dirname stripped 60 = "")
    then "unknown_query_parameters"
    else sanitize_for_dirname stripped 60.
Proof.
  intros Hstem. rewrite subdir_name_without_facets by done.
  unfold filename_fallback_name. by rewrite (file_stem_of_sound _ _ Hstem).
Qed.

(** C5. The subdirectory name is a function of the facets and follows
    the fallback chain.  With a keyword or a category the name is
    [kw_<keyword>], [cat_<category>] or both joined by an underscore, each
    facet sanitized and cut to 35 and 25 characters: the batch file plays
    no part, so the same (keyword, category) pair always gives the same
    name.  With both facets empty the name is derived from the stem of the
    batch file: a trailing timestamp [_\d{8}_\d{6}$] is stripped, whatever
    digits of Unicode it is written with, and a stem without one is taken
    whole; what is left is sanitized and cut to 60 characters.  When that
    is empty the name is the constant ["unknown_query_parameters"].  Every
    path names a file with a stem, so the three cases leave no path out. *)
Theorem partition_name_deterministic_fallback_chain :
  (forall keyword category json_file_path,
      pdf_output_subdir_name keyword category json_file_path
      = if truthy keyword
        then if truthy category
             then "kw_" +:+ sanitize_for_dirname (default "" keyword) 35
                  +:+ "_cat_" +:+ sanitize_for_dirname (default "" category) 25
             else "kw_" +:+ sanitize_for_dirname (default "" keyword) 35
        else if truthy category
             then "cat_" +:+ sanitize_for_dirname (default "" category) 25
             else pdf_output_subdir_name None None json_file_path)
  /\ (forall json_file_path stem base ts,
      file_stem_of json_file_path stem ->
      timestamp_suffix ts -> stem = base +:+ ts ->
      pdf_output_subdir_name None None json_file_path
      = if bool_decide (sanitize_for_dirname base 60 = "")
        then "unknown_query_parameters"
        else sanitize_for_dirname base 60)
  /\ (forall json_file_path stem,
      file_stem_of json_file_path stem ->
      (forall base ts, timestamp_suffix ts -> stem ≠ base +:+ ts) ->
      pdf_output_subdir_name None None json_file_path
      = if bool_decide (sanitize_for_dirname stem 60 = "")
        then "unknown_query_parameters"
        else sanitize_for_dirname stem 60)
  /\ (forall json_file_path, exists stem, file_stem_of json_file_path stem).
Proof.
  split; [apply subdir_name_closed_form |]. split; [| split].
  - intros json_file_path stem base ts Hstem Hts ->.
    rewrite (fallback_name_of_stem _ _ Hstem). cbn zeta.
    destruct (timestamp_match_start_suffix base ts Hts) as (start & -> & ->). done.
  - intros json_file_path stem Hstem Hno.
    rewrite (fallback_name_of_stem _ _ Hstem). cbn zeta.
    destruct (timestamp_match_start stem) as [start|] eqn:Hmatch; [| done].
    destruct (timestamp_match_start_Some _ _ Hmatch) as (base & ts & Hts & ->).
    by destruct (Hno base ts Hts).
  - apply file_stem_of_total.
Qed.

Lemma partition_name_witness :
  pdf_output_subdir_name None None "in/a_1234567８_123456.json" = "a"
  /\ pdf_output_subdir_name (Some "graph neural nets") (Some "cs.LG")
       "a_20240131_235959.json"
     = "kw_graph_neural_nets_cat_cs.LG".
Proof.
  split.
  - apply (proj1 (proj2 partition_name_deterministic_fallback_chain)
             "in/a_1234567８_123456.json" "a_1234567８_123456" "a" "_1234567８_123456").
    + exists "in/", ".json". split; [reflexivity |].
      split; [right; by exists "in" |].
      split; [apply (bool_decide_unpack _); vm_compute; exact I |].
      right. exists "json". split; [reflexivity |].
      split; [apply (bool_decide_unpack _); vm_compute; exact I |].
      split; [| unfold all_dots]; apply (bool_decide_unpack _); vm_compute; exact I.
    + exists "1234567８", "123456". split; [| split; [| left; reflexivity]].
      * exists [49; 50; 51; 52; 53; 54; 55; 65304]%N. split; [reflexivity |].
        split; [apply (bool_decide_unpack _); vm_compute; exact I | vm_compute; reflexivity].
      * exists [49; 50; 51; 52; 53; 54]%N. split; [reflexivity |].
        split; [apply (bool_decide_unpack _); vm_compute; exact I | vm_compute; reflexivity].
    + reflexivity.
  - apply (proj1 partition_name_deterministic_fallback_chain
             (Some "graph neural nets") (Some "cs.LG") "a_20240131_235959.json").
Defined.

(** Two batch files of a query without facets go to different
    subdirectories, and a stem that is two dots gives the name [..]. *)
Example fallback_depends_on_file :
  pdf_output_subdir_name None None "in/a.json" = "a"
  /\ pdf_output_subdir_name None None "in/b.json" = "b"
  /\ pdf_output_subdir_name None None "in/.._20240131_235959.json" = "..".
Proof. vm_compute. done. Qed.

(* ===================================================================== *)
(** * Properties: source speed prober and URL resolution *)
(* ===================================================================== *)

Lemma export_mirror_url_nonempty (entry_id : string) : export_mirror_url entry_id ≠ "".
Proof. unfold export_mirror_url. discriminate. Qed.

Lemma truthy_true (s : string) : s ≠ "" -> truthy (Some s) = true.
Proof. intros H. unfold truthy. by rewrite bool_decide_eq_false_2. Qed.

Lemma export_mirror_url_truthy (entry_id : string) :
  truthy (Some (export_mirror_url entry_id)) = true.
Proof. apply truthy_true, export_mirror_url_nonempty. Qed.

Lemma truthy_Some (o : option string) :
  truthy o = true -> exists s, o = Some s /\ s ≠ "".
Proof.
  destruct o as [s|]; [| done]. unfold truthy. intros H. exists s. split; [done |].
  by apply negb_true_iff, bool_decide_eq_false_1 in H.
Qed.

Lemma urls_to_test_two (entry_id primary : string) :
  primary ≠ "" -> primary ≠ export_mirror_url entry_id ->
  urls_to_test entry_id (Some primary)
  = [("primary", primary); ("export_mirror", export_mirror_url entry_id)].
Proof.
  intros Hne Hdiff. unfold urls_to_test.
  rewrite export_mirror_url_truthy, (truthy_true _ Hne).
  rewrite (bool_decide_eq_false_2 (Some (export_mirror_url entry_id) = Some primary))
    by congruence.
  reflexivity.
Qed.

Lemma urls_to_test_cases (entry_id : string) (primary_pdf_url : option string) :
  (truthy primary_pdf_url = false
   /\ urls_to_test entry_id primary_pdf_url = [("export_mirror", export_mirror_url entry_id)])
  \/ (primary_pdf_url = Some (export_mirror_url entry_id)
      /\ urls_to_test entry_id primary_pdf_url = [("primary", export_mirror_url entry_id)])
  \/ (exists primary, primary_pdf_url = Some primary /\ primary ≠ ""
      /\ primary ≠ export_mirror_url entry_id
      /\ urls_to_test entry_id primary_pdf_url
         = [("primary", primary); ("export_mirror", export_mirror_url entry_id)]).
Proof.
  destruct (truthy primary_pdf_url) eqn:Ht.
  - apply truthy_Some in Ht as (primary & -> & Hne).
    destruct (decide (primary = export_mirror_url entry_id)) as [-> | Hdiff].
    + right; left. split; [reflexivity |]. unfold urls_to_test.
      rewrite export_mirror_url_truthy.
      rewrite (bool_decide_eq_true_2 (Some (export_mirror_url entry_id)
                                      = Some (export_mirror_url entry_id))) by reflexivity.
      reflexivity.
    + right; right. exists primary. split; [reflexivity |].
      split; [exact Hne |]. split; [exact Hdiff |].
      by apply urls_to_test_two.
  - left. split; [reflexivity |]. unfold urls_to_test.
    rewrite Ht, export_mirror_url_truthy.
    rewrite (bool_decide_eq_false_2 (Some (export_mirror_url entry_id) = primary_pdf_url)).
    + reflexivity.
    + intros <-. rewrite export_mirror_url_truthy in Ht. discriminate Ht.
Qed.

(** The strictly smaller of two measured speeds, the first on a tie. *)
Lemma best_source_two (n1 n2 : string) (s1 s2 : speed) :
  best_source [(n1, s1); (n2, s2)]
  = if speed_lt s1 Infinite
    then (if speed_lt s2 s1 then (Some n2, s2) else (Some n1, s1))
    else (if speed_lt s2 Infinite then (Some n2, s2) else (None, Infinite)).
Proof.
  unfold best_source. cbn [foldl]. unfold best_source_step. cbn [fst snd].
  destruct (speed_lt s1 Infinite); reflexivity.
Qed.

(** What the prober answers on two candidates. *)
Lemma choose_best_two (measure : string -> speed) (entry_id primary : string) :
  primary ≠ "" -> primary ≠ export_mirror_url entry_id ->
  choose_best_download_url measure entry_id (Some primary)
  = (Some (if speed_lt (measure primary) Infinite
           then (if speed_lt (measure (export_mirror_url entry_id)) (measure primary)
                 then export_mirror_url entry_id else primary)
           else (if speed_lt (measure (export_mirror_url entry_id)) Infinite
                 then export_mirror_url entry_id else primary)),
     [primary; export_mirror_url entry_id]).
Proof.
  intros Hne Hdiff. unfold choose_best_download_url.
  rewrite urls_to_test_two by done.
  cbn [map fst snd]. rewrite best_source_two, (truthy_true _ Hne).
  generalize (export_mirror_url entry_id) as mirror. intros mirror.
  destruct (measure primary) as [tp|], (measure mirror) as [tm|].
  - cbn [speed_lt]. destruct (negb (Qle_bool tp tm)); reflexivity.
  - reflexivity.
  - reflexivity.
  - reflexivity.
Qed.

Lemma choose_best_truthy (measure : string -> speed) (entry_id : string)
    (primary_pdf_url : option string) :
  truthy (choose_best_download_url measure entry_id primary_pdf_url).1 = true.
Proof.
  destruct (urls_to_test_cases entry_id primary_pdf_url)
    as [[Hf Hu] | [[-> Hu] | (primary & -> & Hne & Hdiff & Hu)]].
  - unfold choose_best_download_url. rewrite Hu. apply export_mirror_url_truthy.
  - unfold choose_best_download_url. rewrite Hu. apply export_mirror_url_truthy.
  - rewrite choose_best_two by done. cbn [fst].
    pose proof (truthy_true _ Hne). pose proof (export_mirror_url_truthy entry_id).
    repeat case_match; assumption.
Qed.

Lemma speed_lt_irrefl (s : speed) : speed_lt s s = false.
Proof.
  destruct s as [t|]; [| reflexivity]. cbn [speed_lt].
  apply negb_false_iff, Qle_bool_iff, Qle_refl.
Qed.

Lemma speed_lt_false_le (tp tm : Q) :
  speed_lt (Elapsed tm) (Elapsed tp) = true -> speed_lt (Elapsed tp) (Elapsed tm) = false.
Proof.
  cbn [speed_lt]. intros H. apply negb_true_iff in H.
  apply negb_false_iff, Qle_bool_iff.
  destruct (Qlt_le_dec tm tp) as [Hlt | Hge]; [by apply Qlt_le_weak |].
  apply Qle_bool_iff in Hge. congruence.
Qed.

(** C6. On two candidates the prober returns one whose measured time no
    other candidate beats; when every candidate measures infinity it
    returns the primary URL if the record has one and the mirror otherwise;
    it returns a URL whenever there is a candidate; and a primary that
    measures infinity loses to a mirror with a finite time. *)
Theorem choose_best_url_minimum_and_fallback
    (measure : string -> speed) (entry_id : string) :
  (forall primary,
      primary ≠ "" -> primary ≠ export_mirror_url entry_id ->
      forall t, (measure primary = Elapsed t \/ measure (export_mirror_url entry_id) = Elapsed t) ->
      exists chosen,
        (choose_best_download_url measure entry_id (Some primary)).1 = Some chosen
        /\ (chosen = primary \/ chosen = export_mirror_url entry_id)
        /\ speed_lt (measure primary) (measure chosen) = false
        /\ speed_lt (measure (export_mirror_url entry_id)) (measure chosen) = false)
  /\ (forall primary_pdf_url,
      (forall nu, nu ∈ urls_to_test entry_id primary_pdf_url -> measure nu.2 = Infinite) ->
      (choose_best_download_url measure entry_id primary_pdf_url).1
      = if truthy primary_pdf_url then primary_pdf_url else Some (export_mirror_url entry_id))
  /\ (forall primary_pdf_url,
      urls_to_test entry_id primary_pdf_url ≠ [] ->
      is_Some (choose_best_download_url measure entry_id primary_pdf_url).1)
  /\ (forall primary t,
      primary ≠ "" -> primary ≠ export_mirror_url entry_id ->
      measure primary = Infinite -> measure (export_mirror_url entry_id) = Elapsed t ->
      (choose_best_download_url measure entry_id (Some primary)).1
      = Some (export_mirror_url entry_id)).
Proof.
  split; [| split; [| split]].
  - intros primary Hne Hdiff t Hfinite.
    rewrite choose_best_two by done. cbn [fst].
    revert Hfinite. generalize (export_mirror_url entry_id) as mirror. intros mirror Hfinite.
    destruct (measure primary) as [tp|] eqn:Hp, (measure mirror) as [tm|] eqn:Hm.
    + change (speed_lt (Elapsed tp) Infinite) with true. cbv iota.
      destruct (speed_lt (Elapsed tm) (Elapsed tp)) eqn:Hlt.
      * exists mirror. rewrite Hm. split; [reflexivity |]. split; [by right |].
        split; [by apply speed_lt_false_le | apply speed_lt_irrefl].
      * exists primary. rewrite Hp. split; [reflexivity |]. split; [by left |].
        split; [apply speed_lt_irrefl | exact Hlt].
    + exists primary. rewrite Hp. split; [reflexivity |]. split; [by left |].
      split; [apply speed_lt_irrefl | reflexivity].
    + exists mirror. rewrite Hm. split; [reflexivity |]. split; [by right |].
      split; [reflexivity | apply speed_lt_irrefl].
    + destruct Hfinite; discriminate.
  - intros primary_pdf_url Hinf.
    destruct (urls_to_test_cases entry_id primary_pdf_url)
      as [[Hf Hu] | [[-> Hu] | (primary & -> & Hne & Hdiff & Hu)]].
    + unfold choose_best_download_url. rewrite Hu, Hf. reflexivity.
    + unfold choose_best_download_url.
      rewrite Hu, export_mirror_url_truthy. reflexivity.
    + rewrite choose_best_two by done.
      pose proof (Hinf ("primary", primary)) as Hp.
      pose proof (Hinf ("export_mirror", export_mirror_url entry_id)) as Hm.
      rewrite Hu in Hp, Hm. cbn [snd] in Hp, Hm.
      rewrite Hp, Hm by set_solver.
      rewrite (truthy_true _ Hne). reflexivity.
  - intros primary_pdf_url _.
    pose proof (choose_best_truthy measure entry_id primary_pdf_url) as Ht.
    apply truthy_Some in Ht as (u & -> & _). by eexists.
  - intros primary t Hne Hdiff Hp Hm.
    rewrite choose_best_two by done. rewrite Hp, Hm. reflexivity.
Qed.

Lemma choose_best_url_witness :
  let measure := fun u => if bool_decide (u = "http://arxiv.org/pdf/1") then Infinite
                          else Elapsed (1 # 5) in
  (choose_best_download_url measure "1" (Some "http://arxiv.org/pdf/1")).1
  = Some (export_mirror_url "1")
  /\ exists chosen,
       (choose_best_download_url (fun _ => Elapsed (1 # 5)) "1"
          (Some "http://arxiv.org/pdf/1")).1 = Some chosen
       /\ (chosen = "http://arxiv.org/pdf/1" \/ chosen = export_mirror_url "1")
       /\ speed_lt (Elapsed (1 # 5)) (Elapsed (1 # 5)) = false
       /\ speed_lt (Elapsed (1 # 5)) (Elapsed (1 # 5)) = false.
Proof.
  intros measure. split.
  - apply (proj2 (proj2 (proj2 (choose_best_url_minimum_and_fallback measure "1")))
             "http://arxiv.org/pdf/1" (1 # 5)%Q); [done | done | reflexivity | reflexivity].
  - apply (proj1 (choose_best_url_minimum_and_fallback (fun _ => Elapsed (1 # 5)) "1")
             "http://arxiv.org/pdf/1" ltac:(done) ltac:(done) (1 # 5)%Q).
    by left.
Defined.

(* ===================================================================== *)
(** * Properties: fetch worker *)
(* ===================================================================== *)

Lemma resolve_download_url_truthy (env : Env) (download_source_preference entry_id : string)
    (primary_pdf_url : option string) :
  truthy (resolve_download_url env download_source_preference entry_id primary_pdf_url).1 = true.
Proof.
  unfold resolve_download_url.
  pose proof (export_mirror_url_truthy entry_id) as Hm.
  repeat case_bool_decide; cbn [fst];
    try (destruct (truthy primary_pdf_url) eqn:Ht; assumption).
  apply choose_best_truthy.
Qed.

(** The worker on a record with an entry id and no index hit nor file at
    the target: it resolves a URL and runs the transfer. *)
Lemma download_single_pdf_transfer (env : Env) (paper_details : paper)
    (sub_dir_path download_source_preference entry_id : string)
    (single_file_timeout : Z) (w : World) :
  paper_details !! "entry_id" = Some entry_id -> entry_id ≠ "" ->
  GLOBAL_EXISTING_PDFS w !! sanitize_filename entry_id = None ->
  match files w !! target_path sub_dir_path entry_id with
  | Some size => (0 <? size)%N
  | None => false
  end = false ->
  let r := download_single_pdf env paper_details sub_dir_path
             download_source_preference single_file_timeout w in
  exists url probed exit left_at_path,
    url ≠ ""
    /\ resolve_download_url env download_source_preference entry_id (paper_details !! "pdf_url")
       = (Some url, probed)
    /\ wget env url (target_path sub_dir_path entry_id) single_file_timeout
            (files w !! target_path sub_dir_path entry_id) = (exit, left_at_path)
    /\ network r.2
       = Wget url (target_path sub_dir_path entry_id) :: rev (map Probe probed) ++ network w
    /\ GLOBAL_EXISTING_PDFS r.2
       = match exit with
         | Completed =>
             <[sanitize_filename entry_id := target_path sub_dir_path entry_id]>
               (GLOBAL_EXISTING_PDFS w)
         | _ => GLOBAL_EXISTING_PDFS w
         end
    /\ r.1.1.2 = match exit with Completed => DOWNLOADED | _ => FAILED end.
Proof.
  intros Heid Hne Hidx Hfile r. subst r. unfold download_single_pdf, target_path in *.
  rewrite Heid, (truthy_true _ Hne). cbn [negb from_option id].
  rewrite Hidx, Hfile.
  pose proof (resolve_download_url_truthy env download_source_preference entry_id
                (paper_details !! "pdf_url")) as Hres.
  destruct (resolve_download_url env download_source_preference entry_id
              (paper_details !! "pdf_url")) as [download_url_to_use probed].
  cbn [fst] in Hres. rewrite Hres. cbn [negb].
  apply truthy_Some in Hres as (url & -> & Hurl). cbn [from_option id].
  destruct (wget env url _ single_file_timeout _) as [exit left_at_path] eqn:Hw.
  exists url, probed, exit, left_at_path.
  split; [exact Hurl |]. split; [reflexivity |]. split; [exact Hw |].
  clear Hw. destruct exit; cbn [fst snd network GLOBAL_EXISTING_PDFS];
    repeat split; reflexivity.
Qed.

(** C8. With a non-empty entry id the URL resolution always yields a
    non-empty URL, whatever the source preference; a preference outside
    primary, export and fastest resolves as primary does, to the primary
    URL or else the mirror; and a worker that returns FAILED for such a
    record has issued the transfer with that URL, so its no-URL branch is
    never taken. *)
Theorem download_url_always_resolves
    (env : Env) (download_source_preference entry_id : string)
    (primary_pdf_url : option string) :
  entry_id ≠ "" ->
  truthy (resolve_download_url env download_source_preference entry_id primary_pdf_url).1 = true
  /\ (download_source_preference ≠ "primary" -> download_source_preference ≠ "export" ->
      download_source_preference ≠ "fastest" ->
      resolve_download_url env download_source_preference entry_id primary_pdf_url
      = resolve_download_url env "primary" entry_id primary_pdf_url
      /\ (resolve_download_url env download_source_preference entry_id primary_pdf_url).1
         = if truthy primary_pdf_url then primary_pdf_url
           else Some (export_mirror_url entry_id))
  /\ (forall paper_details sub_dir_path single_file_timeout w,
      paper_details !! "entry_id" = Some entry_id ->
      paper_details !! "pdf_url" = primary_pdf_url ->
      let r := download_single_pdf env paper_details sub_dir_path
                 download_source_preference single_file_timeout w in
      r.1.1.2 = FAILED ->
      exists url rest,
        url ≠ ""
        /\ (resolve_download_url env download_source_preference entry_id primary_pdf_url).1
           = Some url
        /\ network r.2 = Wget url (target_path sub_dir_path entry_id) :: rest).
Proof.
  intros Hid. split; [apply resolve_download_url_truthy |]. split.
  - intros H1 H2 H3. unfold resolve_download_url.
    rewrite (bool_decide_eq_false_2 _ H1), (bool_decide_eq_false_2 _ H2),
      (bool_decide_eq_false_2 _ H3).
    rewrite (bool_decide_eq_true_2 ("primary" = "primary")) by reflexivity.
    split; reflexivity.
  - intros paper_details sub_dir_path single_file_timeout w Heid Hurl r Hfailed.
    destruct (GLOBAL_EXISTING_PDFS w !! sanitize_filename entry_id) as [global_path|] eqn:Hidx.
    { exfalso. revert Hfailed. subst r. unfold download_single_pdf.
      rewrite Heid, (truthy_true _ Hid). cbn [negb from_option id]. rewrite Hidx.
      case_bool_decide; discriminate. }
    destruct (match files w !! target_path sub_dir_path entry_id with
              | Some size => (0 <? size)%N
              | None => false
              end) eqn:Hfile.
    { exfalso. revert Hfailed. subst r. unfold download_single_pdf, target_path in *.
      rewrite Heid, (truthy_true _ Hid). cbn [negb from_option id]. rewrite Hidx, Hfile.
      discriminate. }
    destruct (download_single_pdf_transfer env paper_details sub_dir_path
                download_source_preference entry_id single_file_timeout w Heid Hid Hidx Hfile)
      as (url & probed & exit & left_at_path & Hne & Hres & _ & Hnet & _).
    fold r in Hnet.
    exists url. eexists. split; [exact Hne |]. rewrite <- Hurl, Hres.
    split; [reflexivity | exact Hnet].
Qed.

Lemma download_url_always_resolves_witness :
  let env := mkEnv id (fun _ => Infinite) (fun _ _ _ _ => (Completed, Some 10%N)) (fun _ => false) in
  truthy (resolve_download_url env "anything" "2401.00001" None).1 = true.
Proof.
  intros env.
  apply (download_url_always_resolves env "anything" "2401.00001" None).
  discriminate.
Defined.

(** C1. For a record with a non-empty entry id the worker checks, before
    any transfer: (a) an index entry for the safe id whose path differs
    (once resolved) from the target gives EXISTED_GLOBAL; (b) an index
    entry whose path is the target gives EXISTED_SUBDIR; (c) with no index
    entry, a file of non-zero size at the target gives EXISTED_SUBDIR and
    the index gains the entry safe id to target.  In (a) and (b) the world
    is unchanged, in (c) only the index changes: no network call is made
    and no file is created. *)
Theorem dedup_checks_before_transfer
    (env : Env) (paper_details : paper)
    (sub_dir_path download_source_preference entry_id : string)
    (single_file_timeout : Z) (w : World) :
  paper_details !! "entry_id" = Some entry_id -> entry_id ≠ "" ->
  let safe_entry_id := sanitize_filename entry_id in
  let target := target_path sub_dir_path entry_id in
  let r := download_single_pdf env paper_details sub_dir_path
             download_source_preference single_file_timeout w in
  (forall global_path,
      GLOBAL_EXISTING_PDFS w !! safe_entry_id = Some global_path ->
      resolve env global_path ≠ resolve env target ->
      r = ((Some entry_id, EXISTED_GLOBAL, global_path), w))
  /\ (forall global_path,
      GLOBAL_EXISTING_PDFS w !! safe_entry_id = Some global_path ->
      resolve env global_path = resolve env target ->
      r = ((Some entry_id, EXISTED_SUBDIR, target), w))
  /\ (forall size,
      GLOBAL_EXISTING_PDFS w !! safe_entry_id = None ->
      files w !! target = Some size -> (0 < size)%N ->
      r = ((Some entry_id, EXISTED_SUBDIR, target),
           mkWorld (<[safe_entry_id := target]> (GLOBAL_EXISTING_PDFS w))
                   (files w) (network w))).
Proof.
  intros Heid Hne safe_entry_id target r.
  subst safe_entry_id target r. unfold download_single_pdf, target_path.
  rewrite Heid, (truthy_true _ Hne). cbn [negb from_option id].
  split; [| split].
  - intros global_path Hidx Hdiff. rewrite Hidx.
    by rewrite bool_decide_eq_false_2.
  - intros global_path Hidx Hsame. rewrite Hidx.
    by rewrite bool_decide_eq_true_2.
  - intros size Hidx Hfile Hsize. rewrite Hidx, Hfile.
    apply N.ltb_lt in Hsize. by rewrite Hsize.
Qed.

Lemma dedup_checks_before_transfer_witness :
  let env := mkEnv id (fun _ => Infinite) (fun _ _ _ _ => (Completed, Some 10%N)) (fun _ => false) in
  let p : paper := {[ "entry_id" := "2401.00001v1" ]} in
  let w := mkWorld ∅ {[ "out/kw_x/2401.00001v1.pdf" := 500%N ]} [] in
  download_single_pdf env p "out/kw_x" "export" 300 w
  = ((Some "2401.00001v1", EXISTED_SUBDIR, "out/kw_x/2401.00001v1.pdf"),
     mkWorld {[ "2401.00001v1" := "out/kw_x/2401.00001v1.pdf" ]}
             {[ "out/kw_x/2401.00001v1.pdf" := 500%N ]} []).
Proof.
  intros env p w.
  apply (proj2 (proj2 (dedup_checks_before_transfer env p "out/kw_x" "export"
                         "2401.00001v1" 300 w eq_refl ltac:(discriminate))) 500%N);
    [reflexivity | reflexivity | reflexivity].
Defined.

(** How one worker call changes the index: not at all, or by binding the
    safe id of its record to the target path, and that only after a
    completed transfer or a hit of the file check at the target. *)
Lemma download_single_pdf_index (env : Env) (paper_details : paper)
    (sub_dir_path download_source_preference : string)
    (single_file_timeout : Z) (w : World) :
  let entry_id := default "" (paper_details !! "entry_id") in
  let r := download_single_pdf env paper_details sub_dir_path
             download_source_preference single_file_timeout w in
  GLOBAL_EXISTING_PDFS r.2 = GLOBAL_EXISTING_PDFS w
  \/ (GLOBAL_EXISTING_PDFS r.2
      = <[sanitize_filename entry_id := target_path sub_dir_path entry_id]>
          (GLOBAL_EXISTING_PDFS w)
      /\ (r.1.1.2 = DOWNLOADED
          \/ (r.1.1.2 = EXISTED_SUBDIR
              /\ GLOBAL_EXISTING_PDFS w !! sanitize_filename entry_id = None
              /\ exists size, files w !! target_path sub_dir_path entry_id = Some size
                              /\ (0 < size)%N))).
Proof.
  intros entry_id r. subst r.
  destruct (truthy (paper_details !! "entry_id")) eqn:Ht.
  2:{ left. unfold download_single_pdf. rewrite Ht. reflexivity. }
  apply truthy_Some in Ht as (eid & Heid & Hne).
  subst entry_id. rewrite Heid. cbn [from_option id].
  destruct (GLOBAL_EXISTING_PDFS w !! sanitize_filename eid) as [global_path|] eqn:Hidx.
  { left. unfold download_single_pdf.
    rewrite Heid, (truthy_true _ Hne). cbn [negb from_option id]. rewrite Hidx.
    case_bool_decide; reflexivity. }
  destruct (files w !! target_path sub_dir_path eid) as [size|] eqn:Hfile.
  - destruct (0 <? size)%N eqn:Hsize.
    + right. unfold download_single_pdf, target_path in *.
      rewrite Heid, (truthy_true _ Hne). cbn [negb from_option id].
      rewrite Hidx, Hfile, Hsize. cbn [fst snd GLOBAL_EXISTING_PDFS].
      split; [reflexivity |]. right. split; [reflexivity |]. split; [reflexivity |].
      exists size. split; [reflexivity | by apply N.ltb_lt].
    + destruct (download_single_pdf_transfer env paper_details sub_dir_path
                  download_source_preference eid single_file_timeout w Heid Hne Hidx)
        as (url & probed & exit & left_at_path & _ & _ & _ & _ & Hi & Hs).
      { by rewrite Hfile. }
      rewrite Hi, Hs. destruct exit; auto.
  - destruct (download_single_pdf_transfer env paper_details sub_dir_path
                download_source_preference eid single_file_timeout w Heid Hne Hidx)
      as (url & probed & exit & left_at_path & _ & _ & _ & _ & Hi & Hs).
    { by rewrite Hfile. }
    rewrite Hi, Hs. destruct exit; auto.
Qed.

(** C10. A worker call never removes an index entry, leaves every entry
    other than the one of its own safe id as it was, changes its own entry
    only to the target path and only on a completed transfer or on a hit of
    the file check at the target, and the index keeps at most one path per
    safe id. *)
Theorem worker_preserves_index_invariants
    (env : Env) (paper_details : paper)
    (sub_dir_path download_source_preference : string)
    (single_file_timeout : Z) (w : World) :
  let entry_id := default "" (paper_details !! "entry_id") in
  let safe_entry_id := sanitize_filename entry_id in
  let r := download_single_pdf env paper_details sub_dir_path
             download_source_preference single_file_timeout w in
  (forall k, is_Some (GLOBAL_EXISTING_PDFS w !! k) -> is_Some (GLOBAL_EXISTING_PDFS r.2 !! k))
  /\ (forall k, k ≠ safe_entry_id ->
        GLOBAL_EXISTING_PDFS r.2 !! k = GLOBAL_EXISTING_PDFS w !! k)
  /\ (GLOBAL_EXISTING_PDFS r.2 !! safe_entry_id = GLOBAL_EXISTING_PDFS w !! safe_entry_id
      \/ (GLOBAL_EXISTING_PDFS r.2 !! safe_entry_id = Some (target_path sub_dir_path entry_id)
          /\ (r.1.1.2 = DOWNLOADED
              \/ (r.1.1.2 = EXISTED_SUBDIR
                  /\ GLOBAL_EXISTING_PDFS w !! safe_entry_id = None
                  /\ exists size, files w !! target_path sub_dir_path entry_id = Some size
                                  /\ (0 < size)%N))))
  /\ (forall k path1 path2,
        GLOBAL_EXISTING_PDFS r.2 !! k = Some path1 ->
        GLOBAL_EXISTING_PDFS r.2 !! k = Some path2 -> path1 = path2).
Proof.
  intros entry_id safe_entry_id r.
  pose proof (download_single_pdf_index env paper_details sub_dir_path
                download_source_preference single_file_timeout w) as Hindex.
  cbn zeta in Hindex. fold entry_id safe_entry_id r in Hindex.
  split; [| split; [| split]].
  - intros k Hk. destruct Hindex as [-> | [-> _]]; [exact Hk |].
    destruct (decide (safe_entry_id = k)) as [-> | Hother].
    + rewrite lookup_insert_eq. by eexists.
    + by rewrite lookup_insert_ne.
  - intros k Hk. destruct Hindex as [-> | [-> _]]; [reflexivity |].
    by rewrite lookup_insert_ne.
  - destruct Hindex as [-> | [-> Hwhen]]; [by left |].
    right. split; [apply lookup_insert_eq | exact Hwhen].
  - intros k path1 path2 H1 H2. congruence.
Qed.

(* ===================================================================== *)
(** * Properties: batch orchestrator *)
(* ===================================================================== *)

Section batch_facts.
Variable json_file_path : string.
Variable paper_map : gmap string paper.

(** Every future adds one to exactly one of the four counts. *)
Lemma collect_counts (acc : subdir_metadata * list paper) (f : future) :
  outcome_count_sum (collect json_file_path paper_map acc f).1 = S (outcome_count_sum acc.1)
  /\ total_planned (collect json_file_path paper_map acc f).1 = total_planned acc.1.
Proof.
  destruct acc as [m failed], f as [eid [[[pid status] detail] | exc]];
    unfold collect; cbn [fst snd].
  - destruct status; try destruct (found_record (paper_map !! eid));
      unfold outcome_count_sum; cbn; lia.
  - destruct (found_record (paper_map !! eid)); unfold outcome_count_sum; cbn; lia.
Qed.

Lemma foldl_collect_counts (fs : list future) (acc : subdir_metadata * list paper) :
  outcome_count_sum (foldl (collect json_file_path paper_map) acc fs).1
  = outcome_count_sum acc.1 + length fs
  /\ total_planned (foldl (collect json_file_path paper_map) acc fs).1 = total_planned acc.1.
Proof.
  revert acc. induction fs as [|f fs IH]; intros acc; cbn [foldl length].
  - split; [lia | reflexivity].
  - destruct (IH (collect json_file_path paper_map acc f)) as [-> ->].
    destruct (collect_counts acc f) as [-> ->]. split; [lia | reflexivity].
Qed.

(** Every failure record the loop adds is an augmented copy of a record
    of [paper_map]. *)
Lemma collect_failures (acc : subdir_metadata * list paper) (f : future) (r : paper) :
  r ∈ (collect json_file_path paper_map acc f).2 ->
  r ∈ acc.2
  \/ exists original reason,
       paper_map !! f.1 = Some original /\ r = failure_record original reason json_file_path.
Proof.
  destruct acc as [m failed], f as [eid [[[pid status] detail] | exc]];
    unfold collect; cbn [fst snd].
  - destruct status; try (by left).
    destruct (paper_map !! eid) as [original|] eqn:Hmap; cbn [found_record]; [| by left].
    case_bool_decide; [by left |]. cbn [snd].
    intros [Hin | ->%list_elem_of_singleton]%elem_of_app; [by left |].
    right. by eexists _, _.
  - destruct (paper_map !! eid) as [original|] eqn:Hmap; cbn [found_record]; [| by left].
    case_bool_decide; [by left |]. cbn [snd].
    intros [Hin | ->%list_elem_of_singleton]%elem_of_app; [by left |].
    right. by eexists _, _.
Qed.

Lemma foldl_collect_failures (fs : list future) (acc : subdir_metadata * list paper)
    (r : paper) :
  r ∈ (foldl (collect json_file_path paper_map) acc fs).2 ->
  r ∈ acc.2
  \/ exists original reason k,
       paper_map !! k = Some original /\ r = failure_record original reason json_file_path.
Proof.
  revert acc. induction fs as [|f fs IH]; intros acc; cbn [foldl]; [by left |].
  intros [Hin | Hnew]%IH; [| by right].
  apply collect_failures in Hin as [Hin | (original & reason & Hmap & ->)]; [by left |].
  right. by eexists _, _, _.
Qed.
End batch_facts.

Lemma build_paper_map_lookup (ps : list paper) (k : string) (p : paper) :
  build_paper_map ps !! k = Some p ->
  p ∈ ps /\ entry_id_of p = Some k /\ k ≠ "".
Proof.
  unfold build_paper_map.
  assert (Hgen : forall m : gmap string paper,
             foldl (fun m p => if has_entry_id p then <[default "" (entry_id_of p) := p]> m else m)
                   m ps !! k = Some p ->
             m !! k = Some p \/ (p ∈ ps /\ entry_id_of p = Some k /\ k ≠ "")).
  { induction ps as [|q ps IH]; intros m; cbn [foldl]; [by left |].
    intros [Hm | (Hin & Hid & Hk)]%IH.
    - destruct (has_entry_id q) eqn:Hq; [| by left].
      apply truthy_Some in Hq as (eid & Heid & Hne). rewrite Heid in Hm.
      cbn [from_option id] in Hm.
      destruct (decide (eid = k)) as [-> | Hother].
      + rewrite lookup_insert_eq in Hm. injection Hm as ->.
        right. split; [by left | by split].
      + rewrite lookup_insert_ne in Hm by done. by left.
    - right. split; [by right | by split]. }
  intros [Hempty | H]%Hgen; [by rewrite lookup_empty in Hempty | exact H].
Qed.

Lemma length_submit_all (env : BatchEnv) (pdf_output_subdir : string) (ps : list paper) :
  length (submit_all env pdf_output_subdir ps)
  = length (filter (fun p => has_entry_id p = true) ps).
Proof. unfold submit_all. apply length_imap. Qed.

Lemma filter_has_entry_id_split (ps : list paper) :
  length (filter (fun p => has_entry_id p = true) ps)
  + length (filter (fun p => has_entry_id p = false) ps) = length ps.
Proof.
  induction ps as [|p ps IH]; [reflexivity |].
  rewrite !filter_cons. destruct (has_entry_id p) eqn:Hp.
  - rewrite decide_True, decide_False by done. cbn [length]. lia.
  - rewrite decide_False, decide_True by done. cbn [length]. lia.
Qed.

(** The orchestrator past the creation of the subdirectory. *)
Lemma download_pdfs_from_json_run (env : BatchEnv) (json_file_path base_output_dir : string)
    (data : batch_doc) :
  load_json env json_file_path = Loaded data ->
  papers data ≠ [] ->
  let pdf_output_subdir :=
    path_join base_output_dir
      (pdf_output_subdir_name (query_keyword data) (query_category data) json_file_path) in
  makedirs_fails env pdf_output_subdir = false ->
  let final :=
    foldl (collect json_file_path (build_paper_map (papers data)))
      (initial_metadata json_file_path pdf_output_subdir
         (query_keyword data) (query_category data) (papers data), [])
      (as_completed env (submit_all env pdf_output_subdir (papers data))) in
  download_pdfs_from_json env json_file_path base_output_dir
  = mkBatchResult final.2
      (if write_fails env (path_join pdf_output_subdir "_metadata.json") then None
       else Some (path_join pdf_output_subdir "_metadata.json", final.1)).
Proof.
  intros Hload Hpapers pdf_output_subdir Hmk final. subst final pdf_output_subdir.
  unfold download_pdfs_from_json. rewrite Hload.
  destruct (papers data) as [|p ps] eqn:Hps; [done |].
  rewrite Hmk.
  destruct (foldl _ _ _) as [metadata failed]. reflexivity.
Qed.

(** C9. In the metadata the orchestrator writes, the four outcome counts
    add up to the number of records of the batch that carry an entry id,
    [total_planned] is the number of all its records, so the two differ by
    the number of records without an entry id, and the counts add up to
    strictly less than [total_planned] as soon as there is such a record. *)
Theorem metadata_counts_cover_identified_records
    (env : BatchEnv) (json_file_path base_output_dir : string) (data : batch_doc) :
  (forall fs, as_completed env fs ≡ₚ fs) ->
  load_json env json_file_path = Loaded data ->
  papers data ≠ [] ->
  let pdf_output_subdir :=
    path_join base_output_dir
      (pdf_output_subdir_name (query_keyword data) (query_category data) json_file_path) in
  makedirs_fails env pdf_output_subdir = false ->
  write_fails env (path_join pdf_output_subdir "_metadata.json") = false ->
  exists metadata,
    metadata_file (download_pdfs_from_json env json_file_path base_output_dir)
    = Some (path_join pdf_output_subdir "_metadata.json", metadata)
    /\ outcome_count_sum metadata
       = length (filter (fun p => has_entry_id p = true) (papers data))
    /\ total_planned metadata = length (papers data)
    /\ outcome_count_sum metadata
       + length (filter (fun p => has_entry_id p = false) (papers data))
       = total_planned metadata
    /\ (Exists (fun p => has_entry_id p = false) (papers data) ->
        outcome_count_sum metadata < total_planned metadata).
Proof.
  intros Hperm Hload Hpapers pdf_output_subdir Hmk Hwrite.
  rewrite (download_pdfs_from_json_run env json_file_path base_output_dir data Hload Hpapers Hmk).
  fold pdf_output_subdir. rewrite Hwrite. cbn [metadata_file].
  eexists. split; [reflexivity |].
  match goal with |- context [foldl (collect _ ?m) ?a ?l] =>
    destruct (foldl_collect_counts json_file_path m l a) as [Hsum Htotal] end.
  rewrite Hsum, Htotal. cbn [fst].
  rewrite (Permutation_length (Hperm _)), length_submit_all.
  change (outcome_count_sum (initial_metadata _ _ _ _ _)) with 0.
  change (total_planned (initial_metadata ?a ?b ?c ?d ?ps)) with (length ps).
  pose proof (filter_has_entry_id_split (papers data)) as Hsplit.
  split; [lia |]. split; [lia |]. split; [lia |].
  intros Hex. apply Exists_exists in Hex as (p & Hin & Hp).
  assert (p ∈ filter (fun p => has_entry_id p = false) (papers data)) as Hmem.
  { apply list_elem_of_filter. by split. }
  destruct (filter (fun p => has_entry_id p = false) (papers data)); [by apply not_elem_of_nil in Hmem |].
  cbn [length] in Hsplit. lia.
Qed.

Lemma metadata_counts_witness :
  exists metadata,
    metadata_file (download_pdfs_from_json (sample_pool false) "q/result.json" "out")
    = Some (path_join
              (path_join "out"
                 (pdf_output_subdir_name (query_keyword sample_batch)
                    (query_category sample_batch) "q/result.json")) "_metadata.json",
            metadata)
    /\ outcome_count_sum metadata
       = length (filter (fun p => has_entry_id p = true) (papers sample_batch))
    /\ total_planned metadata = length (papers sample_batch)
    /\ outcome_count_sum metadata
       + length (filter (fun p => has_entry_id p = false) (papers sample_batch))
       = total_planned metadata
    /\ (Exists (fun p => has_entry_id p = false) (papers sample_batch) ->
        outcome_count_sum metadata < total_planned metadata).
Proof.
  apply (metadata_counts_cover_identified_records (sample_pool false)
           "q/result.json" "out" sample_batch).
  - intros fs. apply reverse_Permutation.
  - reflexivity.
  - discriminate.
  - reflexivity.
  - reflexivity.
Defined.

(** On the path past the creation of the subdirectory, every returned
    element is a failure record: a copy of a record of the batch that
    carries an entry id, with [_failure_reason] and [_original_input_json]
    set, the latter to the batch file. *)
Lemma download_pdfs_from_json_failure_records
    (env : BatchEnv) (json_file_path base_output_dir : string) (data : batch_doc) (r : paper) :
  load_json env json_file_path = Loaded data ->
  makedirs_fails env
    (path_join base_output_dir
       (pdf_output_subdir_name (query_keyword data) (query_category data) json_file_path))
  = false ->
  r ∈ returned (download_pdfs_from_json env json_file_path base_output_dir) ->
  exists original reason,
    original ∈ papers data /\ has_entry_id original = true
    /\ r = failure_record original reason json_file_path
    /\ r !! "_failure_reason" = Some reason
    /\ r !! "_original_input_json" = Some json_file_path.
Proof.
  intros Hload Hmk.
  destruct (papers data) as [|p0 ps0] eqn:Hps.
  { unfold download_pdfs_from_json. rewrite Hload, Hps. cbn [returned].
    intros Hin. by apply not_elem_of_nil in Hin. }
  rewrite (download_pdfs_from_json_run env json_file_path base_output_dir data Hload)
    by (rewrite Hps; discriminate) || exact Hmk.
  cbn [returned]. rewrite <- Hps.
  intros [Hin | (original & reason & k & Hmap & ->)]%foldl_collect_failures.
  { by apply not_elem_of_nil in Hin. }
  apply build_paper_map_lookup in Hmap as (Hin & Hid & Hk).
  exists original, reason. split; [exact Hin |]. split.
  { unfold has_entry_id. rewrite Hid. by apply truthy_true. }
  split; [reflexivity |]. unfold failure_record. split.
  - rewrite lookup_insert_ne by discriminate. apply lookup_insert_eq.
  - apply lookup_insert_eq.
Qed.

(** C4 (the code departs from the claim).  When [os.makedirs] fails the
    orchestrator returns [papers_to_download] itself: the elements are the
    records of the batch as read, the one without an entry id included, and
    none carries a failure reason or a reference to the batch file; on the
    same batch with the subdirectory created, every returned element
    carries both. *)
Theorem makedirs_failure_returns_raw_records :
  returned (download_pdfs_from_json (sample_pool true) "q/result.json" "out")
  = [paper_A; paper_B; paper_C]
  /\ Forall (fun r : paper => r !! "_failure_reason" = None
                              /\ r !! "_original_input_json" = None)
            (returned (download_pdfs_from_json (sample_pool true) "q/result.json" "out"))
  /\ Forall (fun r : paper => is_Some (r !! "_failure_reason")
                              /\ r !! "_original_input_json" = Some "q/result.json")
            (returned (download_pdfs_from_json (sample_pool false) "q/result.json" "out")).
Proof.
  split; [reflexivity |]. split.
  - repeat constructor.
  - apply Forall_forall. intros r Hr.
    apply (download_pdfs_from_json_failure_records (sample_pool false)
             "q/result.json" "out" sample_batch) in Hr
      as (original & reason & _ & _ & _ & Hreason & Hback);
      [| reflexivity | reflexivity].
    split; [by eexists | exact Hback].
Qed.

(* ===================================================================== *)
(** * Properties: the ordered dict of the ledger merge *)
(* ===================================================================== *)

Lemma has_entry_id_true (p : paper) :
  has_entry_id p = true <-> exists k, entry_id_of p = Some k /\ k ≠ "".
Proof.
  unfold has_entry_id. split.
  - apply truthy_Some.
  - intros (k & -> & Hk). by apply truthy_true.
Qed.

Lemma has_entry_id_false (p : paper) (k : string) :
  has_entry_id p = false -> k ≠ "" -> entry_id_of p ≠ Some k.
Proof.
  intros Hp Hk Hid. unfold has_entry_id in Hp. rewrite Hid, (truthy_true _ Hk) in Hp.
  discriminate.
Qed.

Lemma odict_mem_true (k : string) (d : odict) : odict_mem k d = true <-> k ∈ d.*1.
Proof. unfold odict_mem. apply bool_decide_eq_true. Qed.

Lemma odict_mem_false (k : string) (d : odict) : odict_mem k d = false <-> k ∉ d.*1.
Proof. unfold odict_mem. apply bool_decide_eq_false. Qed.

Lemma odict_set_fresh (k : string) (v : paper) (d : odict) :
  k ∉ d.*1 -> odict_set k v d = d ++ [(k, v)].
Proof.
  induction d as [|[k' v'] d IH]; cbn [odict_set fmap list_fmap app fst]; [done |].
  intros Hk. apply not_elem_of_cons in Hk as [Hne Hk].
  rewrite bool_decide_eq_false_2 by done. by rewrite IH.
Qed.

Lemma odict_set_keys (k : string) (v : paper) (d : odict) :
  k ∈ d.*1 -> (odict_set k v d).*1 = d.*1.
Proof.
  induction d as [|[k' v'] d IH]; cbn [odict_set fmap list_fmap fst].
  - intros H. by apply not_elem_of_nil in H.
  - intros Hk. case_bool_decide as Heq; cbn [fmap list_fmap fst]; [by subst |].
    apply elem_of_cons in Hk as [-> | Hk]; [done |].
    f_equal. by apply IH.
Qed.

Lemma odict_get_set_eq (k : string) (v : paper) (d : odict) :
  odict_get k (odict_set k v d) = Some v.
Proof.
  induction d as [|[k' v'] d IH]; cbn [odict_set odict_get].
  - by rewrite bool_decide_eq_true_2.
  - case_bool_decide as Heq; cbn [odict_get].
    + by rewrite bool_decide_eq_true_2.
    + by rewrite bool_decide_eq_false_2.
Qed.

Lemma odict_get_set_ne (k k' : string) (v : paper) (d : odict) :
  k ≠ k' -> odict_get k' (odict_set k v d) = odict_get k' d.
Proof.
  intros Hne. induction d as [|[k0 v0] d IH]; cbn [odict_set odict_get].
  - by rewrite bool_decide_eq_false_2.
  - case_bool_decide as Heq; cbn [odict_get].
    + subst k0. by rewrite !bool_decide_eq_false_2.
    + case_bool_decide; [done | exact IH].
Qed.

Lemma odict_get_Some_elem (k : string) (v : paper) (d : odict) :
  odict_get k d = Some v -> (k, v) ∈ d.
Proof.
  induction d as [|[k' v'] d IH]; cbn [odict_get]; [done |].
  case_bool_decide as Heq.
  - intros [= ->]. subst. by left.
  - intros H. right. by apply IH.
Qed.

Lemma odict_get_None (k : string) (d : odict) : odict_get k d = None <-> k ∉ d.*1.
Proof.
  induction d as [|[k' v'] d IH]; cbn [odict_get fmap list_fmap fst].
  - split; [intros _; apply not_elem_of_nil | done].
  - case_bool_decide as Heq.
    + subst. split; [done |]. intros H. exfalso. apply H. by left.
    + rewrite IH, not_elem_of_cons. split; [intros Hk; split; [congruence | exact Hk] | tauto].
Qed.

Lemma odict_get_is_Some (k : string) (d : odict) : is_Some (odict_get k d) <-> k ∈ d.*1.
Proof.
  rewrite <- not_eq_None_Some, odict_get_None.
  destruct (decide (k ∈ d.*1)); naive_solver.
Qed.

Lemma odict_set_ok (k : string) (v : paper) (d : odict) :
  entry_id_of v = Some k -> k ≠ "" -> odict_ok d -> odict_ok (odict_set k v d).
Proof.
  intros Hid Hk [Hnd Hall]. destruct (decide (k ∈ d.*1)) as [Hin | Hfresh].
  - split; [by rewrite odict_set_keys |].
    clear Hnd. induction d as [|[k' v'] d IH]; cbn [odict_set].
    + by apply not_elem_of_nil in Hin.
    + apply Forall_cons in Hall as [Hhd Htl]. case_bool_decide as Heq.
      * apply Forall_cons. by split.
      * apply Forall_cons. split; [done |].
        apply elem_of_cons in Hin as [Hin | Hin]; [cbn in Hin; congruence |].
        by apply IH.
  - rewrite odict_set_fresh by done. split.
    + rewrite fmap_app. apply NoDup_app. split; [done |]. split.
      * intros x Hx. cbn. intros ->%list_elem_of_singleton. done.
      * cbn. apply NoDup_singleton.
    + apply Forall_app. split; [done |]. by apply Forall_singleton.
Qed.

Lemma odict_add_id (d : odict) (p : paper) (k : string) :
  entry_id_of p = Some k -> k ≠ "" -> odict_add d p = odict_set k p d.
Proof.
  intros Hid Hk. unfold odict_add.
  rewrite (proj2 (has_entry_id_true p)) by eauto. by rewrite Hid.
Qed.

Lemma odict_add_no_id (d : odict) (p : paper) :
  has_entry_id p = false -> odict_add d p = d.
Proof. intros Hp. unfold odict_add. by rewrite Hp. Qed.

Lemma odict_add_ok (d : odict) (p : paper) : odict_ok d -> odict_ok (odict_add d p).
Proof.
  intros Hok. destruct (has_entry_id p) eqn:Hp.
  - apply has_entry_id_true in Hp as (k & Hid & Hk).
    rewrite (odict_add_id d p k) by done. by apply odict_set_ok.
  - by rewrite odict_add_no_id.
Qed.

Lemma foldl_odict_add_ok (ps : list paper) (d : odict) :
  odict_ok d -> odict_ok (foldl odict_add d ps).
Proof.
  revert d. induction ps as [|p ps IH]; intros d Hok; cbn [foldl]; [done |].
  by apply IH, odict_add_ok.
Qed.

Lemma odict_ok_nil : odict_ok [].
Proof. split; [apply NoDup_nil_2 | apply Forall_nil_2]. Qed.

Lemma odict_of_papers_ok (ps : list paper) : odict_ok (odict_of_papers ps).
Proof. apply foldl_odict_add_ok, odict_ok_nil. Qed.

Lemma foldl_odict_add_no_id (l : list paper) (d : odict) :
  Forall (fun p => has_entry_id p = false) l -> foldl odict_add d l = d.
Proof.
  revert d. induction l as [|p l IH]; intros d Hl; cbn [foldl]; [done |].
  apply Forall_cons in Hl as [Hp Hl]. rewrite odict_add_no_id by done. by apply IH.
Qed.

(** Reading back the values of a dict rebuilds the dict. *)
Lemma foldl_odict_add_values (d d0 : odict) :
  odict_ok (d0 ++ d) -> foldl odict_add d0 d.*2 = d0 ++ d.
Proof.
  revert d0. induction d as [|[k v] d IH]; intros d0 Hok; cbn [foldl fmap list_fmap snd].
  - by rewrite app_nil_r.
  - destruct Hok as [Hnd Hall].
    assert (Hkv : entry_id_of v = Some k /\ k ≠ "").
    { apply Forall_app in Hall as [_ Hall]. by apply Forall_cons in Hall as [Hkv _]. }
    destruct Hkv as [Hid Hk].
    rewrite (odict_add_id d0 v k) by done.
    rewrite odict_set_fresh.
    + rewrite (IH (d0 ++ [(k, v)])); rewrite <- app_assoc; [done |]. by split.
    + rewrite fmap_app in Hnd. apply NoDup_app in Hnd as (_ & Hdisj & _).
      intros Hin. apply (Hdisj k Hin). cbn. by left.
Qed.

Lemma odict_of_papers_values (d : odict) (extra : list paper) :
  odict_ok d -> Forall (fun p => has_entry_id p = false) extra ->
  odict_of_papers (d.*2 ++ extra) = d.
Proof.
  intros Hok Hextra. unfold odict_of_papers. rewrite foldl_app.
  rewrite (foldl_odict_add_values d []) by done.
  by apply foldl_odict_add_no_id.
Qed.

Lemma records_of_app (k : string) (l1 l2 : list paper) :
  records_of k (l1 ++ l2) = records_of k l1 ++ records_of k l2.
Proof. apply filter_app. Qed.

Lemma records_of_no_id (k : string) (l : list paper) :
  k ≠ "" -> Forall (fun p => has_entry_id p = false) l -> records_of k l = [].
Proof.
  intros Hk. induction l as [|p l IH]; intros Hl; [done |].
  apply Forall_cons in Hl as [Hp Hl]. unfold records_of. rewrite filter_cons.
  rewrite decide_False by (by apply has_entry_id_false). by apply IH.
Qed.

(** The dict keeps, for each identity, the last record of the list. *)
Lemma odict_get_foldl_add (k : string) (ps : list paper) (d : odict) :
  k ≠ "" ->
  odict_get k (foldl odict_add d ps)
  = match last (records_of k ps) with
    | Some v => Some v
    | None => odict_get k d
    end.
Proof.
  intros Hk. revert d. induction ps as [|p ps IH]; intros d; cbn [foldl]; [done |].
  rewrite IH. unfold records_of. rewrite filter_cons.
  destruct (decide (entry_id_of p = Some k)) as [Hid | Hother].
  - rewrite last_cons. fold (records_of k ps).
    destruct (last (records_of k ps)); [done |].
    rewrite (odict_add_id d p k) by done. apply odict_get_set_eq.
  - fold (records_of k ps). destruct (last (records_of k ps)); [done |].
    destruct (has_entry_id p) eqn:Hp.
    + apply has_entry_id_true in Hp as (k' & Hid & Hk').
      rewrite (odict_add_id d p k') by done.
      apply odict_get_set_ne. congruence.
    + by rewrite odict_add_no_id.
Qed.

Lemma odict_get_of_papers (k : string) (ps : list paper) :
  k ≠ "" -> odict_get k (odict_of_papers ps) = last (records_of k ps).
Proof.
  intros Hk. unfold odict_of_papers. rewrite odict_get_foldl_add by done.
  by destruct (last (records_of k ps)).
Qed.

(** The values of a well-formed dict hold one record per key. *)
Lemma records_of_values (k : string) (d : odict) :
  odict_ok d -> records_of k d.*2 = option_list (odict_get k d).
Proof.
  induction d as [|[k' v] d IH]; intros [Hnd Hall]; [done |].
  cbn [fmap list_fmap snd fst odict_get] in *.
  apply NoDup_cons in Hnd as [Hfresh Hnd]. apply Forall_cons in Hall as [[Hid Hk'] Hall].
  cbn [fst snd] in Hid, Hk'.
  unfold records_of. rewrite filter_cons. fold (records_of k d.*2).
  rewrite IH by (by split). case_bool_decide as Heq.
  - subst k'. rewrite decide_True by done.
    apply odict_get_None in Hfresh. by rewrite Hfresh.
  - rewrite decide_False by congruence. done.
Qed.

(* ===================================================================== *)
(** * Properties: ledger merge *)
(* ===================================================================== *)

Lemma merge_failure_new (m : odict) (c : nat) (e : list paper) (p : paper) (k : string) :
  entry_id_of p = Some k -> k ≠ "" -> k ∉ m.*1 ->
  merge_failure (m, c, e) p = (m ++ [(k, p)], S c, e).
Proof.
  intros Hid Hk Hfresh. unfold merge_failure.
  rewrite (proj2 (has_entry_id_true p)) by eauto. rewrite Hid. cbn [from_option id].
  rewrite (proj2 (odict_mem_false k m)) by done. by rewrite odict_set_fresh.
Qed.

Lemma merge_failure_present (m : odict) (c : nat) (e : list paper) (p : paper) (k : string) :
  entry_id_of p = Some k -> k ≠ "" -> k ∈ m.*1 ->
  merge_failure (m, c, e) p = (m, c, e).
Proof.
  intros Hid Hk Hin. unfold merge_failure.
  rewrite (proj2 (has_entry_id_true p)) by eauto. rewrite Hid. cbn [from_option id].
  by rewrite (proj2 (odict_mem_true k m)).
Qed.

Lemma merge_failure_no_id (m : odict) (c : nat) (e : list paper) (p : paper) :
  has_entry_id p = false -> merge_failure (m, c, e) p = (m, c, e ++ [p]).
Proof. intros Hp. unfold merge_failure. by rewrite Hp. Qed.

(** The three ways one step of the merge loop can go. *)
Lemma merge_failure_cases (m : odict) (c : nat) (e : list paper) (p : paper) :
  (exists k, entry_id_of p = Some k /\ k ≠ "" /\ (k ∉ m.*1)
             /\ merge_failure (m, c, e) p = (m ++ [(k, p)], S c, e))
  \/ (exists k, entry_id_of p = Some k /\ k ≠ "" /\ k ∈ m.*1
                /\ merge_failure (m, c, e) p = (m, c, e))
  \/ (has_entry_id p = false /\ merge_failure (m, c, e) p = (m, c, e ++ [p])).
Proof.
  destruct (has_entry_id p) eqn:Hp.
  - apply has_entry_id_true in Hp as (k & Hid & Hk).
    destruct (decide (k ∈ m.*1)) as [Hin | Hfresh].
    + right; left. exists k. by rewrite (merge_failure_present m c e p k).
    + left. exists k. by rewrite (merge_failure_new m c e p k).
  - right; right. by rewrite merge_failure_no_id.
Qed.

(** What the merge loop leaves: the dict grew at its end by the new
    identities, the count grew by their number, and the records without an
    entry id went to the list in order. *)
Lemma foldl_merge_failure (new : list paper) (m : odict) (c : nat) (e : list paper) :
  odict_ok m ->
  exists added,
    foldl merge_failure (m, c, e) new
    = (m ++ added, c + length added, e ++ filter (fun p => has_entry_id p = false) new)
    /\ odict_ok (m ++ added)
    /\ (forall k p, (k, p) ∈ added -> p ∈ new)
    /\ (forall p k, p ∈ new -> entry_id_of p = Some k -> k ≠ "" -> k ∈ (m ++ added).*1).
Proof.
  revert m c e. induction new as [|p new IH]; intros m c e Hok; cbn [foldl].
  - exists []. rewrite !app_nil_r, Nat.add_0_r. split; [done |]. split; [done |].
    split; intros; exfalso; eapply not_elem_of_nil; eauto.
  - destruct (merge_failure_cases m c e p)
      as [(k & Hid & Hk & Hfresh & ->) | [(k & Hid & Hk & Hin & ->) | [Hp ->]]].
    + assert (Hok' : odict_ok (m ++ [(k, p)])).
      { rewrite <- odict_set_fresh by done. by apply odict_set_ok. }
      destruct (IH (m ++ [(k, p)]) (S c) e Hok') as (added & -> & Hok2 & Hsub & Hkeys).
      exists ((k, p) :: added). rewrite filter_cons, decide_False.
      2:{ rewrite (proj2 (has_entry_id_true p)) by eauto. discriminate. }
      rewrite <- !app_assoc in *. cbn [app length] in *.
      split; [f_equal; f_equal; lia |]. split; [done |]. split.
      * intros k' p' [[= -> ->] | Hin]%elem_of_cons; [by left | right; eauto].
      * intros p' k' [Heq | Hin]%elem_of_cons Hid' Hk'; [| eauto].
        subst p'. assert (k' = k) as -> by congruence.
        rewrite fmap_app. apply elem_of_app. right. cbn. by left.
    + destruct (IH m c e Hok) as (added & -> & Hok2 & Hsub & Hkeys).
      exists added. rewrite filter_cons, decide_False.
      2:{ rewrite (proj2 (has_entry_id_true p)) by eauto. discriminate. }
      split; [done |]. split; [done |]. split.
      * intros k' p' Hin'. right. eauto.
      * intros p' k' [Heq | Hin']%elem_of_cons Hid' Hk'; [| eauto].
        subst p'. assert (k' = k) as -> by congruence.
        rewrite fmap_app. apply elem_of_app. by left.
    + destruct (IH m c (e ++ [p]) Hok) as (added & -> & Hok2 & Hsub & Hkeys).
      exists added. rewrite filter_cons, decide_True by done.
      rewrite <- app_assoc. cbn [app].
      split; [done |]. split; [done |]. split.
      * intros k' p' Hin'. right. eauto.
      * intros p' k' [Heq | Hin']%elem_of_cons Hid' Hk'; [| eauto].
        subst p'. exfalso. by apply (has_entry_id_false p k' Hp).
Qed.

(** With every identity already in the dict, the loop adds nothing. *)
Lemma foldl_merge_failure_known (new : list paper) (m : odict) (c : nat) (e : list paper) :
  (forall p k, p ∈ new -> entry_id_of p = Some k -> k ≠ "" -> k ∈ m.*1) ->
  foldl merge_failure (m, c, e) new
  = (m, c, e ++ filter (fun p => has_entry_id p = false) new).
Proof.
  revert e. induction new as [|p new IH]; intros e Hknown; cbn [foldl].
  - by rewrite app_nil_r.
  - destruct (merge_failure_cases m c e p)
      as [(k & Hid & Hk & Hfresh & _) | [(k & Hid & Hk & Hin & ->) | [Hp ->]]].
    + exfalso. apply Hfresh. apply (Hknown p k); [by left | done | done].
    + rewrite IH by (intros; eapply Hknown; [by right | done | done]).
      rewrite filter_cons, decide_False; [done |].
      rewrite (proj2 (has_entry_id_true p)) by eauto. discriminate.
    + rewrite IH by (intros; eapply Hknown; [by right | done | done]).
      rewrite filter_cons, decide_True by done. by rewrite <- app_assoc.
Qed.

(** The second loop only appends records without an entry id. *)
Lemma foldl_readd_without_id (l u : list paper) :
  exists extra,
    foldl readd_without_id u l = u ++ extra
    /\ Forall (fun p => has_entry_id p = false) extra
    /\ (forall p, p ∈ extra -> p ∈ l).
Proof.
  revert u. induction l as [|p l IH]; intros u; cbn [foldl].
  - exists []. rewrite app_nil_r. split; [done |]. split; [done |].
    intros p Hp. by apply not_elem_of_nil in Hp.
  - unfold readd_without_id at 2. destruct (has_entry_id p) eqn:Hp.
    + destruct (IH u) as (extra & -> & Hextra & Hsub). exists extra.
      split; [done |]. split; [done |]. intros; right; eauto.
    + destruct (existsb (same_title_no_id p) u).
      * destruct (IH u) as (extra & -> & Hextra & Hsub). exists extra.
        split; [done |]. split; [done |]. intros; right; eauto.
      * destruct (IH (u ++ [p])) as (extra & -> & Hextra & Hsub). exists (p :: extra).
        rewrite <- app_assoc. split; [done |]. split; [by apply Forall_cons |].
        intros q [-> | Hq]%elem_of_cons; [by left | right; eauto].
Qed.


Lemma odict_get_app (k : string) (d1 d2 : odict) :
  odict_get k (d1 ++ d2)
  = match odict_get k d1 with Some v => Some v | None => odict_get k d2 end.
Proof.
  induction d1 as [|[k' v] d1 IH]; cbn [app odict_get]; [done |].
  by case_bool_decide.
Qed.

(** The merged list and the count, in closed form. *)
Lemma merged_shape (f : ledger_file) (new : list paper) :
  exists added extra,
    updated_papers_list f new = (odict_of_papers (papers_of f) ++ added).*2 ++ extra
    /\ newly_added_count f new = length added
    /\ odict_ok (odict_of_papers (papers_of f) ++ added)
    /\ Forall (fun p => has_entry_id p = false) extra
    /\ (forall k p, (k, p) ∈ added -> p ∈ new)
    /\ (forall p k, p ∈ new -> entry_id_of p = Some k -> k ≠ "" ->
          k ∈ (odict_of_papers (papers_of f) ++ added).*1)
    /\ (forall p, p ∈ extra -> p ∈ papers_of f ++ filter (fun p => has_entry_id p = false) new)
    /\ foldl readd_without_id (odict_of_papers (papers_of f) ++ added).*2
         (papers_of f ++ filter (fun p => has_entry_id p = false) new)
       = updated_papers_list f new.
Proof.
  unfold updated_papers_list, newly_added_count, merged.
  destruct (foldl_merge_failure new (odict_of_papers (papers_of f)) 0 (papers_of f)
              (odict_of_papers_ok _)) as (added & -> & Hok & Hsub & Hkeys).
  cbn [fst snd]. unfold odict_values.
  destruct (foldl_readd_without_id
              (papers_of f ++ filter (fun p => has_entry_id p = false) new)
              (odict_of_papers (papers_of f) ++ added).*2) as (extra & Hreadd & Hextra & Hfrom).
  exists added, extra. rewrite Hreadd.
  split; [done |]. split; [done |]. split; [exact Hok |]. split; [done |].
  split; [done |]. split; [done |]. split; done.
Qed.

(** After a write, merging the same failures again finds nothing new. *)
Lemma newly_added_count_after_write (now : string) (f : ledger_file) (new : list paper) :
  newly_added_count
    (Document (mkLedgerDoc last_updated_timestamp now (updated_papers_list f new))) new = 0.
Proof.
  destruct (merged_shape f new)
    as (added & extra & Hupd & _ & Hok & Hextra & _ & Hkeys & _ & _).
  unfold newly_added_count, merged. cbn [papers_of ledger_papers].
  rewrite Hupd, odict_of_papers_values by done.
  by rewrite foldl_merge_failure_known.
Qed.

Lemma append_to_failed_log_nonempty (now : string) (io_fails : bool) (f : ledger_file)
    (new : list paper) :
  new ≠ [] ->
  append_to_failed_log now io_fails f new
  = if (0 <? newly_added_count f new)%nat || negb (file_exists f)
    then (if io_fails then f
          else Document (mkLedgerDoc last_updated_timestamp now (updated_papers_list f new)))
    else f.
Proof. destruct new; done. Qed.

Lemma append_to_failed_log_idempotent (now1 now2 : string) (f : ledger_file)
    (new : list paper) :
  append_to_failed_log now2 false (append_to_failed_log now1 false f new) new
  = append_to_failed_log now1 false f new.
Proof.
  destruct (decide (new = [])) as [-> | Hnew]; [done |].
  rewrite (append_to_failed_log_nonempty now1) by done.
  destruct ((0 <? newly_added_count f new)%nat || negb (file_exists f)) eqn:Hcond.
  - rewrite (append_to_failed_log_nonempty now2) by done.
    by rewrite newly_added_count_after_write.
  - rewrite (append_to_failed_log_nonempty now2) by done. by rewrite Hcond.
Qed.

(** A present identity keeps its record and gains no second one. *)
Lemma append_to_failed_log_keeps_present (now : string) (io_fails : bool)
    (f : ledger_file) (new : list paper) (k : string) :
  k ≠ "" -> records_of k (papers_of f) ≠ [] ->
  last (records_of k (papers_of (append_to_failed_log now io_fails f new)))
  = last (records_of k (papers_of f))
  /\ length (records_of k (papers_of (append_to_failed_log now io_fails f new)))
     <= length (records_of k (papers_of f)).
Proof.
  intros Hk Hpresent.
  destruct (decide (new = [])) as [-> | Hnew]; [done |].
  rewrite append_to_failed_log_nonempty by done.
  destruct ((0 <? newly_added_count f new)%nat || negb (file_exists f)); [| done].
  destruct io_fails; [done |]. cbn [papers_of ledger_papers].
  destruct (merged_shape f new)
    as (added & extra & -> & _ & Hok & Hextra & _ & _ & _ & _).
  rewrite records_of_app, (records_of_no_id k extra), app_nil_r by done.
  rewrite records_of_values, odict_get_app, odict_get_of_papers by done.
  destruct (last (records_of k (papers_of f))) as [v|] eqn:Hlast.
  - cbn. split; [done |]. destruct (records_of k (papers_of f)); [done | cbn; lia].
  - apply last_None in Hlast. done.
Qed.

(** Two runs on a fresh ledger. *)
Ltac key_fresh :=
  cbn [fmap list_fmap fst];
  repeat (apply not_elem_of_cons; split; [congruence |]); apply not_elem_of_nil.

Ltac key_present :=
  cbn [fmap list_fmap fst]; repeat first [apply list_elem_of_here | apply list_elem_of_further].

Lemma append_to_failed_log_two_runs (now1 now2 : string) (f : ledger_file)
    (X Y Z : string) (rX rY rY' rZ : paper) :
  papers_of f = [] ->
  X ≠ "" -> Y ≠ "" -> Z ≠ "" -> X ≠ Y -> Y ≠ Z -> X ≠ Z ->
  entry_id_of rX = Some X -> entry_id_of rY = Some Y ->
  entry_id_of rY' = Some Y -> entry_id_of rZ = Some Z ->
  append_to_failed_log now2 false (append_to_failed_log now1 false f [rX; rY]) [rY'; rZ]
  = Document (mkLedgerDoc last_updated_timestamp now2 [rX; rY; rZ]).
Proof.
  intros Hf HX HY HZ HXY HYZ HXZ HrX HrY HrY' HrZ.
  assert (H1 : merged f [rX; rY] = ([rX; rY], 2)).
  { unfold merged. rewrite Hf. cbn [odict_of_papers foldl].
    rewrite (merge_failure_new [] 0 [] rX X) by (done || key_fresh).
    cbn [app]. rewrite (merge_failure_new [(X, rX)] 1 [] rY Y) by (done || key_fresh).
    reflexivity. }
  assert (Hfirst : append_to_failed_log now1 false f [rX; rY]
                   = Document (mkLedgerDoc last_updated_timestamp now1 [rX; rY])).
  { unfold append_to_failed_log, newly_added_count, updated_papers_list. by rewrite H1. }
  rewrite Hfirst.
  assert (H2 : merged (Document (mkLedgerDoc last_updated_timestamp now1 [rX; rY])) [rY'; rZ]
               = ([rX; rY; rZ], 1)).
  { unfold merged. cbn [papers_of ledger_papers odict_of_papers foldl].
    rewrite (odict_add_id [] rX X), (odict_add_id _ rY Y) by done.
    cbn [odict_set]. rewrite (bool_decide_eq_false_2 (X = Y)) by done.
    rewrite (merge_failure_present _ _ _ rY' Y) by (done || key_present).
    rewrite (merge_failure_new _ _ _ rZ Z) by (done || key_fresh).
    cbn [app odict_values fmap list_fmap snd foldl]. unfold readd_without_id.
    rewrite (proj2 (has_entry_id_true rX)), (proj2 (has_entry_id_true rY)) by eauto.
    reflexivity. }
  unfold append_to_failed_log, newly_added_count, updated_papers_list. by rewrite H2.
Qed.

(** C2. Merging the same failures twice leaves the ledger file as one
    merge does; an identity present in the ledger keeps its record (a new
    failure neither replaces it nor adds a second one); and failures for
    X, Y followed by failures for Y, Z on a fresh ledger leave exactly the
    records of X, Y and Z, each once, Y with the record of the first run. *)
Theorem ledger_merge_idempotent_union :
  (forall now1 now2 f new,
      append_to_failed_log now2 false (append_to_failed_log now1 false f new) new
      = append_to_failed_log now1 false f new)
  /\ (forall now io_fails f new k,
      k ≠ "" -> records_of k (papers_of f) ≠ [] ->
      last (records_of k (papers_of (append_to_failed_log now io_fails f new)))
      = last (records_of k (papers_of f))
      /\ length (records_of k (papers_of (append_to_failed_log now io_fails f new)))
         <= length (records_of k (papers_of f)))
  /\ (forall now1 now2 f X Y Z rX rY rY' rZ,
      papers_of f = [] ->
      X ≠ "" -> Y ≠ "" -> Z ≠ "" -> X ≠ Y -> Y ≠ Z -> X ≠ Z ->
      entry_id_of rX = Some X -> entry_id_of rY = Some Y ->
      entry_id_of rY' = Some Y -> entry_id_of rZ = Some Z ->
      papers_of (append_to_failed_log now2 false
                   (append_to_failed_log now1 false f [rX; rY]) [rY'; rZ])
      = [rX; rY; rZ]).
Proof.
  split; [exact append_to_failed_log_idempotent |].
  split; [exact append_to_failed_log_keeps_present |].
  intros now1 now2 f X Y Z rX rY rY' rZ Hf HX HY HZ HXY HYZ HXZ HrX HrY HrY' HrZ.
  by rewrite (append_to_failed_log_two_runs now1 now2 f X Y Z rX rY rY' rZ).
Qed.

Lemma ledger_merge_witness :
  papers_of (append_to_failed_log "t2" false
               (append_to_failed_log "t1" false Missing [paper_A; paper_B])
               [paper_B_again; paper_D])
  = [paper_A; paper_B; paper_D].
Proof.
  apply (proj2 (proj2 ledger_merge_idempotent_union) "t1" "t2" Missing
           "2401.00001v1" "hep-th/9901001" "2402.00002v3");
    (reflexivity || discriminate).
Defined.




(** The write test looks at [newly_added_count] alone: failures that all
    lack an entry id change the merged list and still leave an existing
    file unwritten. *)
Lemma append_to_failed_log_without_id_not_written :
  let f := Document (mkLedgerDoc last_updated_timestamp "t0" [paper_A]) in
  updated_papers_list f [paper_C] = [paper_A; paper_C]
  /\ append_to_failed_log "t1" false f [paper_C] = f.
Proof. split; vm_compute; reflexivity. Qed.

(* ===================================================================== *)
(** * Properties: retry pass *)
(* ===================================================================== *)

Section retry_facts.
Variable env : RetryEnv.
Variable base_output_dir : string.

#[local] Abbreviation skipped := (retry_skipped (pool env) base_output_dir).
#[local] Abbreviation attempt := (retry_attempt (pool env) base_output_dir).
#[local] Abbreviation indexed := (imap (fun (i : nat) (p : paper) => (i, p))).

(** ** The submission loop *)

Lemma submit_retry_step (kept : list nat) (futures : list future) (ip : nat * paper) :
  submit_retry (pool env) base_output_dir (kept, futures) ip
  = (kept ++ option_list (kept_of (pool env) base_output_dir ip),
     futures ++ option_list (future_of (pool env) base_output_dir ip)).
Proof.
  destruct ip as [i p]. unfold submit_retry, kept_of, future_of, retry_skipped,
    retry_attempt, retry_target. cbn [fst snd].
  destruct (has_entry_id p); cbn [negb orb].
  - destruct (makedirs_fails _ _); cbn [option_list]; by rewrite ?app_nil_r.
  - cbn [option_list]. by rewrite app_nil_r.
Qed.

Lemma foldl_submit_retry (l : list (nat * paper)) (kept : list nat) (futures : list future) :
  foldl (submit_retry (pool env) base_output_dir) (kept, futures) l
  = (kept ++ omap (kept_of (pool env) base_output_dir) l,
     futures ++ omap (future_of (pool env) base_output_dir) l).
Proof.
  revert kept futures. induction l as [|ip l IH]; intros kept futures; cbn [foldl omap].
  - by rewrite !app_nil_r.
  - rewrite submit_retry_step, IH. cbn [list_omap].
    destruct (kept_of _ _ ip), (future_of _ _ ip); cbn [option_list];
      by rewrite <- ?app_assoc, ?app_nil_r.
Qed.

Lemma elem_of_kept (ps : list paper) (i : nat) :
  i ∈ omap (kept_of (pool env) base_output_dir) (indexed ps)
  <-> exists p, ps !! i = Some p /\ skipped p = true.
Proof.
  rewrite list_elem_of_omap. split.
  - intros ([j p] & (j' & p' & [= -> ->] & Hj)%elem_of_lookup_imap & Hkept).
    unfold kept_of in Hkept. cbn [fst snd] in Hkept.
    destruct (skipped p') eqn:Hs; [| done]. injection Hkept as ->. by exists p'.
  - intros (p & Hi & Hs). exists (i, p). split.
    + apply elem_of_lookup_imap. by exists i, p.
    + unfold kept_of. cbn [fst snd]. by rewrite Hs.
Qed.

Lemma elem_of_futures (ps : list paper) (f : future) :
  f ∈ omap (future_of (pool env) base_output_dir) (indexed ps)
  <-> exists i p, ps !! i = Some p /\ skipped p = false
                  /\ f = (default "" (entry_id_of p), attempt i p).
Proof.
  rewrite list_elem_of_omap. split.
  - intros ([j p] & (j' & p' & [= -> ->] & Hj)%elem_of_lookup_imap & Hfut).
    unfold future_of in Hfut. cbn [fst snd] in Hfut.
    destruct (skipped p') eqn:Hs; [done |]. injection Hfut as <-. by exists j', p'.
  - intros (i & p & Hi & Hs & ->). exists (i, p). split.
    + apply elem_of_lookup_imap. by exists i, p.
    + unfold future_of. cbn [fst snd]. by rewrite Hs.
Qed.

Lemma identities_snoc (ps : list paper) (x : paper) :
  identities (ps ++ [x])
  = identities ps ++ (if has_entry_id x then [default "" (entry_id_of x)] else []).
Proof.
  unfold identities. rewrite filter_app, fmap_app. f_equal.
  rewrite filter_cons, filter_nil. destruct (has_entry_id x).
  - by rewrite decide_True.
  - by rewrite decide_False.
Qed.

Lemma futures_sublist_identities (ps : list paper) :
  (omap (future_of (pool env) base_output_dir) (indexed ps)).*1 `sublist_of` identities ps.
Proof.
  induction ps as [|x ps IH] using rev_ind; [done |].
  rewrite imap_app, omap_app, fmap_app, identities_snoc.
  apply sublist_app; [exact IH |].
  cbn [imap list_omap omap]. unfold future_of, retry_skipped. cbn [fst snd].
  destruct (has_entry_id x); cbn [negb orb].
  - destruct (makedirs_fails _ _); cbn; [apply sublist_nil_l | done].
  - done.
Qed.

(** ** The map from identities to references *)

Lemma build_ref_map_snoc (ps : list paper) (x : paper) :
  build_ref_map (ps ++ [x]) = ref_map_add (build_ref_map ps) (length ps, x).
Proof.
  unfold build_ref_map. rewrite imap_app, foldl_app. cbn [imap foldl].
  by rewrite Nat.add_0_r.
Qed.

Lemma build_ref_map_sound (ps : list paper) (k : string) (i : nat) :
  build_ref_map ps !! k = Some i ->
  exists p, ps !! i = Some p /\ entry_id_of p = Some k /\ k ≠ "".
Proof.
  induction ps as [|x ps IH] using rev_ind.
  - unfold build_ref_map. cbn. by rewrite lookup_empty.
  - rewrite build_ref_map_snoc. unfold ref_map_add. cbn [fst snd].
    destruct (has_entry_id x) eqn:Hx.
    + apply has_entry_id_true in Hx as (kx & Hid & Hkx). rewrite Hid. cbn [from_option id].
      destruct (decide (kx = k)) as [-> | Hother].
      * rewrite lookup_insert_eq. intros [= <-]. exists x.
        rewrite lookup_app_r, Nat.sub_diag by lia. done.
      * rewrite lookup_insert_ne by done.
        intros (p & Hp & Hrest)%IH. exists p. split; [| done].
        by apply lookup_app_l_Some.
    + intros (p & Hp & Hrest)%IH. exists p. split; [| done].
      by apply lookup_app_l_Some.
Qed.

Lemma build_ref_map_complete (ps : list paper) (k : string) (i : nat) (p : paper) :
  ps !! i = Some p -> entry_id_of p = Some k -> k ≠ "" ->
  is_Some (build_ref_map ps !! k).
Proof.
  intros Hi Hid Hk. revert i Hi. induction ps as [|x ps IH] using rev_ind; intros i Hi.
  - by rewrite lookup_nil in Hi.
  - rewrite build_ref_map_snoc. unfold ref_map_add. cbn [fst snd].
    apply lookup_app_Some in Hi as [Hi | [Hlen Hi]].
    + destruct (has_entry_id x) eqn:Hx; [| by eapply IH].
      destruct (decide (default "" (entry_id_of x) = k)) as [-> | Hother].
      * rewrite lookup_insert_eq. by eexists.
      * rewrite lookup_insert_ne by done. by eapply IH.
    + apply list_lookup_singleton_Some in Hi as [_ ->].
      rewrite (proj2 (has_entry_id_true p)) by eauto. rewrite Hid. cbn [from_option id].
      rewrite lookup_insert_eq. by eexists.
Qed.

Lemma identities_elem (ps : list paper) (i : nat) (p : paper) (k : string) :
  ps !! i = Some p -> entry_id_of p = Some k -> k ≠ "" -> k ∈ identities ps.
Proof.
  intros Hi Hid Hk. unfold identities. apply list_elem_of_fmap.
  exists p. rewrite Hid. split; [done |]. apply list_elem_of_filter. split.
  - apply has_entry_id_true. eauto.
  - apply list_elem_of_lookup. eauto.
Qed.

(** Distinct identities: an identity names one position of the ledger. *)
Lemma identity_index_unique (ps : list paper) (i j : nat) (p q : paper) (k : string) :
  NoDup (identities ps) ->
  ps !! i = Some p -> ps !! j = Some q ->
  entry_id_of p = Some k -> entry_id_of q = Some k -> k ≠ "" -> i = j.
Proof.
  intros Hnd Hi Hj Hp Hq Hk. revert i j Hi Hj.
  induction ps as [|x ps IH] using rev_ind; intros i j Hi Hj.
  - by rewrite lookup_nil in Hi.
  - rewrite identities_snoc in Hnd. apply NoDup_app in Hnd as (Hnd & Hdisj & _).
    apply lookup_app_Some in Hi as [Hi | [Hleni Hi]];
      apply lookup_app_Some in Hj as [Hj | [Hlenj Hj]].
    + by apply IH.
    + apply list_lookup_singleton_Some in Hj as [Hj0 ->]. exfalso.
      apply (Hdisj k); [by eapply identities_elem |].
      rewrite (proj2 (has_entry_id_true q)) by eauto. rewrite Hq. by left.
    + apply list_lookup_singleton_Some in Hi as [Hi0 ->]. exfalso.
      apply (Hdisj k); [by eapply identities_elem |].
      rewrite (proj2 (has_entry_id_true p)) by eauto. rewrite Hp. by left.
    + apply list_lookup_singleton_Some in Hi as [Hi0 _].
      apply list_lookup_singleton_Some in Hj as [Hj0 _]. lia.
Qed.

Lemma build_ref_map_lookup (ps : list paper) (i : nat) (p : paper) (k : string) :
  NoDup (identities ps) ->
  ps !! i = Some p -> entry_id_of p = Some k -> k ≠ "" ->
  build_ref_map ps !! k = Some i.
Proof.
  intros Hnd Hi Hid Hk.
  destruct (build_ref_map_complete ps k i p Hi Hid Hk) as [j Hj].
  destruct (build_ref_map_sound ps k j Hj) as (q & Hq & Hqid & _).
  by rewrite (identity_index_unique ps i j p q k).
Qed.
End retry_facts.

Section retry_loop.
Variable env : RetryEnv.
Variable base_output_dir : string.

#[local] Abbreviation skipped := (retry_skipped (pool env) base_output_dir).
#[local] Abbreviation attempt := (retry_attempt (pool env) base_output_dir).
#[local] Abbreviation numbered := (imap (fun (k : nat) (f : future) => (k, f))).

(** ** The loop over the completed futures *)

Lemma deref_snoc (store : list paper) (refs : list nat) (i : nat) :
  deref store (refs ++ [i]) = deref store refs ++ option_list (store !! i).
Proof.
  unfold deref. rewrite omap_app. f_equal.
Qed.

Lemma deref_insert_fresh (store : list paper) (refs : list nat) (i : nat) (x : paper) :
  i ∉ refs -> deref (<[i := x]> store) refs = deref store refs.
Proof.
  induction refs as [|j refs IH]; [done |].
  intros [Hne Hfresh]%not_elem_of_cons. unfold deref in *. cbn [omap list_omap].
  rewrite list_lookup_insert_ne by done. by rewrite IH.
Qed.

Lemma collect_retry_succeeded (ref_map : gmap string nat) (acc : list paper * list nat)
    (k : nat) (eid : string) (res : future_result) :
  retry_failure_reason res = None ->
  collect_retry env ref_map acc (k, (eid, res)) = acc.
Proof. intros Hres. destruct acc. unfold collect_retry. cbn [fst snd]. by rewrite Hres. Qed.

Lemma collect_retry_failed (ref_map : gmap string nat) (store : list paper) (refs : list nat)
    (k : nat) (eid : string) (res : future_result) (reason : string) (i : nat) (p : paper) :
  retry_failure_reason res = Some reason ->
  ref_map !! eid = Some i -> store !! i = Some p -> p ≠ ∅ ->
  collect_retry env ref_map (store, refs) (k, (eid, res))
  = (<[i := mark_retry_failed reason (strftime env k) p]> store, refs ++ [i]).
Proof.
  intros Hres Hmap Hstore Hp. unfold collect_retry. cbn [fst snd].
  rewrite Hres, Hmap, Hstore. cbn [found_record].
  by rewrite bool_decide_eq_false_2.
Qed.

Lemma foldl_collect_retry (ref_map : gmap string nat) (ps : list paper)
    (cs : list (nat * future)) (store : list paper) (refs : list nat) :
  NoDup cs.*2.*1 ->
  (forall c, c ∈ cs ->
     exists i p, ref_map !! c.2.1 = Some i /\ store !! i = Some p /\ ps !! i = Some p
                 /\ p ≠ ∅ /\ i ∉ refs) ->
  (forall c c' i, c ∈ cs -> c' ∈ cs ->
     ref_map !! c.2.1 = Some i -> ref_map !! c'.2.1 = Some i -> c.2.1 = c'.2.1) ->
  deref (foldl (collect_retry env ref_map) (store, refs) cs).1
        (foldl (collect_retry env ref_map) (store, refs) cs).2
  = deref store refs ++ omap (failed_record env ref_map ps) cs.
Proof.
  revert store refs. induction cs as [|[k [eid res]] cs IH]; intros store refs Hnd Hrefs Hinj.
  - cbn. by rewrite app_nil_r.
  - cbn [foldl]. cbn [fmap list_fmap fst snd] in Hnd. apply NoDup_cons in Hnd as [Hfresh Hnd].
    destruct (Hrefs (k, (eid, res))) as (i & p & Hmap & Hstore & Hps & Hp & Hi); [by left |].
    cbn [fst snd] in Hmap.
    destruct (retry_failure_reason res) as [reason|] eqn:Hres.
    + rewrite (collect_retry_failed ref_map store refs k eid res reason i p) by done.
      rewrite IH; [| done | |].
      * rewrite deref_snoc, deref_insert_fresh by done.
        rewrite list_lookup_insert_eq by (by eapply lookup_lt_Some).
        cbn [omap list_omap option_list]. unfold failed_record at 2. cbn [fst snd].
        rewrite Hres, Hmap. cbn. rewrite Hps. cbn. by rewrite <- app_assoc.
      * intros c Hc. destruct (Hrefs c) as (j & q & Hmapj & Hstorej & Hpsj & Hq & Hj);
          [by right |].
        assert (j ≠ i) as Hne.
        { intros ->. apply Hfresh.
          assert (c.2.1 = eid) as <-.
          { apply (Hinj c (k, (eid, res)) i); [by right | by left | done | done]. }
          apply list_elem_of_fmap. exists c.2. split; [done |].
          apply list_elem_of_fmap. by exists c. }
        exists j, q. rewrite list_lookup_insert_ne by done.
        repeat split; try done. rewrite not_elem_of_app, not_elem_of_cons.
        split; [done |]. split; [done | apply not_elem_of_nil].
      * intros c c' j Hc Hc'. apply Hinj; by right.
    + rewrite collect_retry_succeeded by done.
      rewrite IH; [| done | |].
      * cbn [omap list_omap]. unfold failed_record at 2. cbn [fst snd]. by rewrite Hres.
      * intros c Hc. apply Hrefs. by right.
      * intros c c' j Hc Hc'. apply Hinj; by right.
Qed.

Lemma snd_numbered (l : list future) : (numbered l).*2 = l.
Proof.
  apply list_eq. intros i. rewrite list_lookup_fmap, list_lookup_imap.
  by destruct (l !! i).
Qed.

Lemma paper_with_id_nonempty (p : paper) (k : string) : entry_id_of p = Some k -> p ≠ ∅.
Proof. intros Hid ->. unfold entry_id_of in Hid. by rewrite lookup_empty in Hid. Qed.

Lemma not_skipped_has_id (p : paper) :
  skipped p = false -> exists k, entry_id_of p = Some k /\ k ≠ "".
Proof.
  unfold retry_skipped. intros [Hid _]%orb_false_elim.
  apply negb_false_iff in Hid. by apply has_entry_id_true.
Qed.

(** The list the retry pass is left with: the skipped records as they
    were, then one marked record per failed future, in completion order. *)
Lemma still_failed_after_retry_closed (ps : list paper) :
  NoDup (identities ps) ->
  (forall fs, as_completed (pool env) fs ≡ₚ fs) ->
  still_failed_after_retry env base_output_dir ps
  = deref ps (omap (kept_of (pool env) base_output_dir) (imap (fun i p => (i, p)) ps))
    ++ omap (failed_record env (build_ref_map ps) ps)
         (numbered (as_completed (pool env)
            (omap (future_of (pool env) base_output_dir) (imap (fun i p => (i, p)) ps)))).
Proof.
  intros Hnd Hperm. unfold still_failed_after_retry.
  rewrite foldl_submit_retry. cbn [app].
  set (kept := omap (kept_of (pool env) base_output_dir) (imap (fun i p => (i, p)) ps)).
  set (futures := omap (future_of (pool env) base_output_dir) (imap (fun i p => (i, p)) ps)).
  set (cs := numbered (as_completed (pool env) futures)).
  pose proof (foldl_collect_retry (build_ref_map ps) ps cs ps kept) as Hloop.
  destruct (foldl (collect_retry env (build_ref_map ps)) (ps, kept) cs) as [store refs].
  cbn [fst snd] in Hloop. apply Hloop; clear Hloop.
  - subst cs. rewrite snd_numbered, (Hperm futures).
    eapply sublist_NoDup; [exact Hnd | apply futures_sublist_identities].
  - intros c Hc.
    assert (Hfut : c.2 ∈ futures).
    { rewrite <- (Hperm futures), <- (snd_numbered (as_completed (pool env) futures)).
      apply list_elem_of_fmap. by exists c. }
    apply elem_of_futures in Hfut as (i & p & Hi & Hs & Hc2).
    destruct (not_skipped_has_id p Hs) as (k & Hid & Hk).
    exists i, p. rewrite Hc2, Hid. cbn [fst from_option id].
    split; [by apply (build_ref_map_lookup ps i p k) |].
    split; [done |]. split; [done |]. split; [by eapply paper_with_id_nonempty |].
    intros (p' & Hi' & Hs')%elem_of_kept. congruence.
  - intros c c' i _ _ (p & Hp & Hid & _)%build_ref_map_sound
      (p' & Hp' & Hid' & _)%build_ref_map_sound. congruence.
Qed.
End retry_loop.

Section retry_pass.
Variable env : RetryEnv.
Variable base_output_dir : string.
Variable ps : list paper.
Hypothesis distinct_identities : NoDup (identities ps).
Hypothesis completion_order : forall fs, as_completed (pool env) fs ≡ₚ fs.

#[local] Abbreviation skipped := (retry_skipped (pool env) base_output_dir).
#[local] Abbreviation attempt := (retry_attempt (pool env) base_output_dir).
#[local] Abbreviation still_failed := (still_failed_after_retry env base_output_dir ps).

Lemma failed_record_of_attempt (k i : nat) (p : paper) (reason : string) :
  ps !! i = Some p -> skipped p = false ->
  retry_failure_reason (attempt i p) = Some reason ->
  failed_record env (build_ref_map ps) ps (k, (default "" (entry_id_of p), attempt i p))
  = Some (mark_retry_failed reason (strftime env k) p).
Proof.
  intros Hi Hs Hreason. destruct (not_skipped_has_id env base_output_dir p Hs) as (eid & Hid & Heid).
  unfold failed_record. cbn [fst snd]. rewrite Hreason, Hid. cbn [from_option id mbind option_bind].
  rewrite (build_ref_map_lookup ps i p eid) by done. cbn. rewrite Hi. done.
Qed.

Lemma still_failed_skipped (i : nat) (p : paper) :
  ps !! i = Some p -> skipped p = true -> p ∈ still_failed.
Proof.
  intros Hi Hs. rewrite still_failed_after_retry_closed by done.
  apply elem_of_app. left. unfold deref. apply list_elem_of_omap.
  exists i. split; [| done]. apply elem_of_kept. by exists p.
Qed.

Lemma still_failed_marked (i : nat) (p : paper) (reason : string) :
  ps !! i = Some p -> skipped p = false ->
  retry_failure_reason (attempt i p) = Some reason ->
  exists k, mark_retry_failed reason (strftime env k) p ∈ still_failed.
Proof.
  intros Hi Hs Hreason.
  assert (Hfut : (default "" (entry_id_of p), attempt i p)
                 ∈ as_completed (pool env)
                     (omap (future_of (pool env) base_output_dir)
                        (imap (fun i p => (i, p)) ps))).
  { rewrite completion_order. apply elem_of_futures. by exists i, p. }
  apply list_elem_of_lookup in Hfut as [k Hk]. exists k.
  rewrite still_failed_after_retry_closed by done.
  apply elem_of_app. right. apply list_elem_of_omap.
  exists (k, (default "" (entry_id_of p), attempt i p)). split.
  - apply elem_of_lookup_imap. by eexists k, _.
  - by apply failed_record_of_attempt.
Qed.

Lemma still_failed_elem (q : paper) :
  q ∈ still_failed ->
  (exists i, ps !! i = Some q /\ skipped q = true)
  \/ (exists i p reason k,
        ps !! i = Some p /\ skipped p = false
        /\ retry_failure_reason (attempt i p) = Some reason
        /\ q = mark_retry_failed reason (strftime env k) p).
Proof.
  rewrite still_failed_after_retry_closed by done.
  intros [Hkept | Hfailed]%elem_of_app.
  - left. unfold deref in Hkept.
    apply list_elem_of_omap in Hkept as (i & (p & Hi & Hs)%elem_of_kept & Hq).
    exists i. split; [done |]. congruence.
  - right. apply list_elem_of_omap in Hfailed as ([k f] & Hc & Hrec).
    apply elem_of_lookup_imap in Hc as (k' & f' & [= -> ->] & Hk).
    assert (Hfut : f' ∈ omap (future_of (pool env) base_output_dir)
                          (imap (fun i p => (i, p)) ps)).
    { rewrite <- (completion_order _). apply list_elem_of_lookup. by exists k'. }
    apply elem_of_futures in Hfut as (i & p & Hi & Hs & ->).
    destruct (retry_failure_reason (attempt i p)) as [reason|] eqn:Hreason.
    + rewrite (failed_record_of_attempt k' i p reason) in Hrec by done.
      injection Hrec as <-. by exists i, p, reason, k'.
    + unfold failed_record in Hrec. cbn [fst snd] in Hrec. by rewrite Hreason in Hrec.
Qed.

Lemma entry_id_of_mark (reason ts : string) (p : paper) :
  entry_id_of (mark_retry_failed reason ts p) = entry_id_of p.
Proof.
  unfold entry_id_of, mark_retry_failed.
  by rewrite !lookup_insert_ne by discriminate.
Qed.

(** A record whose attempt did not fail leaves no record of its identity. *)
Lemma still_failed_removed (i : nat) (p q : paper) :
  ps !! i = Some p -> skipped p = false ->
  retry_failure_reason (attempt i p) = None ->
  q ∈ still_failed -> entry_id_of q ≠ entry_id_of p.
Proof.
  intros Hi Hs Hok Hq Hsame.
  destruct (not_skipped_has_id env base_output_dir p Hs) as (eid & Hid & Heid).
  apply still_failed_elem in Hq
    as [(j & Hj & Hsj) | (j & p' & reason & k & Hj & Hsj & Hreason & ->)].
  - assert (i = j) as <-.
    { apply (identity_index_unique ps i j p q eid); try done. congruence. }
    congruence.
  - rewrite entry_id_of_mark in Hsame.
    assert (i = j) as <-.
    { apply (identity_index_unique ps i j p p' eid); try done. congruence. }
    congruence.
Qed.
End retry_pass.

Lemma retry_failed_downloads_document (env : RetryEnv) (failed_log_path base_output_dir : string)
    (data : ledger_doc) :
  ledger_papers data ≠ [] ->
  write_fails (pool env) failed_log_path = false ->
  remove_ledger_fails env = false ->
  let still_failed := still_failed_after_retry env base_output_dir (ledger_papers data) in
  retry_failed_downloads env failed_log_path base_output_dir (Document data)
  = match still_failed with
    | [] => Missing
    | _ :: _ => Document (mkLedgerDoc last_retry_run_timestamp (now_retry env) still_failed)
    end.
Proof.
  intros Hps Hwrite Hremove. cbn zeta. unfold retry_failed_downloads.
  destruct (ledger_papers data) as [|p ps] eqn:Heq; [done |].
  rewrite Hwrite, Hremove. done.
Qed.

(** C3 (as stated, refuted).  A record without an entry id stays in the
    rewritten ledger as it was, with no retry reason and no timestamp. *)
Lemma retry_keeps_unattempted_record_unmarked :
  ~ (forall (env : RetryEnv) (failed_log_path base_output_dir : string)
            (data : ledger_doc) (q : paper),
        q ∈ papers_of (retry_failed_downloads env failed_log_path base_output_dir
                         (Document data)) ->
        is_Some (q !! "_retry_attempt_failed_reason")
        /\ is_Some (q !! "_last_retry_timestamp")).
Proof.
  intros Hall.
  specialize (Hall sample_retry_env "out/failed_downloads.json" "out"
                (mkLedgerDoc last_updated_timestamp "t0" [paper_C]) paper_C).
  assert (Hrun : papers_of (retry_failed_downloads sample_retry_env "out/failed_downloads.json"
                              "out" (Document (mkLedgerDoc last_updated_timestamp "t0"
                                                 [paper_C])))
                 = [paper_C]) by (vm_compute; reflexivity).
  rewrite Hrun in Hall.
  destruct Hall as [[reason Hreason] _]; [by left |].
  vm_compute in Hreason. discriminate Hreason.
Qed.

Lemma retry_attempted (env : BatchEnv) (base_output_dir : string) (p : paper) :
  retry_skipped env base_output_dir p = false
  <-> (exists k, p !! "entry_id" = Some k /\ k ≠ "")
      /\ makedirs_fails env
           (determine_target_subdir env p base_output_dir "retry_downloads") = false.
Proof.
  unfold retry_skipped, retry_target. split.
  - intros [Hid Hmk]%orb_false_elim. apply negb_false_iff in Hid.
    split; [by apply has_entry_id_true | done].
  - intros [Hid Hmk]. apply has_entry_id_true in Hid. by rewrite Hid, Hmk.
Qed.

Lemma retry_failure_reason_Some (r : future_result) (reason : string) :
  retry_failure_reason r = Some reason
  <-> (exists processed, r = Returned (processed, FAILED, reason))
      \/ (exists exc, r = Raised exc /\ reason = "Execution exception: " +:+ exc).
Proof.
  split.
  - destruct r as [[[processed status] detail] | exc]; cbn.
    + destruct status; intros [= <-]. left. by exists processed.
    + intros [= <-]. right. by exists exc.
  - intros [[processed ->] | (exc & -> & ->)]; done.
Qed.

Lemma retry_failure_reason_None (processed : option string) (status : Outcome)
    (detail : string) :
  status ≠ FAILED -> retry_failure_reason (Returned (processed, status, detail)) = None.
Proof. by destruct status. Qed.

Lemma mark_retry_failed_fields (reason ts : string) (p : paper) :
  mark_retry_failed reason ts p !! "_retry_attempt_failed_reason" = Some reason
  /\ mark_retry_failed reason ts p !! "_last_retry_timestamp" = Some ts
  /\ (forall key, key ≠ "_retry_attempt_failed_reason" -> key ≠ "_last_retry_timestamp" ->
        mark_retry_failed reason ts p !! key = p !! key).
Proof.
  unfold mark_retry_failed. split; [| split].
  - rewrite lookup_insert_ne by done. apply lookup_insert_eq.
  - apply lookup_insert_eq.
  - intros key H1 H2. rewrite lookup_insert_ne by done. by rewrite lookup_insert_ne.
Qed.

(** C3 (amended).  On a ledger whose records carry distinct identities,
    with the ledger writable and removable.  A record that is re-attempted
    (it has an entry id and its target subdirectory could be created) and
    whose worker returns a status other than FAILED leaves no record of its
    identity in the rewritten ledger.  A re-attempted record whose worker
    returns FAILED, or raises, is in the rewritten ledger with
    [_retry_attempt_failed_reason] set to the detail of the failure (to
    ["Execution exception: "] and the exception, when the worker raised),
    with [_last_retry_timestamp] set to a reading of the clock, and with
    every other field as it was.  A record that is not re-attempted is in
    the rewritten ledger as it was.  The rewritten ledger holds nothing
    else, and when nothing is left the file is deleted. *)
Theorem retry_pass_rewrites_ledger
    (env : RetryEnv) (failed_log_path base_output_dir : string) (data : ledger_doc) :
  ledger_papers data ≠ [] ->
  NoDup (identities (ledger_papers data)) ->
  (forall fs, as_completed (pool env) fs ≡ₚ fs) ->
  write_fails (pool env) failed_log_path = false ->
  remove_ledger_fails env = false ->
  let ps := ledger_papers data in
  let target := fun p : paper =>
    determine_target_subdir (pool env) p base_output_dir "retry_downloads" in
  let attempted := fun p : paper =>
    (exists k, p !! "entry_id" = Some k /\ k ≠ "")
    /\ makedirs_fails (pool env) (target p) = false in
  let result := fun (i : nat) (p : paper) => run_worker (pool env) i p (target p) in
  let failed_with := fun (i : nat) (p : paper) (reason : string) =>
    (exists processed, result i p = Returned (processed, FAILED, reason))
    \/ (exists exc, result i p = Raised exc
                    /\ reason = "Execution exception: " +:+ exc) in
  let marked := fun (q p : paper) (reason : string) =>
    exists k : nat,
      q !! "_retry_attempt_failed_reason" = Some reason
      /\ q !! "_last_retry_timestamp" = Some (strftime env k)
      /\ (forall key, key ≠ "_retry_attempt_failed_reason" ->
                      key ≠ "_last_retry_timestamp" -> q !! key = p !! key) in
  let after := retry_failed_downloads env failed_log_path base_output_dir (Document data) in
  (forall i p processed status detail q,
      ps !! i = Some p -> attempted p ->
      result i p = Returned (processed, status, detail) -> status ≠ FAILED ->
      q ∈ papers_of after -> q !! "entry_id" ≠ p !! "entry_id")
  /\ (forall i p reason,
      ps !! i = Some p -> attempted p -> failed_with i p reason ->
      exists q, q ∈ papers_of after /\ marked q p reason)
  /\ (forall i p, ps !! i = Some p -> ~ attempted p -> p ∈ papers_of after)
  /\ (forall q, q ∈ papers_of after ->
      (exists i, ps !! i = Some q /\ ~ attempted q)
      \/ (exists i p reason,
            ps !! i = Some p /\ attempted p /\ failed_with i p reason
            /\ marked q p reason))
  /\ (papers_of after = [] /\ after = Missing
      \/ papers_of after ≠ []
         /\ after = Document (mkLedgerDoc last_retry_run_timestamp (now_retry env)
                                (papers_of after))).
Proof.
  intros Hps Hnd Hperm Hwrite Hremove ps target attempted result failed_with marked after.
  assert (Hafter : papers_of after = still_failed_after_retry env base_output_dir ps
                   /\ (papers_of after = [] /\ after = Missing
                       \/ papers_of after ≠ []
                          /\ after = Document (mkLedgerDoc last_retry_run_timestamp
                                                 (now_retry env) (papers_of after)))).
  { subst after. rewrite retry_failed_downloads_document by done. fold ps.
    destruct (still_failed_after_retry env base_output_dir ps) as [|q l]; cbn.
    - split; [done |]. by left.
    - split; [done |]. by right. }
  destruct Hafter as [Hpapers Hfile]. rewrite Hpapers.
  assert (Hatt : forall p, attempted p <-> retry_skipped (pool env) base_output_dir p = false).
  { intros p. symmetry. apply retry_attempted. }
  assert (Hfail : forall i p reason,
             failed_with i p reason
             <-> retry_failure_reason (retry_attempt (pool env) base_output_dir i p)
                 = Some reason).
  { intros i p reason. symmetry. apply retry_failure_reason_Some. }
  assert (Hmarked : forall reason k p, marked (mark_retry_failed reason (strftime env k) p) p reason).
  { intros reason k p. exists k. apply mark_retry_failed_fields. }
  split; [| split; [| split; [| split]]].
  - intros i p processed status detail q Hi Hp Hres Hstatus Hq.
    apply Hatt in Hp.
    apply (still_failed_removed env base_output_dir ps Hnd Hperm i p q Hi Hp); [| done].
    unfold retry_attempt, retry_target. fold (target p) (result i p). rewrite Hres.
    by apply retry_failure_reason_None.
  - intros i p reason Hi Hp Hreason. apply Hatt in Hp. apply Hfail in Hreason.
    destruct (still_failed_marked env base_output_dir ps Hnd Hperm i p reason Hi Hp Hreason)
      as [k Hin].
    eexists. split; [exact Hin | apply Hmarked].
  - intros i p Hi Hp.
    apply (still_failed_skipped env base_output_dir ps Hnd Hperm i p Hi).
    destruct (retry_skipped (pool env) base_output_dir p) eqn:Hs; [done |].
    exfalso. by apply Hp, Hatt.
  - intros q Hq.
    destruct (still_failed_elem env base_output_dir ps Hnd Hperm q Hq)
      as [(i & Hi & Hs) | (i & p & reason & k & Hi & Hs & Hreason & ->)].
    + left. exists i. split; [done |]. intros Ha. apply Hatt in Ha. congruence.
    + right. exists i, p, reason. split; [done |]. split; [by apply Hatt |].
      split; [by apply Hfail | apply Hmarked].
  - by rewrite <- Hpapers.
Qed.

Lemma retry_pass_rewrites_ledger_witness :
  paper_C ∈ papers_of (retry_failed_downloads sample_retry_env "out/failed_downloads.json"
                         "out" (Document sample_ledger))
  /\ exists q,
       q ∈ papers_of (retry_failed_downloads sample_retry_env "out/failed_downloads.json"
                        "out" (Document sample_ledger))
       /\ exists k : nat,
            q !! "_retry_attempt_failed_reason" = Some "wget failed"
            /\ q !! "_last_retry_timestamp" = Some (strftime sample_retry_env k)
            /\ (forall key, key ≠ "_retry_attempt_failed_reason" ->
                            key ≠ "_last_retry_timestamp" -> q !! key = paper_A !! key).
Proof.
  assert (Hdistinct : NoDup (identities (ledger_papers sample_ledger))).
  { change (identities (ledger_papers sample_ledger)) with ["2401.00001v1"].
    apply NoDup_singleton. }
  pose proof (retry_pass_rewrites_ledger sample_retry_env "out/failed_downloads.json" "out"
                sample_ledger ltac:(discriminate) Hdistinct
                (fun fs => reverse_Permutation fs) eq_refl eq_refl) as (_ & Hfailed & Hkept & _).
  split.
  - apply (Hkept 1 paper_C); [reflexivity |].
    intros [(k & Hk & _) _]. vm_compute in Hk. discriminate Hk.
  - apply (Hfailed 0 paper_A "wget failed"); [reflexivity | |].
    + split; [| reflexivity]. exists "2401.00001v1". split; [reflexivity | discriminate].
    + left. exists (Some "2401.00001v1"). reflexivity.
Defined.

(* ===================================================================== *)
(** * Further properties: names and paths *)
(* ===================================================================== *)

Lemma chars_sanitize_filename (name : string) :
  chars (sanitize_filename name)
  = (fun c => if bool_decide (c = "/"%char) then "_"%char else c) <$> chars name.
Proof.
  unfold sanitize_filename, chars. induction name as [|c name IH]; [done |].
  cbn [replace_slash String.list_ascii_of_string]. rewrite IH. reflexivity.
Qed.

Lemma sanitize_filename_chars (name : string) : ("/"%char ∉ chars (sanitize_filename name)).
Proof.
  rewrite chars_sanitize_filename. intros (c & Hc & _)%list_elem_of_fmap.
  by case_bool_decide.
Qed.

Lemma length_sanitize_filename (name : string) :
  String.length (sanitize_filename name) = String.length name.
Proof. rewrite <- !length_chars, chars_sanitize_filename. apply length_fmap. Qed.

Lemma sanitize_filename_id (s : string) :
  ("/"%char ∉ chars s) -> sanitize_filename s = s.
Proof.
  intros Hs. apply chars_inj. rewrite chars_sanitize_filename.
  induction (chars s) as [|c l IH]; [done |].
  apply not_elem_of_cons in Hs as [Hc Hl]. cbn.
  rewrite bool_decide_eq_false_2 by congruence. by rewrite IH.
Qed.

(** X1. The safe id holds no path separator, is as long as the id, and
    is the id itself when the id holds no separator. *)
Theorem sanitize_filename_no_separator (name : string) :
("/"%char ∉ chars (sanitize_filename name))
  /\ String.length (sanitize_filename name) = String.length name
  /\ ("/"%char ∉ chars name -> sanitize_filename name = name)
  /\ sanitize_filename (sanitize_filename name) = sanitize_filename name.
Proof.
  split; [apply sanitize_filename_chars |]. split; [apply length_sanitize_filename |].
  split; [apply sanitize_filename_id |].
  apply sanitize_filename_id, sanitize_filename_chars.
Qed.

Lemma sanitize_filename_no_separator_witness :
  sanitize_filename "2401.00001v1" = "2401.00001v1".
Proof.
  apply (proj1 (proj2 (proj2 (sanitize_filename_no_separator "2401.00001v1")))).
  vm_compute. intros H. repeat (apply elem_of_cons in H as [H | H]; [discriminate H |]).
  by apply not_elem_of_nil in H.
Defined.

(** ** [sanitize_for_dirname] *)

Lemma dirname_char_underscore : dirname_char "_"%char = true.
Proof. reflexivity. Qed.

Lemma sub_disallowed_chars (in_run : bool) (s : string) :
  Forall (fun c => dirname_char c = true) (chars (sub_disallowed in_run s)).
Proof.
  revert in_run. induction s as [|c s IH]; intros in_run; cbn [sub_disallowed].
  - constructor.
  - destruct (dirname_char c) eqn:Hc.
    + cbn. constructor; [done | apply IH].
    + destruct in_run; [apply IH |]. cbn. constructor; [done | apply IH].
Qed.

Lemma collapse_underscores_chars (in_run : bool) (s : string) (P : ascii -> Prop) :
  Forall P (chars s) -> Forall P (chars (collapse_underscores in_run s)).
Proof.
  revert in_run. induction s as [|c s IH]; intros in_run Hs; cbn [collapse_underscores];
    [done |].
  cbn in Hs. apply Forall_cons in Hs as [Hc Hs].
  case_bool_decide; [destruct in_run |]; cbn; auto.
Qed.

Lemma strip_leading_underscore_chars (s : string) (P : ascii -> Prop) :
  Forall P (chars s) -> Forall P (chars (strip_leading_underscore s)).
Proof.
  destruct s as [|c s]; [done |]. cbn [strip_leading_underscore].
  case_bool_decide; [| done]. cbn. by intros [_ ?]%Forall_cons.
Qed.

(** Stripping the last underscore leaves a prefix. *)
Lemma strip_trailing_underscore_prefix (s : string) :
  chars (strip_trailing_underscore s) = chars s
  \/ chars s = chars (strip_trailing_underscore s) ++ ["_"%char].
Proof.
  unfold strip_trailing_underscore.
  destruct (reverse (chars s)) as [|c r] eqn:Hrev; [by left |].
  case_bool_decide as Hc; [| by left]. right. subst c.
  rewrite chars_str. rewrite <- (reverse_involutive (chars s)), Hrev.
  by rewrite reverse_cons.
Qed.

Lemma strip_trailing_underscore_chars (s : string) (P : ascii -> Prop) :
  Forall P (chars s) -> Forall P (chars (strip_trailing_underscore s)).
Proof.
  intros Hs. destruct (strip_trailing_underscore_prefix s) as [-> | Heq]; [done |].
  rewrite Heq in Hs. by apply Forall_app in Hs as [? _].
Qed.

Lemma chars_str_take (n : nat) (s : string) : chars (str_take n s) = take n (chars s).
Proof. unfold str_take. apply chars_str. Qed.


Lemma sanitize_for_dirname_cleaned (text : string) (max_len : nat) :
  sanitize_for_dirname text max_len
  = if (0 <? max_len)%nat && (max_len <? String.length (cleaned text))%nat
    then str_take max_len (cleaned text) else cleaned text.
Proof. reflexivity. Qed.

Lemma cleaned_chars (text : string) :
  Forall (fun c => dirname_char c = true) (chars (cleaned text)).
Proof.
  unfold cleaned. apply strip_trailing_underscore_chars, strip_leading_underscore_chars,
    collapse_underscores_chars, sub_disallowed_chars.
Qed.

Lemma sanitize_for_dirname_chars (text : string) (max_len : nat) :
  Forall (fun c => dirname_char c = true) (chars (sanitize_for_dirname text max_len)).
Proof.
  rewrite sanitize_for_dirname_cleaned. case_match; [| apply cleaned_chars].
  rewrite chars_str_take. apply Forall_take, cleaned_chars.
Qed.

(** X2. A sanitized directory name is made of letters, digits, [_], [.]
    and [-] only, and with a positive [max_len] it is at most that long. *)
Theorem sanitize_for_dirname_alphabet_and_length (text : string) (max_len : nat) :
  Forall (fun c => dirname_char c = true) (chars (sanitize_for_dirname text max_len))
  /\ (0 < max_len -> String.length (sanitize_for_dirname text max_len) <= max_len).
Proof.
  split; [apply sanitize_for_dirname_chars |].
  intros Hpos. rewrite sanitize_for_dirname_cleaned.
  apply Nat.ltb_lt in Hpos. rewrite Hpos. cbn [andb].
  destruct (max_len <? String.length (cleaned text))%nat eqn:Hlen.
  - rewrite <- length_chars, chars_str_take, length_take. lia.
  - apply Nat.ltb_ge in Hlen. lia.
Qed.

Lemma sanitize_for_dirname_alphabet_and_length_witness :
  String.length (sanitize_for_dirname "large language/models and more words!!" 35) <= 35.
Proof.
  apply (proj2 (sanitize_for_dirname_alphabet_and_length
                  "large language/models and more words!!" 35)).
  lia.
Defined.

(** ** Underscores *)

Lemma no_double_underscore_eq (c1 c2 : ascii) (l : list ascii) :
  no_double_underscore (c1 :: c2 :: l)
  = negb (bool_decide (c1 = "_"%char) && bool_decide (c2 = "_"%char))
    && no_double_underscore (c2 :: l).
Proof. reflexivity. Qed.

Lemma no_double_underscore_tail (c : ascii) (l : list ascii) :
  no_double_underscore (c :: l) = true -> no_double_underscore l = true.
Proof.
  destruct l as [|c2 l]; [done |]. rewrite no_double_underscore_eq.
  by intros [_ ?]%andb_prop.
Qed.

Lemma no_double_underscore_head (c2 : ascii) (l : list ascii) :
  no_double_underscore ("_"%char :: c2 :: l) = true -> c2 ≠ "_"%char.
Proof.
  rewrite no_double_underscore_eq. intros [H _]%andb_prop.
  apply negb_true_iff in H. rewrite bool_decide_eq_true_2 in H by done.
  by apply bool_decide_eq_false_1 in H.
Qed.

Lemma no_double_underscore_cons (c : ascii) (l : list ascii) :
  no_double_underscore l = true ->
  (c = "_"%char -> head l ≠ Some "_"%char) ->
  no_double_underscore (c :: l) = true.
Proof.
  intros Hl Hhead. destruct l as [|c2 l]; [done |]. rewrite no_double_underscore_eq.
  rewrite Hl, andb_true_r. apply negb_true_iff, andb_false_iff.
  destruct (decide (c = "_"%char)) as [Hc | Hc].
  - right. apply bool_decide_eq_false_2. intros ->. by apply Hhead.
  - left. by apply bool_decide_eq_false_2.
Qed.

Lemma no_double_underscore_take (n : nat) (l : list ascii) :
  no_double_underscore l = true -> no_double_underscore (take n l) = true.
Proof.
  revert n. induction l as [|c l IH]; intros n Hl; [by destruct n |].
  destruct n as [|n]; [done |]. cbn [take].
  apply no_double_underscore_cons.
  - apply IH. by eapply no_double_underscore_tail.
  - intros ->. destruct l as [|c2 l]; [by destruct n |].
    destruct n as [|n]; [done |]. cbn.
    apply no_double_underscore_head in Hl. congruence.
Qed.

Lemma no_double_underscore_app_l (l1 l2 : list ascii) :
  no_double_underscore (l1 ++ l2) = true -> no_double_underscore l1 = true.
Proof.
  intros H. rewrite <- (take_app_length l1 l2). by apply no_double_underscore_take.
Qed.

Lemma collapse_underscores_runs (in_run : bool) (s : string) :
  no_double_underscore (chars (collapse_underscores in_run s)) = true
  /\ (in_run = true -> head (chars (collapse_underscores in_run s)) ≠ Some "_"%char).
Proof.
  revert in_run. induction s as [|c s IH]; intros in_run; cbn [collapse_underscores].
  - split; [done |]. intros _. discriminate.
  - case_bool_decide as Hc.
    + destruct in_run.
      * apply IH.
      * split; [| done]. cbn. apply no_double_underscore_cons; [apply IH |].
        intros _. by apply IH.
    + split.
      * cbn. apply no_double_underscore_cons; [apply IH | done].
      * intros _. cbn. congruence.
Qed.

Lemma cleaned_underscores (text : string) :
  no_double_underscore (chars (cleaned text)) = true
  /\ head (chars (cleaned text)) ≠ Some "_"%char
  /\ last (chars (cleaned text)) ≠ Some "_"%char.
Proof.
  unfold cleaned.
  set (collapsed := collapse_underscores false (sub_disallowed false text)).
  assert (Hc : no_double_underscore (chars collapsed) = true)
    by apply collapse_underscores_runs.
  assert (Hl : no_double_underscore (chars (strip_leading_underscore collapsed)) = true
               /\ head (chars (strip_leading_underscore collapsed)) ≠ Some "_"%char).
  { destruct collapsed as [|c s]; [done |]. cbn [strip_leading_underscore].
    case_bool_decide as Heq.
    - subst c. split; [by eapply no_double_underscore_tail |].
      change (chars (String "_"%char s)) with ("_"%char :: chars s) in Hc.
      destruct (chars s) as [|c2 l] eqn:Hs; [done |].
      apply no_double_underscore_head in Hc. cbn. congruence.
    - split; [done |]. cbn. congruence. }
  destruct Hl as [Hnd Hhead].
  set (led := strip_leading_underscore collapsed) in *.
  destruct (strip_trailing_underscore_prefix led) as [Hsame | Hsnoc].
  - rewrite Hsame. split; [done |]. split; [done |].
    unfold strip_trailing_underscore in Hsame.
    intros Hlast. rewrite <- head_reverse in Hlast.
    destruct (reverse (chars led)) as [|c r] eqn:Hrev; [done |].
    cbn in Hlast. injection Hlast as ->.
    rewrite bool_decide_eq_true_2 in Hsame by done. rewrite chars_str in Hsame.
    assert (Hlen : length (reverse r) = length (chars led)) by (by rewrite Hsame).
    rewrite <- (length_reverse (chars led)), Hrev, length_reverse in Hlen.
    cbn in Hlen. lia.
  - split; [| split].
    + eapply no_double_underscore_app_l. by rewrite <- Hsnoc.
    + rewrite Hsnoc in Hhead.
      destruct (chars (strip_trailing_underscore led)); [done | exact Hhead].
    + intros Hlast. rewrite Hsnoc in Hnd.
      destruct (chars (strip_trailing_underscore led)) as [|c l] using rev_ind; [done |].
      rewrite last_snoc in Hlast. injection Hlast as ->.
      clear -Hnd. induction l as [|c l IH].
      * cbn in Hnd. discriminate Hnd.
      * apply IH. rewrite <- !app_assoc in *. cbn [app] in *.
        by eapply no_double_underscore_tail.
Qed.

(** X3. A sanitized directory name never starts with an underscore and
    never holds two underscores in a row; it ends with one only when it
    was cut to [max_len]. *)
Theorem sanitize_for_dirname_underscores (text : string) (max_len : nat) :
  head (chars (sanitize_for_dirname text max_len)) ≠ Some "_"%char
  /\ no_double_underscore (chars (sanitize_for_dirname text max_len)) = true
  /\ (last (chars (sanitize_for_dirname text max_len)) = Some "_"%char ->
      0 < max_len /\ max_len < String.length (cleaned text)
      /\ String.length (sanitize_for_dirname text max_len) = max_len).
Proof.
  destruct (cleaned_underscores text) as (Hnd & Hhead & Hlast).
  rewrite sanitize_for_dirname_cleaned.
  destruct ((0 <? max_len)%nat && (max_len <? String.length (cleaned text))%nat) eqn:Hcut.
  - apply andb_prop in Hcut as [Hpos Hlen].
    apply Nat.ltb_lt in Hpos, Hlen. rewrite chars_str_take.
    split; [| split].
    + destruct (chars (cleaned text)) as [|c l]; [by destruct max_len |].
      destruct max_len; [lia | exact Hhead].
    + by apply no_double_underscore_take.
    + intros _. split; [done |]. split; [done |].
      rewrite <- length_chars, chars_str_take, length_take, length_chars. lia.
  - split; [done |]. split; [done |]. intros H. by destruct Hlast.
Qed.

Lemma sanitize_for_dirname_underscores_witness :
  0 < 4 /\ 4 < String.length (cleaned "a/b c!!_x")
  /\ String.length (sanitize_for_dirname "a/b c!!_x" 4) = 4.
Proof.
  apply (proj2 (proj2 (sanitize_for_dirname_underscores "a/b c!!_x" 4))).
  reflexivity.
Defined.

(** ** The subdirectory name *)

Lemma dirname_chars_no_separator (s : string) :
  Forall (fun c => dirname_char c = true) (chars s) -> "/"%char ∉ chars s.
Proof.
  intros Hs Hin. rewrite Forall_forall in Hs. specialize (Hs _ Hin). discriminate Hs.
Qed.

Lemma join_underscore_chars (parts : list string) :
  Forall (fun p => Forall (fun c => dirname_char c = true) (chars p)) parts ->
  Forall (fun c => dirname_char c = true) (chars (join_underscore parts)).
Proof.
  induction parts as [|p parts IH]; intros Hparts; [constructor |].
  apply Forall_cons in Hparts as [Hp Hparts]. cbn [join_underscore].
  destruct parts as [|q parts]; [done |].
  rewrite !chars_app. apply Forall_app. split; [done |].
  apply Forall_app. split; [by repeat constructor | by apply IH].
Qed.

Lemma facet_part_chars (prefix text : string) (max_len : nat) :
  Forall (fun c => dirname_char c = true) (chars prefix) ->
  Forall (fun c => dirname_char c = true)
         (chars (prefix +:+ sanitize_for_dirname text max_len)).
Proof.
  intros Hprefix. rewrite chars_app. apply Forall_app. split; [done |].
  apply sanitize_for_dirname_chars.
Qed.

Lemma subdir_name_parts_chars (keyword category : option string) :
  Forall (fun p => Forall (fun c => dirname_char c = true) (chars p))
         (subdir_name_parts keyword category).
Proof.
  unfold subdir_name_parts. apply Forall_app. split.
  - destruct (truthy keyword); [| constructor].
    apply Forall_singleton, facet_part_chars. by repeat constructor.
  - destruct (truthy category); [| constructor].
    apply Forall_singleton, facet_part_chars. by repeat constructor.
Qed.

(** X4. The subdirectory name of a batch is never empty and is made of
    letters, digits, [_], [.] and [-] only, so it holds no path separator;
    with a keyword or a category it starts with [kw_] or [cat_].  (Without
    them it comes from the name of the batch file and can be [.] or [..]:
    see [fallback_depends_on_file].) *)
Theorem subdir_name_holds_no_separator
    (keyword category : option string) (json_file_path : string) :
  pdf_output_subdir_name keyword category json_file_path ≠ ""
  /\ Forall (fun c => dirname_char c = true)
            (chars (pdf_output_subdir_name keyword category json_file_path))
  /\ ("/"%char ∉ chars (pdf_output_subdir_name keyword category json_file_path))
  /\ (truthy keyword || truthy category = true ->
      exists rest,
        pdf_output_subdir_name keyword category json_file_path = "kw_" +:+ rest
        \/ pdf_output_subdir_name keyword category json_file_path = "cat_" +:+ rest).
Proof.
  assert (Hmain : pdf_output_subdir_name keyword category json_file_path ≠ ""
                  /\ Forall (fun c => dirname_char c = true)
                       (chars (pdf_output_subdir_name keyword category json_file_path))).
  { destruct (truthy keyword || truthy category) eqn:Hfacet.
    - rewrite subdir_name_of_facets by done. split.
      + unfold subdir_name_parts.
        destruct (truthy keyword), (truthy category); try discriminate Hfacet;
          cbn [app]; by apply join_underscore_cons_nonempty.
      + apply join_underscore_chars, subdir_name_parts_chars.
    - apply orb_false_elim in Hfacet as [Hk Hc].
      rewrite subdir_name_without_facets by done. unfold filename_fallback_name.
      case_bool_decide as Hempty.
      + split; [discriminate | by repeat constructor].
      + split; [exact Hempty | apply sanitize_for_dirname_chars]. }
  destruct Hmain as [Hne Hchars]. split; [done |]. split; [done |].
  split; [by apply dirname_chars_no_separator |].
  intros Hfacet. rewrite subdir_name_closed_form.
  destruct (truthy keyword), (truthy category); try discriminate Hfacet.
  - eexists. left. reflexivity.
  - eexists. left. reflexivity.
  - eexists. right. reflexivity.
Qed.

Lemma subdir_name_holds_no_separator_witness :
  exists rest,
    pdf_output_subdir_name (Some "graph neural nets") None "x.json" = "kw_" +:+ rest
    \/ pdf_output_subdir_name (Some "graph neural nets") None "x.json" = "cat_" +:+ rest.
Proof.
  apply (proj2 (proj2 (proj2 (subdir_name_holds_no_separator
                                (Some "graph neural nets") None "x.json")))).
  reflexivity.
Defined.

(** ** Stems *)

(** The last component of a joined path is the file name joined. *)
Lemma basename_path_join (dir name : string) :
  "/"%char ∉ chars name -> basename (path_join dir name) = name.
Proof.
  intros Hname. unfold path_join.
  destruct (reverse (chars dir)) as [|c r] eqn:Hrev.
  - unfold basename. by rewrite rfind_None.
  - assert (Hdir : chars dir = reverse r ++ [c]).
    { by rewrite <- (reverse_involutive (chars dir)), Hrev, reverse_cons. }
    case_bool_decide as Hc.
    + subst c. unfold basename.
      assert (Hp : chars (dir +:+ name) = reverse r ++ "/"%char :: chars name).
      { rewrite chars_app, Hdir, <- app_assoc. done. }
      rewrite (rfind_last _ _ _ _ Hp Hname).
      change (S (length (reverse r))) with (length ("/"%char :: reverse r)).
      replace (length ("/"%char :: reverse r)) with (length (reverse r ++ ["/"%char]))
        by (rewrite length_app; cbn; lia).
      rewrite (str_drop_app _ (reverse r ++ ["/"%char]) (chars name)).
      * apply str_chars.
      * rewrite Hp, <- app_assoc. done.
    + unfold basename.
      assert (Hp : chars (dir +:+ "/" +:+ name) = chars dir ++ "/"%char :: chars name).
      { rewrite !chars_app. done. }
      rewrite (rfind_last _ _ _ _ Hp Hname).
      replace (S (length (chars dir))) with (length (chars dir ++ ["/"%char]))
        by (rewrite length_app; cbn; lia).
      rewrite (str_drop_app _ (chars dir ++ ["/"%char]) (chars name)).
      * apply str_chars.
      * rewrite Hp, <- app_assoc. done.
Qed.

Lemma path_stem_pdf (dir name : string) :
  name ≠ "" -> "/"%char ∉ chars name ->
  path_stem (path_join dir (name +:+ ".pdf")) = name.
Proof.
  intros Hne Hname. unfold path_stem.
  rewrite basename_path_join.
  2:{ rewrite chars_app. intros [H | H]%elem_of_app; [done |].
      cbn in H. repeat (apply elem_of_cons in H as [H | H]; [discriminate H |]).
      by apply not_elem_of_nil in H. }
  assert (Hp : chars (name +:+ ".pdf") = chars name ++ "."%char :: chars "pdf").
  { by rewrite chars_app. }
  rewrite (rfind_last _ _ _ _ Hp).
  2:{ cbn. intros H. repeat (apply elem_of_cons in H as [H | H]; [discriminate H |]).
      by apply not_elem_of_nil in H. }
  assert (Hlen : String.length (name +:+ ".pdf") = String.length name + 4).
  { rewrite <- !length_chars, Hp, length_app. cbn. lia. }
  assert (Hpos : 0 < String.length name) by (destruct name; [done | cbn; lia]).
  rewrite Hlen, length_chars.
  replace (0 <? String.length name)%nat with true by (symmetry; by apply Nat.ltb_lt).
  replace (String.length name <? String.length name + 4 - 1)%nat with true
    by (symmetry; apply Nat.ltb_lt; lia).
  cbn [andb]. apply str_take_app_length.
Qed.

Lemma path_stem_target_path (sub_dir_path entry_id : string) :
  entry_id ≠ "" ->
  path_stem (target_path sub_dir_path entry_id) = sanitize_filename entry_id.
Proof.
  intros Hne. unfold target_path.
  apply path_stem_pdf; [| apply sanitize_filename_chars].
  intros Hempty. assert (Hlen := length_sanitize_filename entry_id).
  rewrite Hempty in Hlen. destruct entry_id; [done | discriminate Hlen].
Qed.

(** X5. The stem of the file the worker writes for an entry id is the
    safe id: the key under which a global scan files that path is the key
    the worker looks up. *)
Theorem path_stem_of_target_is_safe_id (sub_dir_path entry_id : string) :
  entry_id ≠ "" ->
  path_stem (target_path sub_dir_path entry_id) = sanitize_filename entry_id.
Proof. apply path_stem_target_path. Qed.

Lemma path_stem_of_target_is_safe_id_witness :
  path_stem (target_path "out/kw_x" "hep-th/9901001") = sanitize_filename "hep-th/9901001".
Proof. apply path_stem_of_target_is_safe_id. discriminate. Defined.

(* ===================================================================== *)
(** * Further properties: prober and fetch worker *)
(* ===================================================================== *)

(** X6. The prober goes over the network only when the record has a
    primary URL other than the mirror, and then probes the primary and the
    mirror once each, in that order; with a single candidate it returns it
    without a probe.  What it returns is the primary URL or the mirror. *)
Theorem prober_probes_only_two_candidates
    (measure : string -> speed) (entry_id : string) (primary_pdf_url : option string) :
  (truthy primary_pdf_url = false ->
     choose_best_download_url measure entry_id primary_pdf_url
     = (Some (export_mirror_url entry_id), []))
  /\ (primary_pdf_url = Some (export_mirror_url entry_id) ->
     choose_best_download_url measure entry_id primary_pdf_url
     = (Some (export_mirror_url entry_id), []))
  /\ (forall primary,
       primary_pdf_url = Some primary -> primary ≠ "" ->
       primary ≠ export_mirror_url entry_id ->
       (choose_best_download_url measure entry_id primary_pdf_url).2
       = [primary; export_mirror_url entry_id]
       /\ ((choose_best_download_url measure entry_id primary_pdf_url).1 = Some primary
           \/ (choose_best_download_url measure entry_id primary_pdf_url).1
              = Some (export_mirror_url entry_id))).
Proof.
  split; [| split].
  - intros Hfalsy.
    destruct (urls_to_test_cases entry_id primary_pdf_url)
      as [[_ Hu] | [[-> _] | (primary & -> & Hne & _)]].
    + unfold choose_best_download_url. by rewrite Hu.
    + by rewrite export_mirror_url_truthy in Hfalsy.
    + by rewrite (truthy_true _ Hne) in Hfalsy.
  - intros ->.
    destruct (urls_to_test_cases entry_id (Some (export_mirror_url entry_id)))
      as [[Hf _] | [[_ Hu] | (primary & [= <-] & _ & Hdiff & _)]].
    + by rewrite export_mirror_url_truthy in Hf.
    + unfold choose_best_download_url. by rewrite Hu.
    + done.
  - intros primary -> Hne Hdiff. rewrite choose_best_two by done. cbn [fst snd].
    split; [done |]. repeat case_match; auto.
Qed.

Lemma prober_probes_only_two_candidates_witness :
  choose_best_download_url (fun _ => Infinite) "2401.00001v1" None
  = (Some (export_mirror_url "2401.00001v1"), []).
Proof.
  apply (proj1 (prober_probes_only_two_candidates (fun _ => Infinite) "2401.00001v1" None)).
  reflexivity.
Defined.

(** ** The worker, branch by branch *)

Lemma download_single_pdf_no_id (env : Env) (paper_details : paper)
    (sub_dir_path download_source_preference : string) (single_file_timeout : Z) (w : World) :
  truthy (paper_details !! "entry_id") = false ->
  download_single_pdf env paper_details sub_dir_path download_source_preference
    single_file_timeout w
  = ((None, FAILED, msg_missing_entry_id (default "UnknownTitle" (paper_details !! "title"))),
     w).
Proof. intros Hid. unfold download_single_pdf. by rewrite Hid. Qed.

Lemma download_single_pdf_index_hit (env : Env) (paper_details : paper)
    (sub_dir_path download_source_preference entry_id global_path : string)
    (single_file_timeout : Z) (w : World) :
  paper_details !! "entry_id" = Some entry_id -> entry_id ≠ "" ->
  GLOBAL_EXISTING_PDFS w !! sanitize_filename entry_id = Some global_path ->
  download_single_pdf env paper_details sub_dir_path download_source_preference
    single_file_timeout w
  = (if bool_decide (resolve env global_path
                     = resolve env (target_path sub_dir_path entry_id))
     then (Some entry_id, EXISTED_SUBDIR, target_path sub_dir_path entry_id)
     else (Some entry_id, EXISTED_GLOBAL, global_path), w).
Proof.
  intros Heid Hne Hidx. unfold download_single_pdf, target_path.
  rewrite Heid, (truthy_true _ Hne). cbn [negb from_option id]. rewrite Hidx.
  by case_bool_decide.
Qed.

Lemma download_single_pdf_file_hit (env : Env) (paper_details : paper)
    (sub_dir_path download_source_preference entry_id : string)
    (single_file_timeout : Z) (w : World) (size : N) :
  paper_details !! "entry_id" = Some entry_id -> entry_id ≠ "" ->
  GLOBAL_EXISTING_PDFS w !! sanitize_filename entry_id = None ->
  files w !! target_path sub_dir_path entry_id = Some size -> (0 <? size)%N = true ->
  download_single_pdf env paper_details sub_dir_path download_source_preference
    single_file_timeout w
  = ((Some entry_id, EXISTED_SUBDIR, target_path sub_dir_path entry_id),
     mkWorld (<[sanitize_filename entry_id := target_path sub_dir_path entry_id]>
                (GLOBAL_EXISTING_PDFS w)) (files w) (network w)).
Proof.
  intros Heid Hne Hidx Hfile Hsize. unfold download_single_pdf, target_path in *.
  rewrite Heid, (truthy_true _ Hne). cbn [negb from_option id].
  by rewrite Hidx, Hfile, Hsize.
Qed.

(** What the transfer branch leaves on disk. *)
Lemma download_single_pdf_transfer_files (env : Env) (paper_details : paper)
    (sub_dir_path download_source_preference entry_id : string)
    (single_file_timeout : Z) (w : World) :
  paper_details !! "entry_id" = Some entry_id -> entry_id ≠ "" ->
  GLOBAL_EXISTING_PDFS w !! sanitize_filename entry_id = None ->
  match files w !! target_path sub_dir_path entry_id with
  | Some size => (0 <? size)%N
  | None => false
  end = false ->
  let r := download_single_pdf env paper_details sub_dir_path
             download_source_preference single_file_timeout w in
  let target := target_path sub_dir_path entry_id in
  exists url exit left_at_path,
    wget env url target single_file_timeout (files w !! target) = (exit, left_at_path)
    /\ r.1.1.2 = match exit with Completed => DOWNLOADED | _ => FAILED end
    /\ files r.2
       = match exit with
         | Completed => set_file target left_at_path (files w)
         | FileNotFoundError => files w
         | _ => remove_partial env target (set_file target left_at_path (files w))
         end
    /\ r.1.1.1 = Some entry_id
    /\ (exit = Completed -> r.1.2 = target).
Proof.
  intros Heid Hne Hidx Hfile r target. subst r target.
  unfold download_single_pdf, target_path in *.
  rewrite Heid, (truthy_true _ Hne). cbn [negb from_option id].
  rewrite Hidx, Hfile.
  pose proof (resolve_download_url_truthy env download_source_preference entry_id
                (paper_details !! "pdf_url")) as Hres.
  destruct (resolve_download_url env download_source_preference entry_id
              (paper_details !! "pdf_url")) as [download_url_to_use probed].
  cbn [fst] in Hres. rewrite Hres. cbn [negb].
  apply truthy_Some in Hres as (url & -> & Hurl). cbn [from_option id].
  destruct (wget env url _ single_file_timeout _) as [exit left_at_path] eqn:Hw.
  exists url, exit, left_at_path. split; [exact Hw |].
  clear Hw. destruct exit; cbn [fst snd files];
    (split; [reflexivity |]; split; [reflexivity |]; split; [reflexivity |]);
    (reflexivity || discriminate).
Qed.

(** The four ways a call can go. *)
Lemma download_single_pdf_cases (env : Env) (paper_details : paper)
    (sub_dir_path download_source_preference : string) (single_file_timeout : Z) (w : World) :
  truthy (paper_details !! "entry_id") = false
  \/ exists entry_id,
       paper_details !! "entry_id" = Some entry_id /\ entry_id ≠ ""
       /\ ((exists global_path,
              GLOBAL_EXISTING_PDFS w !! sanitize_filename entry_id = Some global_path)
           \/ (GLOBAL_EXISTING_PDFS w !! sanitize_filename entry_id = None
               /\ exists size, files w !! target_path sub_dir_path entry_id = Some size
                               /\ (0 <? size)%N = true)
           \/ (GLOBAL_EXISTING_PDFS w !! sanitize_filename entry_id = None
               /\ match files w !! target_path sub_dir_path entry_id with
                  | Some size => (0 <? size)%N
                  | None => false
                  end = false)).
Proof.
  destruct (truthy (paper_details !! "entry_id")) eqn:Ht; [| by left].
  right. apply truthy_Some in Ht as (entry_id & Heid & Hne). exists entry_id.
  split; [done |]. split; [done |].
  destruct (GLOBAL_EXISTING_PDFS w !! sanitize_filename entry_id) as [g|]; [left; eauto |].
  right. destruct (files w !! target_path sub_dir_path entry_id) as [size|] eqn:Hfile.
  - destruct (0 <? size)%N eqn:Hsize; [left | right]; eauto.
  - by right.
Qed.

Lemma set_file_other (path other : string) (content : option N) (fs : gmap string N) :
  other ≠ path -> set_file path content fs !! other = fs !! other.
Proof.
  intros Hne. unfold set_file. destruct content.
  - by rewrite lookup_insert_ne.
  - by rewrite lookup_delete_ne.
Qed.

Lemma remove_partial_other (env : Env) (path other : string) (fs : gmap string N) :
  other ≠ path -> remove_partial env path fs !! other = fs !! other.
Proof.
  intros Hne. unfold remove_partial. repeat case_match; try done.
  by rewrite lookup_delete_ne.
Qed.

Lemma remove_partial_target (env : Env) (path : string) (fs : gmap string N) :
  remove_fails env path = false -> remove_partial env path fs !! path = None.
Proof.
  intros Hrm. unfold remove_partial. rewrite Hrm.
  destruct (fs !! path) eqn:Hp; [apply lookup_delete_eq | exact Hp].
Qed.

(** X7. A call touches no file other than its target, only adds its own
    calls to the network trace (probes, then at most one transfer to the
    target), and a record without an entry id fails with the world as it
    was. *)
Theorem worker_frame (env : Env) (paper_details : paper)
    (sub_dir_path download_source_preference : string) (single_file_timeout : Z) (w : World) :
  let r := download_single_pdf env paper_details sub_dir_path
             download_source_preference single_file_timeout w in
  let target := target_path sub_dir_path (default "" (paper_details !! "entry_id")) in
  (forall path, path ≠ target -> files r.2 !! path = files w !! path)
  /\ (exists probed,
        network r.2 = rev (map Probe probed) ++ network w
        \/ exists url, network r.2 = Wget url target :: rev (map Probe probed) ++ network w)
  /\ (truthy (paper_details !! "entry_id") = false ->
      r.1.1.1 = None /\ r.1.1.2 = FAILED /\ r.2 = w).
Proof.
  intros r target. subst r target.
  destruct (download_single_pdf_cases env paper_details sub_dir_path
              download_source_preference single_file_timeout w)
    as [Hno | (entry_id & Heid & Hne & [[g Hidx] | [[Hidx (size & Hfile & Hsize)]
                                                   | [Hidx Hfile]]])].
  - rewrite download_single_pdf_no_id by done. cbn [fst snd].
    split; [done |]. split; [exists []; by left | done].
  - rewrite (download_single_pdf_index_hit env paper_details _ _ entry_id g) by done.
    cbn [fst snd]. split; [done |]. split; [exists []; by left |].
    intros Hno. by rewrite Heid, (truthy_true _ Hne) in Hno.
  - rewrite (download_single_pdf_file_hit env paper_details _ _ entry_id _ w size) by done.
    cbn [fst snd files network]. split; [done |]. split; [exists []; by left |].
    intros Hno. by rewrite Heid, (truthy_true _ Hne) in Hno.
  - rewrite Heid. cbn [from_option id].
    destruct (download_single_pdf_transfer env paper_details sub_dir_path
                download_source_preference entry_id single_file_timeout w Heid Hne Hidx Hfile)
      as (url & probed & exit & left_at_path & _ & _ & _ & Hnet & _).
    destruct (download_single_pdf_transfer_files env paper_details sub_dir_path
                download_source_preference entry_id single_file_timeout w Heid Hne Hidx Hfile)
      as (url' & exit' & left' & _ & _ & Hfiles & _).
    cbn zeta in Hnet, Hfiles. split; [| split].
    + intros path Hpath. rewrite Hfiles.
      destruct exit'; rewrite ?remove_partial_other, ?set_file_other by done; done.
    + exists probed. right. by exists url.
    + intros Hno. by rewrite (truthy_true _ Hne) in Hno.
Qed.

Lemma worker_frame_witness :
  (download_single_pdf sample_env paper_C "out/kw_x" "export" 300 sample_world).1.1.1 = None
  /\ (download_single_pdf sample_env paper_C "out/kw_x" "export" 300 sample_world).1.1.2
     = FAILED
  /\ (download_single_pdf sample_env paper_C "out/kw_x" "export" 300 sample_world).2
     = sample_world.
Proof.
  apply (proj2 (proj2 (worker_frame sample_env paper_C "out/kw_x" "export" 300 sample_world))).
  reflexivity.
Defined.

Lemma download_single_pdf_downloaded (env : Env) (paper_details : paper)
    (sub_dir_path download_source_preference : string) (single_file_timeout : Z) (w : World) :
  let r := download_single_pdf env paper_details sub_dir_path
             download_source_preference single_file_timeout w in
  let entry_id := default "" (paper_details !! "entry_id") in
  let target := target_path sub_dir_path entry_id in
  r.1.1.2 = DOWNLOADED ->
  r.1 = (Some entry_id, DOWNLOADED, target)
  /\ GLOBAL_EXISTING_PDFS r.2 !! sanitize_filename entry_id = Some target
  /\ exists url rest, network r.2 = Wget url target :: rest.
Proof.
  intros r entry_id target. subst r entry_id target.
  destruct (download_single_pdf_cases env paper_details sub_dir_path
              download_source_preference single_file_timeout w)
    as [Hno | (entry_id & Heid & Hne & [[g Hidx] | [[Hidx (size & Hfile & Hsize)]
                                                   | [Hidx Hfile]]])].
  - by rewrite download_single_pdf_no_id by done.
  - rewrite (download_single_pdf_index_hit env paper_details _ _ entry_id g) by done.
    cbn [fst snd]. by case_bool_decide.
  - by rewrite (download_single_pdf_file_hit env paper_details _ _ entry_id _ w size) by done.
  - rewrite Heid. cbn [from_option id].
    destruct (download_single_pdf_transfer env paper_details sub_dir_path
                download_source_preference entry_id single_file_timeout w Heid Hne Hidx Hfile)
      as (url & probed & exit & left_at_path & _ & _ & _ & Hnet & Hindex & Hstatus).
    cbn zeta in Hnet, Hindex, Hstatus.
    destruct (download_single_pdf_transfer_files env paper_details sub_dir_path
                download_source_preference entry_id single_file_timeout w Heid Hne Hidx Hfile)
      as (url' & exit' & left' & Hw' & Hstatus' & _ & Hid & Hdetail).
    cbn zeta in Hstatus', Hid, Hdetail.
    rewrite Hstatus in *.
    intros Hdl. destruct exit; try discriminate Hdl.
    assert (exit' = Completed) as -> by (rewrite Hstatus' in Hdl; by destruct exit').
    specialize (Hdetail eq_refl). split.
    + destruct (download_single_pdf _ _ _ _ _ _) as [[[i s] d] w']. cbn in *.
      by rewrite Hid, Hstatus, Hdetail.
    + rewrite Hindex, lookup_insert_eq. split; [done |]. by eexists _, _.
Qed.

(** X8. What each outcome says about the world: an EXISTED outcome means
    no file and no network call changed; DOWNLOADED means one transfer to
    the target was made and the index now maps the safe id to the target;
    FAILED means the index is as it was. *)
Theorem outcome_tells_effects (env : Env) (paper_details : paper)
    (sub_dir_path download_source_preference : string) (single_file_timeout : Z) (w : World) :
  let r := download_single_pdf env paper_details sub_dir_path
             download_source_preference single_file_timeout w in
  let entry_id := default "" (paper_details !! "entry_id") in
  let target := target_path sub_dir_path entry_id in
  (r.1.1.2 = EXISTED_SUBDIR \/ r.1.1.2 = EXISTED_GLOBAL ->
     files r.2 = files w /\ network r.2 = network w)
  /\ (r.1.1.2 = DOWNLOADED ->
      r.1 = (Some entry_id, DOWNLOADED, target)
      /\ GLOBAL_EXISTING_PDFS r.2 !! sanitize_filename entry_id = Some target
      /\ exists url rest, network r.2 = Wget url target :: rest)
  /\ (r.1.1.2 = FAILED -> GLOBAL_EXISTING_PDFS r.2 = GLOBAL_EXISTING_PDFS w).
Proof.
  intros r entry_id target. subst r entry_id target.
  destruct (download_single_pdf_cases env paper_details sub_dir_path
              download_source_preference single_file_timeout w)
    as [Hno | (entry_id & Heid & Hne & [[g Hidx] | [[Hidx (size & Hfile & Hsize)]
                                                   | [Hidx Hfile]]])].
  - rewrite download_single_pdf_no_id by done. cbn [fst snd].
    split; [by intros [? | ?] |]. split; done.
  - rewrite (download_single_pdf_index_hit env paper_details _ _ entry_id g) by done.
    cbn [fst snd]. split; [done |]. case_bool_decide; split; done.
  - rewrite (download_single_pdf_file_hit env paper_details _ _ entry_id _ w size) by done.
    cbn [fst snd files network]. split; [done |]. split; done.
  - rewrite Heid. cbn [from_option id].
    destruct (download_single_pdf_transfer env paper_details sub_dir_path
                download_source_preference entry_id single_file_timeout w Heid Hne Hidx Hfile)
      as (url & probed & exit & left_at_path & _ & _ & _ & Hnet & Hindex & Hstatus).
    cbn zeta in Hnet, Hindex, Hstatus.
    destruct (download_single_pdf_transfer_files env paper_details sub_dir_path
                download_source_preference entry_id single_file_timeout w Heid Hne Hidx Hfile)
      as (url' & exit' & left' & Hw' & Hstatus' & _ & Hid & Hdetail).
    cbn zeta in Hstatus', Hid, Hdetail.
    rewrite Hstatus in *. split; [| split].
    + intros [H | H]; destruct exit; discriminate H.
    + intros Hdl. destruct exit; try discriminate Hdl.
      assert (exit' = Completed) as -> by (rewrite Hstatus' in Hdl; by destruct exit').
      specialize (Hdetail eq_refl). split.
      * destruct (download_single_pdf _ _ _ _ _ _) as [[[i s] d] w']. cbn in *.
        by rewrite Hid, Hstatus, Hdetail.
      * rewrite Hindex, lookup_insert_eq. split; [done |]. by eexists _, _.
    + intros Hfailed. rewrite Hindex. by destruct exit.
Qed.

Lemma outcome_tells_effects_witness :
  (download_single_pdf sample_env paper_A "out/kw_x" "export" 300 sample_world).1
  = (Some "2401.00001v1", DOWNLOADED, target_path "out/kw_x" "2401.00001v1")
  /\ GLOBAL_EXISTING_PDFS
       (download_single_pdf sample_env paper_A "out/kw_x" "export" 300 sample_world).2
     !! sanitize_filename "2401.00001v1" = Some (target_path "out/kw_x" "2401.00001v1")
  /\ exists url rest,
       network (download_single_pdf sample_env paper_A "out/kw_x" "export" 300 sample_world).2
       = Wget url (target_path "out/kw_x" "2401.00001v1") :: rest.
Proof.
  apply (proj1 (proj2 (outcome_tells_effects sample_env paper_A "out/kw_x" "export" 300
                         sample_world))).
  reflexivity.
Defined.

(** X9. After a FAILED call for a record with an entry id, no partial
    file is left at the target when the removal does not fail: either the
    target holds no file, or (the transfer tool was not found) the files
    are as they were. *)
Theorem failed_fetch_leaves_no_partial_file (env : Env) (paper_details : paper)
    (sub_dir_path download_source_preference entry_id : string)
    (single_file_timeout : Z) (w : World) :
  paper_details !! "entry_id" = Some entry_id -> entry_id ≠ "" ->
  remove_fails env (target_path sub_dir_path entry_id) = false ->
  let r := download_single_pdf env paper_details sub_dir_path
             download_source_preference single_file_timeout w in
  r.1.1.2 = FAILED ->
  files r.2 !! target_path sub_dir_path entry_id = None \/ files r.2 = files w.
Proof.
  intros Heid Hne Hrm r Hfailed. subst r.
  destruct (download_single_pdf_cases env paper_details sub_dir_path
              download_source_preference single_file_timeout w)
    as [Hno | (entry_id' & Heid' & _ & [[g Hidx] | [[Hidx (size & Hfile & Hsize)]
                                                   | [Hidx Hfile]]])].
  - by rewrite Heid, (truthy_true _ Hne) in Hno.
  - assert (entry_id' = entry_id) as -> by congruence.
    rewrite (download_single_pdf_index_hit env paper_details _ _ entry_id g) in Hfailed
      by done.
    cbn in Hfailed. by case_bool_decide.
  - assert (entry_id' = entry_id) as -> by congruence.
    by rewrite (download_single_pdf_file_hit env paper_details _ _ entry_id _ w size)
      in Hfailed by done.
  - assert (entry_id' = entry_id) as -> by congruence.
    destruct (download_single_pdf_transfer_files env paper_details sub_dir_path
                download_source_preference entry_id single_file_timeout w Heid Hne Hidx Hfile)
      as (url & exit & left_at_path & _ & Hstatus & Hfiles & _).
    cbn zeta in Hstatus, Hfiles. rewrite Hfiles.
    destruct exit; try (left; by apply remove_partial_target).
    + by rewrite Hstatus in Hfailed.
    + by right.
Qed.

Lemma failed_fetch_leaves_no_partial_file_witness :
  let env := mkEnv id (fun _ => Infinite) (fun _ _ _ _ => (TimeoutExpired, Some 7%N))
                   (fun _ => false) in
  files (download_single_pdf env paper_A "out/kw_x" "export" 300 sample_world).2
    !! target_path "out/kw_x" "2401.00001v1" = None
  \/ files (download_single_pdf env paper_A "out/kw_x" "export" 300 sample_world).2
     = files sample_world.
Proof.
  intros env.
  apply (failed_fetch_leaves_no_partial_file env paper_A "out/kw_x" "export" "2401.00001v1"
           300 sample_world); [reflexivity | discriminate | reflexivity | reflexivity].
Defined.

(** X10. Once a record was DOWNLOADED, a later call for any record with
    the same safe id (the same record, or one whose id differs only by
    [/] against [_]) makes no transfer: in the same subdirectory it
    returns EXISTED_SUBDIR, and in one whose target resolves elsewhere it
    returns EXISTED_GLOBAL with the path of the first download; the world
    is left as it was. *)
Theorem downloaded_record_is_not_fetched_again
    (env env' : Env) (first again : paper)
    (sub_dir_path sub_dir_path' preference preference' entry_id' : string)
    (timeout timeout' : Z) (w : World) :
  let r := download_single_pdf env first sub_dir_path preference timeout w in
  let entry_id := default "" (first !! "entry_id") in
  r.1.1.2 = DOWNLOADED ->
  again !! "entry_id" = Some entry_id' -> entry_id' ≠ "" ->
  sanitize_filename entry_id' = sanitize_filename entry_id ->
  download_single_pdf env' again sub_dir_path' preference' timeout' r.2
  = (if bool_decide (resolve env' (target_path sub_dir_path entry_id)
                     = resolve env' (target_path sub_dir_path' entry_id'))
     then (Some entry_id', EXISTED_SUBDIR, target_path sub_dir_path' entry_id')
     else (Some entry_id', EXISTED_GLOBAL, target_path sub_dir_path entry_id), r.2).
Proof.
  intros r entry_id Hdl Heid Hne Hsafe.
  destruct (download_single_pdf_downloaded env first sub_dir_path preference timeout w Hdl)
    as (_ & Hindex & _). fold r entry_id in Hindex.
  apply download_single_pdf_index_hit; [done | done |]. by rewrite Hsafe.
Qed.

Lemma downloaded_record_is_not_fetched_again_witness :
  let r := download_single_pdf sample_env paper_A "out/kw_x" "export" 300 sample_world in
  download_single_pdf sample_env paper_A "out/kw_x" "fastest" 60 r.2
  = (if bool_decide (resolve sample_env (target_path "out/kw_x" "2401.00001v1")
                     = resolve sample_env (target_path "out/kw_x" "2401.00001v1"))
     then (Some "2401.00001v1", EXISTED_SUBDIR, target_path "out/kw_x" "2401.00001v1")
     else (Some "2401.00001v1", EXISTED_GLOBAL, target_path "out/kw_x" "2401.00001v1"), r.2).
Proof.
  intros r.
  apply (downloaded_record_is_not_fetched_again sample_env sample_env paper_A paper_A
           "out/kw_x" "out/kw_x" "export" "fastest" "2401.00001v1" 300 60 sample_world);
    [reflexivity | reflexivity | discriminate | reflexivity].
Defined.

(* ===================================================================== *)
(** * Further properties: global scan *)
(* ===================================================================== *)

Lemma foldl_scan_step (l : list string) (index : gmap string string) (k : string) :
  foldl scan_step index l !! k
  = match last (filter (fun p => path_stem p = k) l) with
    | Some p => Some p
    | None => index !! k
    end.
Proof.
  revert index. induction l as [|p l IH]; intros index; cbn [foldl]; [done |].
  rewrite IH, filter_cons. unfold scan_step.
  destruct (decide (path_stem p = k)) as [Hk | Hk].
  - rewrite last_cons. destruct (last (filter _ l)); [done |].
    subst k. apply lookup_insert_eq.
  - destruct (last (filter _ l)); [done |]. by apply lookup_insert_ne.
Qed.

Lemma scan_index_lookup (fs : DirEnv) (base_output_dir : string) (w : World) (k : string) :
  isdir fs base_output_dir = true ->
  GLOBAL_EXISTING_PDFS (scan_global_output_directory fs base_output_dir w) !! k
  = last (filter (fun p => path_stem p = k) (rglob_pdf fs base_output_dir)).
Proof.
  intros Hdir. unfold scan_global_output_directory. cbn [GLOBAL_EXISTING_PDFS].
  rewrite Hdir, foldl_scan_step, lookup_empty. by destruct (last _).
Qed.

(** X11. A global scan leaves files and network alone and rebuilds the
    index from nothing: with the directory missing the index is empty,
    otherwise a stem is mapped to the last path of the walk that has it,
    and no entry of the former index survives. *)
Theorem scan_rebuilds_index (fs : DirEnv) (base_output_dir : string) (w : World) :
  let w' := scan_global_output_directory fs base_output_dir w in
  files w' = files w /\ network w' = network w
  /\ (isdir fs base_output_dir = false -> GLOBAL_EXISTING_PDFS w' = ∅)
  /\ (isdir fs base_output_dir = true ->
      forall k, GLOBAL_EXISTING_PDFS w' !! k
                = last (filter (fun p => path_stem p = k) (rglob_pdf fs base_output_dir)))
  /\ (forall k path, GLOBAL_EXISTING_PDFS w' !! k = Some path ->
        path ∈ rglob_pdf fs base_output_dir /\ path_stem path = k).
Proof.
  intros w'. subst w'. unfold scan_global_output_directory.
  cbn [files network GLOBAL_EXISTING_PDFS].
  split; [done |]. split; [done |].
  assert (Hlookup : isdir fs base_output_dir = true ->
            forall k, foldl scan_step ∅ (rglob_pdf fs base_output_dir) !! k
                      = last (filter (fun p => path_stem p = k) (rglob_pdf fs base_output_dir))).
  { intros _ k. rewrite foldl_scan_step, lookup_empty. by destruct (last _). }
  destruct (isdir fs base_output_dir) eqn:Hdir.
  - split; [done |]. split; [intros _; by apply Hlookup |].
    intros k path. rewrite Hlookup by done. intros Hlast.
    apply last_Some_elem_of, list_elem_of_filter in Hlast. tauto.
  - split; [done |]. split; [done |]. intros k path. by rewrite lookup_empty.
Qed.

Lemma scan_rebuilds_index_witness :
  GLOBAL_EXISTING_PDFS
    (scan_global_output_directory
       (mkDirEnv (fun _ => false) (fun _ => []) (fun _ => false) (fun _ => ["out/a.pdf"]))
       "out" sample_world) = ∅.
Proof.
  apply (proj1 (proj2 (proj2 (scan_rebuilds_index
           (mkDirEnv (fun _ => false) (fun _ => []) (fun _ => false) (fun _ => ["out/a.pdf"]))
           "out" sample_world)))).
  reflexivity.
Defined.

(** X12. After a scan that met a file with the safe id of a record as
    its stem, the worker fetches nothing for that record: it returns
    EXISTED_SUBDIR when the last such path resolves to the target and
    EXISTED_GLOBAL with that path otherwise.  A file at the record's own
    target path is such a file. *)
Theorem scanned_record_is_not_fetched
    (fs : DirEnv) (env : Env) (paper_details : paper)
    (base_output_dir sub_dir_path download_source_preference entry_id : string)
    (single_file_timeout : Z) (w : World) :
  isdir fs base_output_dir = true ->
  paper_details !! "entry_id" = Some entry_id -> entry_id ≠ "" ->
  let scanned := scan_global_output_directory fs base_output_dir w in
  let target := target_path sub_dir_path entry_id in
  let same_stem :=
    filter (fun p => path_stem p = sanitize_filename entry_id)
           (rglob_pdf fs base_output_dir) in
  (forall found, last same_stem = Some found ->
     download_single_pdf env paper_details sub_dir_path download_source_preference
       single_file_timeout scanned
     = (if bool_decide (resolve env found = resolve env target)
        then (Some entry_id, EXISTED_SUBDIR, target)
        else (Some entry_id, EXISTED_GLOBAL, found), scanned))
  /\ (target ∈ rglob_pdf fs base_output_dir -> exists found, last same_stem = Some found).
Proof.
  intros Hdir Heid Hne scanned target same_stem. split.
  - intros found Hlast. apply download_single_pdf_index_hit; [done | done |].
    subst scanned. by rewrite scan_index_lookup.
  - intros Htarget.
    assert (Hin : target ∈ same_stem).
    { apply list_elem_of_filter. split; [| done].
      by apply path_stem_target_path. }
    destruct same_stem as [|p l] using rev_ind; [by apply not_elem_of_nil in Hin |].
    exists p. apply last_snoc.
Qed.

Lemma scanned_record_is_not_fetched_witness :
  exists found,
    last (filter (fun p => path_stem p = sanitize_filename "2401.00001v1")
                 (rglob_pdf sample_dir "out")) = Some found.
Proof.
  apply (proj2 (scanned_record_is_not_fetched sample_dir sample_env paper_A "out" "out/kw_x"
                  "export" "2401.00001v1" 300 sample_world eq_refl eq_refl
                  ltac:(discriminate))).
  left.
Defined.

(* ===================================================================== *)
(** * Further properties: the retry target *)
(* ===================================================================== *)

Lemma or_else_truthy (a b : option string) : truthy a = true -> or_else a b = a.
Proof. intros Ha. unfold or_else. by rewrite Ha. Qed.

Lemma or_else_falsy (a b : option string) : truthy a = false -> or_else a b = b.
Proof. intros Ha. unfold or_else. by rewrite Ha. Qed.

Lemma subdir_name_parts_nonempty (keyword category : option string) :
  truthy keyword || truthy category = true ->
  exists p rest, subdir_name_parts keyword category = p :: rest /\ p ≠ "".
Proof.
  intros Hfacet. unfold subdir_name_parts.
  destruct (truthy keyword), (truthy category); try discriminate Hfacet; cbn [app];
    eexists _, _; (split; [reflexivity | discriminate]).
Qed.

(** The target with the facets it ends up using. *)
Lemma determine_target_subdir_facets (env : BatchEnv) (p : paper)
    (base_output_dir default_subdir_name : string) (keyword category : option string) :
  (let original_input_json_path := p !! "_original_input_json" in
   let from_original :=
     if truthy original_input_json_path then
       match load_json env (default "" original_input_json_path) with
       | Loaded original_data => (query_keyword original_data, query_category original_data)
       | _ => (None, None)
       end
     else (None, None) in
   or_else from_original.1 (p !! "keyword_from_query") = keyword
   /\ or_else from_original.2
        (or_else (p !! "category_from_query") (p !! "primary_category")) = category) ->
  determine_target_subdir env p base_output_dir default_subdir_name
  = path_join base_output_dir
      (if truthy keyword || truthy category
       then join_underscore (subdir_name_parts keyword category)
       else default_subdir_name).
Proof.
  cbn zeta. intros [Hk Hc]. unfold determine_target_subdir.
  destruct (if truthy (p !! "_original_input_json") then _ else _) as [k0 c0].
  cbn [fst snd] in Hk, Hc. rewrite Hk, Hc. f_equal.
  destruct (truthy keyword || truthy category) eqn:Hfacet.
  - destruct (subdir_name_parts_nonempty keyword category Hfacet) as (q & rest & Hparts & Hq).
    rewrite Hparts.
    assert (Hfilter : filter_nonempty (subdir_name_parts keyword category)
                      = subdir_name_parts keyword category).
    { unfold subdir_name_parts, filter_nonempty.
      destruct (truthy keyword), (truthy category); done. }
    rewrite <- Hparts, Hfilter, Hparts.
    rewrite bool_decide_eq_false_2; [done |]. by apply join_underscore_cons_nonempty.
  - apply orb_false_elim in Hfacet as [Hkf Hcf].
    unfold subdir_name_parts. by rewrite Hkf, Hcf.
Qed.

(** X13. A failure record of a batch whose file is still readable and
    names both a keyword and a category is retried into the very
    subdirectory the batch was downloaded to. *)
Theorem retry_target_is_batch_subdir (env : BatchEnv) (original : paper)
    (reason json_file_path base_output_dir default_subdir_name : string) (data : batch_doc) :
  json_file_path ≠ "" ->
  load_json env json_file_path = Loaded data ->
  truthy (query_keyword data) = true -> truthy (query_category data) = true ->
  determine_target_subdir env (failure_record original reason json_file_path)
    base_output_dir default_subdir_name
  = path_join base_output_dir
      (pdf_output_subdir_name (query_keyword data) (query_category data) json_file_path).
Proof.
  intros Hpath Hload Hk Hc.
  rewrite (determine_target_subdir_facets env _ base_output_dir default_subdir_name
             (query_keyword data) (query_category data)).
  - rewrite Hk, Hc. cbn [orb]. rewrite subdir_name_of_facets; [done |].
    by rewrite Hk.
  - cbn zeta. unfold failure_record. rewrite lookup_insert_eq, (truthy_true _ Hpath).
    cbn [from_option id]. rewrite Hload. cbn [fst snd].
    by rewrite !or_else_truthy.
Qed.

Lemma retry_target_is_batch_subdir_witness :
  determine_target_subdir (sample_pool false)
    (failure_record paper_A "wget failed" "q/result.json") "out" "retry_downloads"
  = path_join "out"
      (pdf_output_subdir_name (query_keyword sample_batch) (query_category sample_batch)
         "q/result.json").
Proof.
  apply (retry_target_is_batch_subdir (sample_pool false) paper_A "wget failed"
           "q/result.json" "out" "retry_downloads" sample_batch);
    [discriminate | reflexivity | reflexivity | reflexivity].
Defined.

(** X14. Without a facet in the batch file (or without a readable batch
    file) and without facet fields of its own, a record is retried into
    the default subdirectory, whatever the name of the batch file: the
    retry does not fall back to the file name as the download does. *)
Theorem retry_target_without_facets (env : BatchEnv) (p : paper)
    (base_output_dir default_subdir_name : string) :
  (truthy (p !! "_original_input_json") = false
   \/ match load_json env (default "" (p !! "_original_input_json")) with
      | Loaded data => truthy (query_keyword data) = false /\ truthy (query_category data) = false
      | _ => True
      end) ->
  truthy (p !! "keyword_from_query") = false ->
  truthy (p !! "category_from_query") = false ->
  truthy (p !! "primary_category") = false ->
  determine_target_subdir env p base_output_dir default_subdir_name
  = path_join base_output_dir default_subdir_name.
Proof.
  intros Horiginal Hk Hc Hpc.
  set (keyword := p !! "keyword_from_query").
  set (category := p !! "primary_category").
  rewrite (determine_target_subdir_facets env p base_output_dir default_subdir_name
             keyword category).
  - subst keyword category. by rewrite Hk, Hpc.
  - cbn zeta. subst keyword category.
    destruct (truthy (p !! "_original_input_json")) eqn:Hpath.
    + destruct Horiginal as [? | Hload]; [done |].
      destruct (load_json env _) as [| |data]; cbn [fst snd];
        rewrite ?(or_else_falsy None), ?(or_else_falsy (p !! "category_from_query")) by done;
        try done.
      destruct Hload as [Hkd Hcd].
      by rewrite !or_else_falsy.
    + cbn [fst snd]. by rewrite !or_else_falsy.
Qed.

Lemma retry_target_without_facets_witness :
  determine_target_subdir (sample_pool false) paper_C "out" "retry_downloads"
  = path_join "out" "retry_downloads".
Proof.
  apply (retry_target_without_facets (sample_pool false) paper_C "out" "retry_downloads");
    [by left | reflexivity | reflexivity | reflexivity].
Defined.

(* ===================================================================== *)
(** * Further properties: batch orchestrator and directory mode *)
(* ===================================================================== *)

Lemma collect_returned (json_file_path : string) (paper_map : gmap string paper)
    (acc : subdir_metadata * list paper) (f : future) :
  (collect json_file_path paper_map acc f).2
  = acc.2 ++ option_list (batch_failure json_file_path paper_map f).
Proof.
  destruct acc as [m failed], f as [eid [[[pid status] detail] | exc]];
    unfold collect, batch_failure; cbn [fst snd].
  - destruct status; cbn [option_list]; rewrite ?app_nil_r; try done.
    by destruct (found_record (paper_map !! eid)); cbn; rewrite ?app_nil_r.
  - by destruct (found_record (paper_map !! eid)); cbn; rewrite ?app_nil_r.
Qed.

Lemma collect_failed_count (json_file_path : string) (paper_map : gmap string paper)
    (acc : subdir_metadata * list paper) (f : future) :
  failed_download_count (collect json_file_path paper_map acc f).1
  = failed_download_count acc.1 + (if future_failed f then 1 else 0).
Proof.
  destruct acc as [m failed], f as [eid [[[pid status] detail] | exc]];
    unfold collect, future_failed; cbn [fst snd].
  - destruct status; try destruct (found_record (paper_map !! eid)); cbn; lia.
  - destruct (found_record (paper_map !! eid)); cbn; lia.
Qed.

Lemma foldl_collect_returned (json_file_path : string) (paper_map : gmap string paper)
    (fs : list future) (acc : subdir_metadata * list paper) :
  (foldl (collect json_file_path paper_map) acc fs).2
  = acc.2 ++ omap (batch_failure json_file_path paper_map) fs
  /\ failed_download_count (foldl (collect json_file_path paper_map) acc fs).1
     = failed_download_count acc.1 + length (filter (fun f => future_failed f = true) fs).
Proof.
  revert acc. induction fs as [|f fs IH]; intros acc; cbn [foldl].
  - rewrite app_nil_r. split; [done | cbn; lia].
  - destruct (IH (collect json_file_path paper_map acc f)) as [-> ->].
    rewrite collect_returned, collect_failed_count, filter_cons. cbn [omap list_omap].
    split.
    + rewrite <- app_assoc. by destruct (batch_failure json_file_path paper_map f).
    + destruct (future_failed f); [rewrite decide_True by done | rewrite decide_False by done];
        cbn [length]; lia.
Qed.

Lemma build_paper_map_complete (ps : list paper) (p : paper) (k : string) :
  p ∈ ps -> entry_id_of p = Some k -> k ≠ "" -> is_Some (build_paper_map ps !! k).
Proof.
  intros Hin Hid Hk. unfold build_paper_map.
  assert (Hgen : forall m : gmap string paper,
             is_Some (m !! k) \/ p ∈ ps ->
             is_Some (foldl (fun m p => if has_entry_id p
                                        then <[default "" (entry_id_of p) := p]> m else m)
                            m ps !! k)).
  { clear Hin. induction ps as [|q ps IH]; intros m; cbn [foldl].
    - intros [H | H]; [done | by apply not_elem_of_nil in H].
    - intros Hcases. apply IH.
      destruct Hcases as [Hm | [-> | Hps]%elem_of_cons]; [| | by right].
      + left. destruct (has_entry_id q); [| done].
        destruct (decide (default "" (entry_id_of q) = k)) as [-> | Hne].
        * rewrite lookup_insert_eq. by eexists.
        * by rewrite lookup_insert_ne.
      + left. rewrite (proj2 (has_entry_id_true q)) by eauto. rewrite Hid.
        cbn [from_option id]. rewrite lookup_insert_eq. by eexists. }
  apply Hgen. by right.
Qed.

Lemma elem_of_submit_all (env : BatchEnv) (pdf_output_subdir : string) (ps : list paper)
    (f : future) :
  f ∈ submit_all env pdf_output_subdir ps ->
  exists i p, p ∈ ps /\ has_entry_id p = true
              /\ f = (default "" (entry_id_of p), run_worker env i p pdf_output_subdir).
Proof.
  unfold submit_all. intros (i & p & -> & Hp)%elem_of_lookup_imap.
  exists i, p. apply list_elem_of_lookup_2, list_elem_of_filter in Hp as [Hid Hin].
  done.
Qed.

(** A submitted future that failed gives a failure record, one that did
    not gives none. *)
Lemma batch_failure_of_submitted (env : BatchEnv) (json_file_path pdf_output_subdir : string)
    (ps : list paper) (f : future) :
  f ∈ submit_all env pdf_output_subdir ps ->
  is_Some (batch_failure json_file_path (build_paper_map ps) f) <-> future_failed f = true.
Proof.
  intros (i & p & Hin & Hid & ->)%elem_of_submit_all.
  apply has_entry_id_true in Hid as (k & Hid & Hk). rewrite Hid. cbn [from_option id].
  destruct (build_paper_map_complete ps p k Hin Hid Hk) as [q Hq].
  assert (Hfound : found_record (build_paper_map ps !! k) = Some q).
  { rewrite Hq. cbn. apply build_paper_map_lookup in Hq as (_ & Hqid & _).
    rewrite bool_decide_eq_false_2; [done |]. by eapply paper_with_id_nonempty. }
  unfold batch_failure, future_failed. cbn [fst snd].
  destruct (run_worker env i p pdf_output_subdir) as [[[pid status] detail] | exc].
  - destruct status; rewrite ?Hfound; cbn; split; (done || by eexists || by intros []).
  - rewrite Hfound. cbn. split; [done | by eexists].
Qed.

Lemma length_omap_filter {A B : Type} (g : A -> option B) (failed : A -> bool) (l : list A) :
  (forall x, x ∈ l -> is_Some (g x) <-> failed x = true) ->
  length (omap g l) = length (filter (fun x => failed x = true) l).
Proof.
  induction l as [|x l IH]; intros Hl; [done |].
  cbn [omap list_omap]. rewrite filter_cons.
  assert (Hx := Hl x ltac:(by left)).
  assert (IH' := IH ltac:(intros; apply Hl; by right)).
  destruct (g x) eqn:Hg, (failed x) eqn:Hf.
  - rewrite decide_True by done. cbn [length]. by f_equal.
  - exfalso. assert (false = true) by (apply Hx; by eexists). done.
  - exfalso. destruct (proj2 Hx eq_refl) as [? ?]. done.
  - by rewrite decide_False.
Qed.

(** X15. Past the creation of the subdirectory the orchestrator returns
    one failure record per future that failed or raised, in the order the
    futures complete, and none for the others; the failed count of the
    metadata it writes is the number of records it returns. *)
Theorem orchestrator_returns_one_record_per_failure
    (env : BatchEnv) (json_file_path base_output_dir : string) (data : batch_doc) :
  (forall fs, as_completed env fs ≡ₚ fs) ->
  load_json env json_file_path = Loaded data ->
  papers data ≠ [] ->
  let pdf_output_subdir :=
    path_join base_output_dir
      (pdf_output_subdir_name (query_keyword data) (query_category data) json_file_path) in
  makedirs_fails env pdf_output_subdir = false ->
  let futures := submit_all env pdf_output_subdir (papers data) in
  let result := download_pdfs_from_json env json_file_path base_output_dir in
  returned result
  = omap (batch_failure json_file_path (build_paper_map (papers data)))
         (as_completed env futures)
  /\ length (returned result) = length (filter (fun f => future_failed f = true) futures)
  /\ (forall file metadata,
        metadata_file result = Some (file, metadata) ->
        failed_download_count metadata = length (returned result)).
Proof.
  intros Hperm Hload Hpapers pdf_output_subdir Hmk futures result. subst result.
  rewrite (download_pdfs_from_json_run env json_file_path base_output_dir data Hload Hpapers Hmk).
  fold pdf_output_subdir futures. cbn [returned metadata_file].
  match goal with |- context [foldl (collect _ ?m) ?a ?l] =>
    destruct (foldl_collect_returned json_file_path m l a) as [Hret Hcount] end.
  rewrite Hret. cbn [snd app].
  assert (Hlen : length (omap (batch_failure json_file_path (build_paper_map (papers data)))
                           (as_completed env futures))
                 = length (filter (fun f => future_failed f = true) futures)).
  { rewrite (length_omap_filter _ future_failed).
    - by rewrite (Hperm futures).
    - intros f Hf. rewrite (Hperm futures) in Hf.
      by eapply batch_failure_of_submitted. }
  split; [done |]. split; [exact Hlen |].
  intros file metadata. case_match; [done |]. intros [= _ <-].
  rewrite Hcount, Hlen. cbn. by rewrite (Hperm futures).
Qed.

Lemma orchestrator_returns_one_record_per_failure_witness :
  length (returned (download_pdfs_from_json (sample_pool false) "q/result.json" "out"))
  = length (filter (fun f => future_failed f = true)
              (submit_all (sample_pool false)
                 (path_join "out"
                    (pdf_output_subdir_name (query_keyword sample_batch)
                       (query_category sample_batch) "q/result.json"))
                 (papers sample_batch))).
Proof.
  apply (proj1 (proj2 (orchestrator_returns_one_record_per_failure (sample_pool false)
           "q/result.json" "out" sample_batch (fun fs => reverse_Permutation fs)
           eq_refl ltac:(discriminate) eq_refl))).
Defined.

(** ** Directory mode *)

Lemma process_file_app (pool_of : string -> BatchEnv)
    (input_json_dir base_pdf_output_dir : string) (overall : list paper) (name : string) :
  process_file pool_of input_json_dir base_pdf_output_dir overall name
  = overall
    ++ returned (download_pdfs_from_json (pool_of (path_join input_json_dir name))
                   (path_join input_json_dir name) base_pdf_output_dir).
Proof.
  unfold process_file. destruct (returned _); [by rewrite app_nil_r | done].
Qed.

Lemma foldl_process_file (pool_of : string -> BatchEnv)
    (input_json_dir base_pdf_output_dir : string) (names : list string) (overall : list paper) :
  foldl (process_file pool_of input_json_dir base_pdf_output_dir) overall names
  = overall
    ++ concat ((fun name =>
                  returned (download_pdfs_from_json (pool_of (path_join input_json_dir name))
                              (path_join input_json_dir name) base_pdf_output_dir))
               <$> names).
Proof.
  revert overall. induction names as [|name names IH]; intros overall; cbn [foldl].
  - by rewrite app_nil_r.
  - rewrite IH, process_file_app. cbn. by rewrite <- app_assoc.
Qed.

(** X17. Directory mode returns the failures of every batch file of the
    directory, batch after batch in listing order: a failure is returned
    exactly when some listed regular file ending in [.json] has it among
    the failures of its batch, and nothing is returned for a path that is
    not a directory. *)
Theorem process_directory_collects_every_batch
    (fs : DirEnv) (pool_of : string -> BatchEnv) (input_json_dir base_pdf_output_dir : string) :
  process_directory fs pool_of input_json_dir base_pdf_output_dir
  = (if isdir fs input_json_dir
     then concat ((fun name =>
                     returned (download_pdfs_from_json
                                 (pool_of (path_join input_json_dir name))
                                 (path_join input_json_dir name) base_pdf_output_dir))
                  <$> json_files_list fs input_json_dir)
     else [])
  /\ (forall r,
        r ∈ process_directory fs pool_of input_json_dir base_pdf_output_dir <->
        isdir fs input_json_dir = true
        /\ exists name,
             name ∈ listdir fs input_json_dir
             /\ ends_with ".json" name = true
             /\ isfile fs (path_join input_json_dir name) = true
             /\ r ∈ returned (download_pdfs_from_json
                                (pool_of (path_join input_json_dir name))
                                (path_join input_json_dir name) base_pdf_output_dir)).
Proof.
  assert (Hclosed : process_directory fs pool_of input_json_dir base_pdf_output_dir
                    = if isdir fs input_json_dir
                      then concat ((fun name =>
                             returned (download_pdfs_from_json
                                         (pool_of (path_join input_json_dir name))
                                         (path_join input_json_dir name) base_pdf_output_dir))
                           <$> json_files_list fs input_json_dir)
                      else []).
  { unfold process_directory. destruct (isdir fs input_json_dir); [| done]. cbn [negb].
    destruct (json_files_list fs input_json_dir) as [|name names] eqn:Hnames; [done |].
    by rewrite foldl_process_file. }
  split; [exact Hclosed |]. intros r. rewrite Hclosed.
  destruct (isdir fs input_json_dir).
  - rewrite list_elem_of_In, in_concat. split.
    + intros (l & (name & -> & Hname)%list_elem_of_In%list_elem_of_fmap & Hr%list_elem_of_In).
      apply list_elem_of_filter in Hname as [Hok Hin].
      apply andb_prop in Hok as [Hjson Hfile].
      split; [done |]. by exists name.
    + intros (_ & name & Hin & Hjson & Hfile & Hr).
      eexists. split; [| apply list_elem_of_In; exact Hr].
      apply list_elem_of_In, list_elem_of_fmap. exists name. split; [done |].
      apply list_elem_of_filter. split; [| done]. by rewrite Hjson, Hfile.
  - split; [by intros ?%not_elem_of_nil | by intros [? _]].
Qed.

(* ===================================================================== *)
(** * Further properties: the merge into the failure ledger *)
(* ===================================================================== *)

Lemma identities_app (l1 l2 : list paper) :
  identities (l1 ++ l2) = identities l1 ++ identities l2.
Proof. unfold identities. by rewrite filter_app, fmap_app. Qed.

Lemma identities_no_id (l : list paper) :
  Forall (fun p => has_entry_id p = false) l -> identities l = [].
Proof.
  induction 1 as [|p l Hp _ IH]; [done |].
  unfold identities in *. rewrite filter_cons, decide_False by congruence. exact IH.
Qed.

Lemma elem_of_identities (ps : list paper) (k : string) :
  k ∈ identities ps <-> exists p, p ∈ ps /\ entry_id_of p = Some k /\ k ≠ "".
Proof.
  unfold identities. rewrite list_elem_of_fmap. split.
  - intros (p & -> & [Hid Hin]%list_elem_of_filter).
    apply has_entry_id_true in Hid as (k & Hid & Hk).
    exists p. rewrite Hid. done.
  - intros (p & Hin & Hid & Hk). exists p. rewrite Hid. split; [done |].
    apply list_elem_of_filter. split; [| done]. apply has_entry_id_true. eauto.
Qed.

Lemma identities_values (d : odict) : odict_ok d -> identities d.*2 = d.*1.
Proof.
  intros [_ Hall]. induction Hall as [|[k p] d [Hid Hk] _ IH]; [done |].
  cbn [fst snd] in Hid, Hk. unfold identities in *.
  cbn [fmap list_fmap fst snd]. rewrite filter_cons.
  rewrite decide_True by (apply has_entry_id_true; eauto).
  cbn [fmap list_fmap]. rewrite Hid. cbn [from_option id]. f_equal. exact IH.
Qed.

Lemma records_of_nonempty (k : string) (ps : list paper) :
  records_of k ps ≠ [] <-> exists p, p ∈ ps /\ entry_id_of p = Some k.
Proof.
  unfold records_of. split.
  - intros Hne. destruct (filter _ ps) as [|p l] eqn:Hf; [done |].
    assert (Hp : p ∈ filter (fun p => entry_id_of p = Some k) ps)
      by (rewrite Hf; by left).
    apply list_elem_of_filter in Hp as [? ?]. eauto.
  - intros (p & Hin & Hid) Hnil.
    assert (Hp : p ∈ filter (fun p => entry_id_of p = Some k) ps)
      by (by apply list_elem_of_filter).
    rewrite Hnil in Hp. by apply not_elem_of_nil in Hp.
Qed.

Lemma odict_of_papers_keys (ps : list paper) (k : string) :
  k ∈ (odict_of_papers ps).*1 <-> k ∈ identities ps.
Proof.
  assert (Hok := odict_of_papers_ok ps).
  rewrite <- odict_get_is_Some, elem_of_identities. split.
  - intros [v Hv].
    assert (Hk : k ≠ "").
    { apply odict_get_Some_elem in Hv. destruct Hok as [_ Hall].
      rewrite Forall_forall in Hall. by destruct (Hall _ Hv). }
    rewrite odict_get_of_papers in Hv by done.
    assert (Hne : records_of k ps ≠ []) by (intros Hnil; by rewrite Hnil in Hv).
    apply records_of_nonempty in Hne as (p & Hin & Hid). eauto.
  - intros (p & Hin & Hid & Hk). rewrite odict_get_of_papers by done.
    assert (Hne : records_of k ps ≠ []) by (apply records_of_nonempty; eauto).
    destruct (records_of k ps) as [|q l] using rev_ind; [done |].
    rewrite last_snoc. by eexists.
Qed.

Lemma updated_papers_list_identities (f : ledger_file) (new : list paper) :
  NoDup (identities (updated_papers_list f new))
  /\ (forall k, k ∈ identities (updated_papers_list f new)
                <-> k ∈ identities (papers_of f) \/ k ∈ identities new).
Proof.
  destruct (merged_shape f new)
    as (added & extra & -> & _ & Hok & Hextra & Hadded & Hnew & _ & _).
  rewrite identities_app, (identities_no_id extra Hextra), app_nil_r,
    (identities_values _ Hok).
  split; [apply Hok |]. intros k. rewrite fmap_app, elem_of_app, odict_of_papers_keys.
  split.
  - intros [Hk | Hk]; [by left |]. right.
    apply list_elem_of_fmap in Hk as ([k' p] & -> & Hkp). cbn [fst].
    apply elem_of_identities. exists p. split; [by eapply Hadded |].
    destruct Hok as [_ Hall]. rewrite Forall_forall in Hall.
    apply (Hall (k', p)). apply elem_of_app. by right.
  - intros [Hk | Hk]; [by left |].
    apply elem_of_identities in Hk as (p & Hin & Hid & Hk).
    specialize (Hnew p k Hin Hid Hk). rewrite fmap_app, elem_of_app in Hnew.
    by rewrite odict_of_papers_keys in Hnew.
Qed.

Lemma updated_papers_list_provenance (f : ledger_file) (new : list paper) (p : paper) :
  p ∈ updated_papers_list f new -> p ∈ papers_of f \/ p ∈ new.
Proof.
  destruct (merged_shape f new)
    as (added & extra & -> & _ & Hok & _ & Hadded & _ & Hextra & _).
  rewrite elem_of_app. intros [Hp | Hp].
  - apply list_elem_of_fmap in Hp as ([k q] & -> & Hkq). cbn [snd].
    apply elem_of_app in Hkq as [Hkq | Hkq]; [| right; by eapply Hadded].
    left. assert (Hokd := odict_of_papers_ok (papers_of f)).
    assert (Hk : entry_id_of q = Some k /\ k ≠ "").
    { destruct Hokd as [_ Hall]. rewrite Forall_forall in Hall. exact (Hall _ Hkq). }
    assert (Hget : odict_get k (odict_of_papers (papers_of f)) = Some q).
    { destruct (odict_get k (odict_of_papers (papers_of f))) as [q'|] eqn:Hg.
      - apply odict_get_Some_elem in Hg. destruct Hokd as [Hnd _].
        f_equal. symmetry.
        assert (Hfst : forall (d : odict), NoDup d.*1 -> (k, q) ∈ d -> (k, q') ∈ d -> q = q').
        { clear. induction d as [|[k0 q0] d IH]; intros Hnd H1 H2;
            [by apply not_elem_of_nil in H1 |].
          cbn in Hnd. apply NoDup_cons in Hnd as [Hk0 Hnd].
          apply elem_of_cons in H1 as [H1 | H1]; apply elem_of_cons in H2 as [H2 | H2].
          - congruence.
          - exfalso. apply Hk0. apply list_elem_of_fmap. exists (k, q').
            split; [cbn; congruence | done].
          - exfalso. apply Hk0. apply list_elem_of_fmap. exists (k, q).
            split; [cbn; congruence | done].
          - by apply IH. }
        by eapply Hfst.
      - apply odict_get_None in Hg. exfalso. apply Hg.
        apply list_elem_of_fmap. by exists (k, q). }
    rewrite odict_get_of_papers in Hget by apply Hk.
    apply last_Some in Hget as [l Hl].
    assert (Hq : q ∈ records_of k (papers_of f)) by (rewrite Hl, elem_of_app; right; by left).
    by apply list_elem_of_filter in Hq as [_ ?].
  - apply Hextra, elem_of_app in Hp as [Hp | Hp]; [by left |].
    right. by apply list_elem_of_filter in Hp as [_ ?].
Qed.

(** X18. The merged record list holds every identity at most once; its
    identities are those of the ledger together with those of the new
    failures; and each of its records is a record of the ledger or one of
    the new failures. *)
Theorem merged_ledger_is_union_of_identities (f : ledger_file) (new : list paper) :
  NoDup (identities (updated_papers_list f new))
  /\ (forall k, k ∈ identities (updated_papers_list f new)
                <-> k ∈ identities (papers_of f) \/ k ∈ identities new)
  /\ (forall p, p ∈ updated_papers_list f new -> p ∈ papers_of f \/ p ∈ new).
Proof.
  destruct (updated_papers_list_identities f new) as [Hnd Hids].
  split; [exact Hnd |]. split; [exact Hids |].
  intros p. apply updated_papers_list_provenance.
Qed.

Lemma foldl_merge_failure_get (k : string) (new : list paper) (m : odict) (c : nat)
    (e : list paper) :
  k ≠ "" ->
  odict_get k (foldl merge_failure (m, c, e) new).1.1
  = match odict_get k m with
    | Some v => Some v
    | None => head (records_of k new)
    end.
Proof.
  intros Hk. revert m c e. induction new as [|p new IH]; intros m c e; cbn [foldl].
  - cbn. by destruct (odict_get k m).
  - unfold records_of. rewrite filter_cons. fold (records_of k new).
    destruct (merge_failure_cases m c e p)
      as [(k' & Hid & Hk' & Hfresh & ->) | [(k' & Hid & Hk' & Hin & ->) | [Hno ->]]];
      rewrite IH.
    + rewrite odict_get_app. cbn [odict_get].
      destruct (decide (k' = k)) as [-> | Hne].
      * apply odict_get_None in Hfresh. rewrite Hfresh.
        rewrite bool_decide_eq_true_2 by done. by rewrite decide_True.
      * rewrite bool_decide_eq_false_2 by done.
        rewrite decide_False by congruence. by destruct (odict_get k m).
    + destruct (decide (k' = k)) as [-> | Hne].
      * apply odict_get_is_Some in Hin as [v ->]. done.
      * by rewrite decide_False by congruence.
    + rewrite decide_False; [done |]. by apply has_entry_id_false.
Qed.

(** X19. For every identity the merged list holds at most one record:
    the one the ledger had for it (the last, if it had several), else the
    first of the new failures that carries it. *)
Theorem merge_keeps_ledger_record_else_first_failure
    (f : ledger_file) (new : list paper) (k : string) :
  k ≠ "" ->
  records_of k (updated_papers_list f new)
  = option_list (match last (records_of k (papers_of f)) with
                 | Some v => Some v
                 | None => head (records_of k new)
                 end).
Proof.
  intros Hk. unfold updated_papers_list, merged.
  assert (Hget := foldl_merge_failure_get k new (odict_of_papers (papers_of f)) 0
                    (papers_of f) Hk).
  destruct (foldl_merge_failure new (odict_of_papers (papers_of f)) 0 (papers_of f)
              (odict_of_papers_ok _)) as (added & Heq & Hok & _).
  rewrite Heq in Hget |- *. cbn [fst snd] in Hget |- *.
  destruct (foldl_readd_without_id
              (papers_of f ++ filter (fun p => has_entry_id p = false) new)
              (odict_values (odict_of_papers (papers_of f) ++ added)))
    as (extra & -> & Hextra & _).
  rewrite records_of_app, (records_of_no_id k extra Hk Hextra), app_nil_r.
  unfold odict_values. rewrite (records_of_values k _ Hok), Hget.
  by rewrite (odict_get_of_papers k _ Hk).
Qed.

Lemma merge_keeps_ledger_record_else_first_failure_witness :
  records_of "hep-th/9901001"
    (updated_papers_list (Document sample_ledger) [paper_B; paper_B_again])
  = option_list
      (match last (records_of "hep-th/9901001" (papers_of (Document sample_ledger))) with
       | Some v => Some v
       | None => head (records_of "hep-th/9901001" [paper_B; paper_B_again])
       end).
Proof.
  apply (merge_keeps_ledger_record_else_first_failure (Document sample_ledger)
           [paper_B; paper_B_again] "hep-th/9901001").
  discriminate.
Defined.

(** X20. After [append_to_failed_log] with a successful write the
    ledger holds the identity of every new failure that carries one,
    whether the file was rewritten or left as it was; when the write
    fails the ledger is what it was before. *)
Theorem new_failures_are_on_the_ledger
    (now : string) (f : ledger_file) (new : list paper) :
  (forall k, k ∈ identities new ->
             k ∈ identities (papers_of (append_to_failed_log now false f new)))
  /\ append_to_failed_log now true f new = f.
Proof.
  split.
  - intros k Hk.
    destruct new as [|p0 new0] eqn:Hnew; [by apply not_elem_of_nil in Hk |].
    rewrite <- Hnew in *.
    rewrite append_to_failed_log_nonempty by (rewrite Hnew; done).
    destruct (updated_papers_list_identities f new) as [_ Hids].
    destruct ((0 <? newly_added_count f new)%nat || negb (file_exists f)) eqn:Hwrite.
    + cbn [papers_of ledger_papers]. apply Hids. by right.
    + apply orb_false_elim in Hwrite as [Hcount _]. apply Nat.ltb_ge in Hcount.
      destruct (merged_shape f new)
        as (added & extra & _ & Hc & _ & _ & _ & Hin & _ & _).
      assert (added = []) as -> by (apply length_zero_iff_nil; lia).
      rewrite app_nil_r in Hin.
      apply elem_of_identities in Hk as (p & Hp & Hid & Hne).
      apply odict_of_papers_keys. by eapply Hin.
  - unfold append_to_failed_log. destruct new; [done |].
    by destruct ((0 <? _)%nat || _).
Qed.

(* ===================================================================== *)
(** * Further properties: the retry pass *)
(* ===================================================================== *)

Lemma same_but_retry_fields_refl (p : paper) : same_but_retry_fields p p.
Proof. by intros key _ _. Qed.

Lemma mark_same_but_retry_fields (reason ts : string) (s p : paper) :
  same_but_retry_fields s p -> same_but_retry_fields (mark_retry_failed reason ts s) p.
Proof.
  intros Hsp key H1 H2. unfold mark_retry_failed.
  rewrite lookup_insert_ne by done. rewrite lookup_insert_ne by done. by apply Hsp.
Qed.

Lemma same_but_retry_fields_entry_id (q p : paper) :
  same_but_retry_fields q p -> entry_id_of q = entry_id_of p.
Proof. intros Hqp. unfold entry_id_of. by apply Hqp. Qed.

Lemma collect_retry_same_but (env : RetryEnv) (ref_map : gmap string nat) (ps : list paper)
    (store : list paper) (refs : list nat) (kf : nat * future) :
  Forall2 same_but_retry_fields store ps ->
  Forall2 same_but_retry_fields (collect_retry env ref_map (store, refs) kf).1 ps.
Proof.
  intros Hall. unfold collect_retry. destruct kf as [k f].
  destruct (retry_failure_reason f.2) as [reason|]; [| done].
  destruct (ref_map !! f.1) as [ref|]; [| done].
  destruct (store !! ref) as [s|] eqn:Hs; cbn [found_record]; [| done].
  case_bool_decide; [done |]. cbn [fst].
  destruct (Forall2_lookup_l _ _ _ _ _ Hall Hs) as (p & Hp & Hsp).
  rewrite <- (list_insert_id ps ref p Hp).
  apply Forall2_insert; [done | by apply mark_same_but_retry_fields].
Qed.

Lemma foldl_collect_retry_same_but (env : RetryEnv) (ref_map : gmap string nat)
    (ps : list paper) (cs : list (nat * future)) (store : list paper) (refs : list nat) :
  Forall2 same_but_retry_fields store ps ->
  Forall2 same_but_retry_fields (foldl (collect_retry env ref_map) (store, refs) cs).1 ps.
Proof.
  revert store refs. induction cs as [|c cs IH]; intros store refs Hall; [done |].
  cbn [foldl].
  assert (Hstep := collect_retry_same_but env ref_map ps store refs c Hall).
  destruct (collect_retry env ref_map (store, refs) c) as [store' refs'].
  by apply IH.
Qed.

Lemma Forall2_same_but_refl (ps : list paper) : Forall2 same_but_retry_fields ps ps.
Proof. induction ps; constructor; [apply same_but_retry_fields_refl | done]. Qed.

Lemma still_failed_same_but (env : RetryEnv) (base_output_dir : string) (ps : list paper)
    (q : paper) :
  q ∈ still_failed_after_retry env base_output_dir ps ->
  exists p, p ∈ ps /\ same_but_retry_fields q p.
Proof.
  unfold still_failed_after_retry.
  destruct (foldl (submit_retry _ _) _ _) as [kept futures].
  assert (Hall := foldl_collect_retry_same_but env (build_ref_map ps) ps
                    (imap (fun k f => (k, f)) (as_completed (pool env) futures))
                    ps kept (Forall2_same_but_refl ps)).
  destruct (foldl (collect_retry _ _) _ _) as [store refs]. cbn [fst] in Hall.
  unfold deref. intros (i & _ & Hq)%list_elem_of_omap.
  destruct (Forall2_lookup_l _ _ _ _ _ Hall Hq) as (p & Hp & Hqp).
  exists p. split; [by eapply list_elem_of_lookup_2 | done].
Qed.

(** X21. Whatever the workers return, in whatever order, and whether
    the writes succeed or not: every record of the ledger after a retry
    pass agrees with a record of the ledger before it on every field but
    [_retry_attempt_failed_reason] and [_last_retry_timestamp]; the pass
    adds no record of its own and keeps the identity, the failure reason
    and the batch file of those it keeps. *)
Theorem retry_changes_only_the_retry_fields
    (env : RetryEnv) (failed_log_path base_output_dir : string) (f : ledger_file) (q : paper) :
  q ∈ papers_of (retry_failed_downloads env failed_log_path base_output_dir f) ->
  exists p, p ∈ papers_of f
            /\ same_but_retry_fields q p
            /\ entry_id_of q = entry_id_of p
            /\ q !! "_failure_reason" = p !! "_failure_reason"
            /\ q !! "_original_input_json" = p !! "_original_input_json".
Proof.
  intros Hq.
  assert (Hfound : exists p, p ∈ papers_of f /\ same_but_retry_fields q p).
  { assert (Hsame : q ∈ papers_of f -> exists p, p ∈ papers_of f /\ same_but_retry_fields q p)
      by (intros; exists q; split; [done | apply same_but_retry_fields_refl]).
    unfold retry_failed_downloads in Hq.
    destruct f as [| | |data]; try (by apply Hsame).
    destruct (ledger_papers data) as [|p0 ps0] eqn:Hps; [by apply Hsame |].
    rewrite <- Hps in Hq.
    destruct (still_failed_after_retry env base_output_dir (ledger_papers data))
      as [|s0 ss] eqn:Hstill.
    - destruct (remove_ledger_fails env); [by apply Hsame |].
      by apply not_elem_of_nil in Hq.
    - destruct (write_fails (pool env) failed_log_path); [by apply Hsame |].
      cbn [papers_of ledger_papers] in Hq |- *. rewrite <- Hstill in Hq.
      by eapply still_failed_same_but. }
  destruct Hfound as (p & Hp & Hqp). exists p.
  split; [done |]. split; [done |]. split; [by apply same_but_retry_fields_entry_id |].
  split; by apply Hqp.
Qed.

Lemma retry_changes_only_the_retry_fields_witness :
  exists p, p ∈ papers_of (Document (mkLedgerDoc last_updated_timestamp "t" [paper_C]))
            /\ same_but_retry_fields paper_C p
            /\ entry_id_of paper_C = entry_id_of p
            /\ paper_C !! "_failure_reason" = p !! "_failure_reason"
            /\ paper_C !! "_original_input_json" = p !! "_original_input_json".
Proof.
  apply (retry_changes_only_the_retry_fields sample_retry_env "out/failed_downloads.json"
           "out" (Document (mkLedgerDoc last_updated_timestamp "t" [paper_C])) paper_C).
  vm_compute. apply list_elem_of_here.
Defined.

(** ** How many records a retry pass keeps *)

Lemma collect_retry_refs (env : RetryEnv) (ps store : list paper) (refs : list nat)
    (c : nat * future) :
  Forall2 same_but_retry_fields store ps ->
  (exists i p, ps !! i = Some p /\ entry_id_of p = Some c.2.1 /\ c.2.1 ≠ "") ->
  exists j, j < length ps
            /\ (collect_retry env (build_ref_map ps) (store, refs) c).2
               = refs ++ match retry_failure_reason c.2.2 with
                         | Some _ => [j]
                         | None => []
                         end.
Proof.
  intros Hall (i & p & Hp & Hid & Hk). destruct c as [k f]. cbn [snd] in *.
  destruct (build_ref_map_complete ps f.1 i p Hp Hid Hk) as [j Hj].
  destruct (build_ref_map_sound ps f.1 j Hj) as (p' & Hp' & Hid' & _).
  destruct (Forall2_lookup_r _ _ _ _ _ Hall Hp') as (s & Hs & Hsp).
  exists j. split; [by eapply lookup_lt_Some |].
  unfold collect_retry. destruct (retry_failure_reason f.2); [| by rewrite app_nil_r].
  rewrite Hj, Hs. cbn [found_record].
  rewrite bool_decide_eq_false_2; [done |].
  eapply paper_with_id_nonempty.
  rewrite (same_but_retry_fields_entry_id _ _ Hsp). exact Hid'.
Qed.

Lemma foldl_collect_retry_refs (env : RetryEnv) (ps : list paper)
    (cs : list (nat * future)) (store : list paper) (refs : list nat) :
  Forall2 same_but_retry_fields store ps ->
  (forall c, c ∈ cs ->
     exists i p, ps !! i = Some p /\ entry_id_of p = Some c.2.1 /\ c.2.1 ≠ "") ->
  Forall (fun i => i < length ps) refs ->
  Forall (fun i => i < length ps)
         (foldl (collect_retry env (build_ref_map ps)) (store, refs) cs).2
  /\ length (foldl (collect_retry env (build_ref_map ps)) (store, refs) cs).2
     = length refs
       + length (filter (fun c : nat * future => is_Some (retry_failure_reason c.2.2)) cs).
Proof.
  revert store refs. induction cs as [|c cs IH]; intros store refs Hall Hcs Hrefs.
  - cbn. split; [done | lia].
  - cbn [foldl].
    assert (Hsame := collect_retry_same_but env (build_ref_map ps) ps store refs c Hall).
    destruct (collect_retry_refs env ps store refs c Hall (Hcs c ltac:(by left)))
      as (j & Hj & Hstep).
    destruct (collect_retry env (build_ref_map ps) (store, refs) c) as [store' refs'].
    cbn [fst snd] in Hsame, Hstep. subst refs'.
    destruct (IH store'
                (refs ++ match retry_failure_reason c.2.2 with
                         | Some _ => [j]
                         | None => []
                         end) Hsame) as [Hvalid Hlen].
    + intros c' Hc'. apply Hcs. by right.
    + apply Forall_app. split; [done |].
      destruct (retry_failure_reason c.2.2); [by apply Forall_singleton | done].
    + split; [exact Hvalid |]. rewrite Hlen, length_app, filter_cons.
      destruct (retry_failure_reason c.2.2) as [reason|].
      * rewrite decide_True by (by eexists). cbn [length]. lia.
      * rewrite decide_False by (by intros [? ?]). cbn [length]. lia.
Qed.

Lemma deref_length (store : list paper) (refs : list nat) :
  Forall (fun i => i < length store) refs -> length (deref store refs) = length refs.
Proof.
  unfold deref. induction 1 as [|i refs Hi _ IH]; [done |].
  cbn [omap list_omap]. apply lookup_lt_is_Some_2 in Hi as [x ->].
  cbn [length]. by f_equal.
Qed.

Lemma retry_partition (env : BatchEnv) (base_output_dir : string) (l : list (nat * paper)) :
  length (omap (kept_of env base_output_dir) l)
  + length (filter (fun f : future => is_Some (retry_failure_reason f.2))
              (omap (future_of env base_output_dir) l))
  + length (filter (fun ip => retry_succeeded env base_output_dir ip = true) l)
  = length l.
Proof.
  induction l as [|[i p] l IH]; [done |].
  cbn [omap list_omap]. rewrite (filter_cons _ (i, p)).
  unfold kept_of at 1, future_of at 1. cbn [fst snd].
  destruct (retry_skipped env base_output_dir p) eqn:Hs.
  - assert (Hsucc : retry_succeeded env base_output_dir (i, p) = false)
      by (unfold retry_succeeded; cbn [fst snd]; by rewrite Hs).
    rewrite decide_False by congruence. cbn [length]. lia.
  - rewrite filter_cons. cbn [snd].
    destruct (retry_failure_reason (retry_attempt env base_output_dir i p))
      as [reason|] eqn:Hreason.
    + assert (Hsucc : retry_succeeded env base_output_dir (i, p) = false)
        by (unfold retry_succeeded; cbn [fst snd]; by rewrite Hs, Hreason).
      rewrite decide_True by (by eexists). rewrite decide_False by congruence.
      cbn [length]. lia.
    + assert (Hsucc : retry_succeeded env base_output_dir (i, p) = true)
        by (unfold retry_succeeded; cbn [fst snd]; by rewrite Hs, Hreason).
      rewrite decide_False by (by intros [? ?]). rewrite decide_True by done.
      cbn [length]. lia.
Qed.

Lemma length_filter_failed (l : list (nat * future)) :
  length (filter (fun c : nat * future => is_Some (retry_failure_reason c.2.2)) l)
  = length (filter (fun f : future => is_Some (retry_failure_reason f.2)) l.*2).
Proof.
  induction l as [|c l IH]; [done |].
  cbn [fmap list_fmap]. rewrite !filter_cons.
  destruct (retry_failure_reason c.2.2) as [reason|].
  - rewrite !decide_True by (by eexists). cbn [length]. by rewrite IH.
  - by rewrite !decide_False by (by intros [? ?]).
Qed.

Lemma still_failed_length (env : RetryEnv) (base_output_dir : string) (ps : list paper) :
  (forall fs, as_completed (pool env) fs ≡ₚ fs) ->
  length (still_failed_after_retry env base_output_dir ps)
  + length (filter (fun ip => retry_succeeded (pool env) base_output_dir ip = true)
              (imap (fun i p => (i, p)) ps))
  = length ps.
Proof.
  intros Hperm. unfold still_failed_after_retry.
  rewrite foldl_submit_retry. cbn [app].
  set (kept := omap (kept_of (pool env) base_output_dir) (imap (fun i p => (i, p)) ps)).
  set (futures := omap (future_of (pool env) base_output_dir) (imap (fun i p => (i, p)) ps)).
  set (cs := imap (fun k f => (k, f)) (as_completed (pool env) futures)).
  destruct (foldl_collect_retry_refs env ps cs ps kept (Forall2_same_but_refl ps))
    as [Hvalid Hlen].
  { intros [k f] (k' & f' & [= -> ->] & Hf)%elem_of_lookup_imap. cbn [snd].
    apply list_elem_of_lookup_2 in Hf. rewrite (Hperm futures) in Hf.
    apply elem_of_futures in Hf as (i & p & Hp & Hs & ->). cbn [fst].
    destruct (not_skipped_has_id env base_output_dir p Hs) as (eid & Hid & Hne).
    exists i, p. rewrite Hid. done. }
  { apply Forall_forall. intros i (p & Hp & _)%elem_of_kept. by eapply lookup_lt_Some. }
  assert (Hsame := foldl_collect_retry_same_but env (build_ref_map ps) ps cs ps kept
                     (Forall2_same_but_refl ps)).
  assert (Hfailed :
            length (filter (fun c : nat * future => is_Some (retry_failure_reason c.2.2)) cs)
            = length (filter (fun f : future => is_Some (retry_failure_reason f.2)) futures)).
  { subst cs.
    by rewrite length_filter_failed, snd_numbered, (Hperm futures). }
  rewrite Hfailed in Hlen.
  destruct (foldl (collect_retry env (build_ref_map ps)) (ps, kept) cs) as [store refs].
  cbn [fst snd] in Hvalid, Hlen, Hsame.
  rewrite deref_length by (by rewrite (Forall2_length _ _ _ Hsame)).
  rewrite Hlen.
  subst kept futures.
  rewrite (retry_partition (pool env) base_output_dir (imap (fun i p => (i, p)) ps)).
  apply length_imap.
Qed.

(** X22. When the ledger can be written and removed, a retry pass
    drops one record for each re-attempt that did not fail and no other:
    the records left and the successful re-attempts add up to the records
    the ledger had, duplicated identities included. *)
Theorem retry_drops_exactly_the_successes
    (env : RetryEnv) (failed_log_path base_output_dir : string) (data : ledger_doc) :
  (forall fs, as_completed (pool env) fs ≡ₚ fs) ->
  write_fails (pool env) failed_log_path = false ->
  remove_ledger_fails env = false ->
  length (papers_of (retry_failed_downloads env failed_log_path base_output_dir
                       (Document data)))
  + length (filter (fun ip => retry_succeeded (pool env) base_output_dir ip = true)
              (imap (fun i p => (i, p)) (ledger_papers data)))
  = length (ledger_papers data).
Proof.
  intros Hperm Hwrite Hremove.
  destruct (ledger_papers data) as [|p0 ps0] eqn:Hps.
  - unfold retry_failed_downloads. rewrite Hps. cbn [papers_of]. by rewrite Hps.
  - rewrite <- Hps.
    rewrite retry_failed_downloads_document by (done || by rewrite Hps).
    assert (Hpapers :
              papers_of
                match still_failed_after_retry env base_output_dir (ledger_papers data) with
                | [] => Missing
                | _ :: _ =>
                    Document (mkLedgerDoc last_retry_run_timestamp (now_retry env)
                                (still_failed_after_retry env base_output_dir
                                   (ledger_papers data)))
                end
              = still_failed_after_retry env base_output_dir (ledger_papers data))
      by (by destruct (still_failed_after_retry env base_output_dir (ledger_papers data))).
    rewrite Hpapers. by apply still_failed_length.
Qed.

Lemma retry_drops_exactly_the_successes_witness :
  length (papers_of (retry_failed_downloads sample_retry_env "out/failed_downloads.json"
                       "out" (Document sample_ledger)))
  + length (filter (fun ip => retry_succeeded (pool sample_retry_env) "out" ip = true)
              (imap (fun i p => (i, p)) (ledger_papers sample_ledger)))
  = length (ledger_papers sample_ledger).
Proof.
  apply (retry_drops_exactly_the_successes sample_retry_env "out/failed_downloads.json"
           "out" sample_ledger (fun fs => reverse_Permutation fs) eq_refl eq_refl).
Defined.

(** ** One record per identity, through merges and retry passes *)

Lemma identities_cons (p : paper) (l : list paper) :
  identities (p :: l)
  = (if has_entry_id p then [default "" (entry_id_of p)] else []) ++ identities l.
Proof.
  unfold identities. rewrite filter_cons.
  destruct (has_entry_id p); [by rewrite decide_True | by rewrite decide_False].
Qed.

Lemma identities_sublist (l1 l2 : list paper) :
  l1 `sublist_of` l2 -> identities l1 `sublist_of` identities l2.
Proof.
  induction 1 as [|x l1 l2 _ IH|x l1 l2 _ IH]; [done | |]; rewrite !identities_cons.
  - by apply sublist_app.
  - by apply sublist_inserts_l.
Qed.

Lemma deref_kept (env : BatchEnv) (base_output_dir : string) (ps : list paper)
    (l : list (nat * paper)) :
  (forall ip, ip ∈ l -> ps !! ip.1 = Some ip.2) ->
  deref ps (omap (kept_of env base_output_dir) l)
  = filter (fun p => retry_skipped env base_output_dir p = true) l.*2.
Proof.
  unfold deref. induction l as [|ip l IH]; intros Hl; [done |].
  cbn [omap list_omap fmap list_fmap]. rewrite filter_cons. unfold kept_of at 1.
  assert (IH' := IH ltac:(intros; apply Hl; by right)).
  destruct (retry_skipped env base_output_dir ip.2).
  - rewrite decide_True by done. cbn [omap list_omap].
    rewrite (Hl ip ltac:(by left)). by f_equal.
  - by rewrite decide_False.
Qed.

Lemma snd_indexed (ps : list paper) : (imap (fun i p => (i, p)) ps).*2 = ps.
Proof.
  apply list_eq. intros i. rewrite list_lookup_fmap, list_lookup_imap.
  by destruct (ps !! i).
Qed.

Lemma identities_failed_records (env : RetryEnv) (base_output_dir : string)
    (ps : list paper) (l : list (nat * future)) :
  NoDup (identities ps) ->
  (forall c, c ∈ l ->
     exists i p, ps !! i = Some p /\ retry_skipped (pool env) base_output_dir p = false
                 /\ c.2 = (default "" (entry_id_of p),
                           retry_attempt (pool env) base_output_dir i p)) ->
  identities (omap (failed_record env (build_ref_map ps) ps) l) `sublist_of` l.*2.*1.
Proof.
  intros Hnd. induction l as [|c l IH]; intros Hl; [done |].
  assert (IH' := IH ltac:(intros; apply Hl; by right)).
  cbn [omap list_omap fmap list_fmap].
  destruct (Hl c ltac:(by left)) as (i & p & Hp & Hs & Hc).
  destruct c as [k f]. cbn [snd] in Hc. subst f. cbn [fst snd].
  destruct (retry_failure_reason (retry_attempt (pool env) base_output_dir i p))
    as [reason|] eqn:Hreason.
  - rewrite (failed_record_of_attempt env base_output_dir ps Hnd k i p reason Hp Hs Hreason).
    rewrite identities_cons.
    destruct (not_skipped_has_id env base_output_dir p Hs) as (eid & Hid & Hne).
    assert (Hhas : has_entry_id (mark_retry_failed reason (strftime env k) p) = true)
      by (apply has_entry_id_true; exists eid; by rewrite entry_id_of_mark).
    rewrite Hhas, entry_id_of_mark. cbn [app]. by apply sublist_skip.
  - assert (failed_record env (build_ref_map ps) ps
              (k, (default "" (entry_id_of p),
                   retry_attempt (pool env) base_output_dir i p)) = None) as ->
      by (unfold failed_record; cbn [fst snd]; by rewrite Hreason).
    by apply sublist_cons.
Qed.

Lemma still_failed_identities_NoDup (env : RetryEnv) (base_output_dir : string)
    (ps : list paper) :
  NoDup (identities ps) ->
  (forall fs, as_completed (pool env) fs ≡ₚ fs) ->
  NoDup (identities (still_failed_after_retry env base_output_dir ps)).
Proof.
  intros Hnd Hperm.
  rewrite (still_failed_after_retry_closed env base_output_dir ps Hnd Hperm).
  set (futures := omap (future_of (pool env) base_output_dir) (imap (fun i p => (i, p)) ps)).
  rewrite deref_kept, snd_indexed
    by (intros [i p] (i' & p' & [= -> ->] & Hp)%elem_of_lookup_imap; exact Hp).
  assert (Hfuts : forall c, c ∈ imap (fun k f => (k, f)) (as_completed (pool env) futures) ->
            exists i p, ps !! i = Some p
                        /\ retry_skipped (pool env) base_output_dir p = false
                        /\ c.2 = (default "" (entry_id_of p),
                                  retry_attempt (pool env) base_output_dir i p)).
  { intros [k f] (k' & f' & [= -> ->] & Hf)%elem_of_lookup_imap. cbn [snd].
    apply list_elem_of_lookup_2 in Hf. rewrite (Hperm futures) in Hf.
    by apply elem_of_futures in Hf. }
  assert (Hsub := identities_failed_records env base_output_dir ps _ Hnd Hfuts).
  rewrite snd_numbered in Hsub.
  rewrite identities_app. apply NoDup_app. split; [| split].
  - eapply sublist_NoDup; [exact Hnd |]. apply identities_sublist, sublist_filter.
  - intros k Hkept Hfailed.
    apply elem_of_identities in Hkept as (p & [Hs Hin]%list_elem_of_filter & Hid & Hk).
    apply list_elem_of_lookup_1 in Hin as [i Hp].
    apply (fun H => elem_of_sublist _ _ _ H Hsub) in Hfailed.
    apply list_elem_of_fmap in Hfailed as (f & -> & Hf).
    rewrite (Hperm futures) in Hf.
    apply elem_of_futures in Hf as (j & q & Hq & Hsq & ->). cbn [fst] in *.
    destruct (not_skipped_has_id env base_output_dir q Hsq) as (eid & Hidq & Hne).
    rewrite Hidq in Hid. cbn [from_option id] in Hid.
    assert (i = j) as -> by (by eapply (identity_index_unique ps i j p q eid)).
    rewrite Hp in Hq. injection Hq as ->. congruence.
  - eapply sublist_NoDup; [| exact Hsub].
    rewrite (Hperm futures).
    eapply sublist_NoDup; [exact Hnd | apply futures_sublist_identities].
Qed.

(** X23. A ledger that holds each identity once still does after a
    merge of new failures, whatever they are and whether the write
    succeeds, and after a retry pass. *)
Theorem ledger_keeps_one_record_per_identity (f : ledger_file) :
  NoDup (identities (papers_of f)) ->
  (forall now io_fails new,
      NoDup (identities (papers_of (append_to_failed_log now io_fails f new))))
  /\ (forall env failed_log_path base_output_dir,
      (forall fs, as_completed (pool env) fs ≡ₚ fs) ->
      NoDup (identities
               (papers_of (retry_failed_downloads env failed_log_path base_output_dir f)))).
Proof.
  intros Hnd. split.
  - intros now io_fails new. unfold append_to_failed_log.
    destruct new as [|p new]; [done |].
    destruct ((0 <? _)%nat || _); [| done].
    destruct io_fails; [done |]. cbn [papers_of ledger_papers].
    apply updated_papers_list_identities.
  - intros env failed_log_path base_output_dir Hperm. unfold retry_failed_downloads.
    destruct f as [| | |data]; try done.
    destruct (ledger_papers data) as [|p0 ps0] eqn:Hps; [done |]. rewrite <- Hps.
    assert (Hstill := still_failed_identities_NoDup env base_output_dir
                        (ledger_papers data) Hnd Hperm).
    destruct (still_failed_after_retry env base_output_dir (ledger_papers data))
      as [|s0 ss].
    + destruct (remove_ledger_fails env); [done | apply NoDup_nil_2].
    + by destruct (write_fails (pool env) failed_log_path).
Qed.

Lemma ledger_keeps_one_record_per_identity_witness :
  NoDup (identities
           (papers_of (retry_failed_downloads sample_retry_env "out/failed_downloads.json"
                         "out" (Document sample_ledger)))).
Proof.
  assert (Hdistinct : NoDup (identities (papers_of (Document sample_ledger)))).
  { change (identities (papers_of (Document sample_ledger))) with ["2401.00001v1"].
    apply NoDup_singleton. }
  apply (proj2 (ledger_keeps_one_record_per_identity (Document sample_ledger) Hdistinct)
           sample_retry_env "out/failed_downloads.json" "out"
           (fun fs => reverse_Permutation fs)).
Defined.
